(** * globalise-tools: text/annotation alignment

    A shallow embedding of the offset, anchor and target logic of
    [scripts/globalise-extract-text.py] and [scripts/gt-xmi-to-wa.py],
    with the properties the natural-language specification states about
    them.

    Conventions of the embedding:
    - a Python [int] is a [Z]; an index produced by [enumerate] is a [nat];
    - a Python [str] is a [string] (code points below 256);
    - a Python [dict] literal that is serialised to JSON is a [json] object
      whose fields keep the insertion order; a [dict] used as a lookup
      table is a [gmap], or an association list where the iteration order
      is observable;
    - a function that can raise returns an [option]; [None] is the raised
      exception. *)

From Stdlib Require Import ZArith List String Ascii Lia Bool DecimalString Sorted.
From stdpp Require Import gmap strings list.

Set Warnings "-register-all".

Open Scope Z_scope.

(** ** Python primitives used by the scripts *)

Module PyStr.

(** [str.isspace] on one character, restricted to code points below 256:
    TAB..CR, FS..US, SPACE, NEL and NBSP. *)
Definition isspace (c : ascii) : bool :=
  let n := nat_of_ascii c in
  ((9 <=? n)%nat && (n <=? 13)%nat)
  || ((28 <=? n)%nat && (n <=? 32)%nat)
  || (n =? 133)%nat || (n =? 160)%nat.

(** [s.lstrip()] *)
Fixpoint lstrip (s : string) : string :=
  match s with
  | EmptyString => EmptyString
  | String c s' => if isspace c then lstrip s' else s
  end.

(** [s.rstrip()] *)
Fixpoint rstrip (s : string) : string :=
  match s with
  | EmptyString => EmptyString
  | String c s' =>
      match rstrip s' with
      | EmptyString => if isspace c then EmptyString else String c EmptyString
      | r => String c r
      end
  end.

(** [s.strip()] *)
Definition strip (s : string) : string := lstrip (rstrip s).

(** [len(s)] *)
Definition len (s : string) : Z := Z.of_nat (String.length s).

(** One bound of a slice, as Python normalises it: a negative bound counts
    from the end, and the result is clamped to [0, len]. *)
Definition slice_bound (n : Z) (i : Z) : Z :=
  if i <? 0 then Z.max 0 (i + n) else Z.min i n.

(** [s[lo:hi]] *)
Definition slice (s : string) (lo hi : Z) : string :=
  let lo' := slice_bound (len s) lo in
  let hi' := slice_bound (len s) hi in
  substring (Z.to_nat lo') (Z.to_nat (hi' - lo')) s.

(** [s[lo:]] *)
Definition slice_from (s : string) (lo : Z) : string := slice s lo (len s).

(** [s[:hi]] *)
Definition slice_to (s : string) (hi : Z) : string := slice s 0 hi.

(** [s.replace(a, b)] for one-character [a] and [b] *)
Fixpoint replace_char (a b : ascii) (s : string) : string :=
  match s with
  | EmptyString => EmptyString
  | String c s' =>
      String (if Ascii.eqb c a then b else c) (replace_char a b s')
  end.

(** Index of the last [c] among the first [n] characters of [s], counted
    from [i], the index of the head of [s]. *)
Fixpoint rfind_from (c : ascii) (s : string) (i : Z) (n : nat) : option Z :=
  match n, s with
  | S n', String d s' =>
      match rfind_from c s' (i + 1) n' with
      | Some j => Some j
      | None => if Ascii.eqb d c then Some i else None
      end
  | _, _ => None
  end.

(** [s.rfind(c, 0, stop)] for a one-character [c] and [stop >= 0]:
    the highest index below [stop] holding [c], or -1. *)
Definition rfind (c : ascii) (s : string) (stop : Z) : Z :=
  match rfind_from c s 0 (Z.to_nat stop) with
  | Some j => j
  | None => -1
  end.

(** [str(z)], also what [f"{z}"] prints. *)
Definition str_of_int (z : Z) : string :=
  NilZero.string_of_int (Z.to_int z).

(** [n] copies of ["0"]. *)
Fixpoint zeros (n : nat) : string :=
  match n with
  | O => EmptyString
  | S n' => String "0" (zeros n')
  end.

(** [f"{z:06d}"]: sign-aware zero padding to a minimum width of six; a
    longer number is printed in full. *)
Definition format_06d (z : Z) : string :=
  let sign := if z <? 0 then "-" else "" in
  let digits := str_of_int (Z.abs z) in
  sign +:+ zeros (6 - String.length sign - String.length digits) +:+ digits.

(** [a < b] on strings: lexicographic on code points. *)
Definition str_lt (a b : string) : bool := String.ltb a b.

(** [",".join(l)] and friends. *)
Fixpoint join (sep : string) (l : list string) : string :=
  match l with
  | [] => EmptyString
  | [x] => x
  | x :: rest => x +:+ sep +:+ join sep rest
  end.

(** The characters the scripts write with an escape. *)
Definition nl : string := String "010"%char EmptyString.
Definition tab : string := String "009"%char EmptyString.
Definition dquote : string := String "034"%char EmptyString.

(** [max(l)] and [min(l)]; an empty list raises [ValueError]. *)
Definition list_max (l : list Z) : option Z :=
  match l with
  | [] => None
  | z :: rest => Some (fold_left Z.max rest z)
  end.

Definition list_min (l : list Z) : option Z :=
  match l with
  | [] => None
  | z :: rest => Some (fold_left Z.min rest z)
  end.

(** [l.sort(key=key)]: the stable sort of [l] by [key], keys compared with
    [<] on strings.  An element is inserted in front of the first element
    whose key is not smaller, so equal keys keep their input order. *)
Fixpoint insert_by_key {A : Type} (key : A -> string) (x : A) (l : list A)
    : list A :=
  match l with
  | [] => [x]
  | y :: rest =>
      if str_lt (key y) (key x) then y :: insert_by_key key x rest
      else x :: l
  end.

Fixpoint sort_by_key {A : Type} (key : A -> string) (l : list A) : list A :=
  match l with
  | [] => []
  | x :: rest => insert_by_key key x (sort_by_key key rest)
  end.

(** ["".join(l)] *)
Fixpoint concat (l : list string) : string :=
  match l with
  | [] => EmptyString
  | x :: rest => x +:+ concat rest
  end.

(** [s.split(c)] for a one-character separator: the pieces between the
    occurrences of [c], one more than there are occurrences. *)
Fixpoint split_char (c : ascii) (s : string) : list string :=
  match s with
  | EmptyString => [EmptyString]
  | String d s' =>
      if Ascii.eqb d c then EmptyString :: split_char c s'
      else match split_char c s' with
           | piece :: pieces => String d piece :: pieces
           | [] => [String d EmptyString]
           end
  end.

(** [s.replace(old, new)] for a non-empty [old]: the occurrences of [old]
    are replaced from the left, without overlap.  [skip] counts the
    characters of a matched occurrence that are still to be passed over. *)
Fixpoint replace_from (old new s : string) (skip : nat) : string :=
  match s with
  | EmptyString => EmptyString
  | String c s' =>
      match skip with
      | S k => replace_from old new s' k
      | O =>
          if String.prefix old s
          then new +:+ replace_from old new s' (String.length old - 1)
          else String c (replace_from old new s' 0)
      end
  end.

Definition replace (old new s : string) : string := replace_from old new s 0.

(** [s.rindex(c)] for a one-character [c]; [ValueError] when [c] does not
    occur. *)
Definition rindex (c : ascii) (s : string) : option Z :=
  rfind_from c s 0 (String.length s).

End PyStr.

(** A [dict] whose iteration order is observed, as its items.  [d[k] = v]
    overwrites the value of a key that is present, and appends a new key. *)
Module PyDict.

Fixpoint set {V : Type} (k : string) (v : V) (items : list (string * V))
    : list (string * V) :=
  match items with
  | [] => [(k, v)]
  | (k', v') :: rest =>
      if String.eqb k k' then (k, v) :: rest else (k', v') :: set k v rest
  end.

End PyDict.

(** ** JSON-shaped values

    The targets and annotations the scripts build are nested [dict] and
    [list] literals that go straight to [json.dump]. *)

Inductive json : Type :=
| JStr (s : string)
| JInt (z : Z)
| JList (l : list json)
| JObj (fields : list (string * json)).

(** [d.get(k)] on an object; [None] when the key is absent or the value is
    not an object. *)
Fixpoint assoc_get (k : string) (fields : list (string * json)) : option json :=
  match fields with
  | [] => None
  | (k', v) :: rest => if String.eqb k k' then Some v else assoc_get k rest
  end.

Definition jget (k : string) (v : json) : option json :=
  match v with
  | JObj fields => assoc_get k fields
  | _ => None
  end.

(** The value of the ["type"] key of a target. *)
Definition target_type (t : json) : option json := jget "type" t.

(** ** scripts/globalise-extract-text.py *)

Module GTToken.
Record t : Type := mk { text : string; text_with_ws : string; offset : Z }.
End GTToken.

(** [pagexml]'s [Coords]: the polygon and the bounding box the class derives
    from it ([box] holds [x], [y], [w], [h]; [left], [top], [width] and
    [height] read the same four numbers). *)
Module Coords.
Record t : Type := mk { points : list (Z * Z); x : Z; y : Z; w : Z; h : Z }.
Definition left (c : t) : Z := x c.
Definition top (c : t) : Z := y c.
Definition width (c : t) : Z := w c.
Definition height (c : t) : Z := h c.
End Coords.

(** The values the scripts store in an annotation's [metadata] bag. *)
Inductive MetaValue : Type :=
| MStr (s : string)
| MInt (z : Z)
| MCoords (c : Coords.t)
| MCoordsList (cs : list Coords.t).

Module Annotation.
Record t : Type := mk {
  type : string;
  id : string;
  page_id : string;
  offset : Z;
  length : Z;
  segmented_version_id : string;
  begin_anchor : Z;
  end_anchor : Z;
  txt_version_id : string;
  char_start : Z;
  char_end : Z;
  metadata : gmap string MetaValue
}.
End Annotation.

(** A word of the page layout, and the display word that joins one or more
    of them ([globalise_tools.tools]). *)
Module PXWord.
Record t : Type := mk { id : string; page_id : string; coords : Coords.t }.
End PXWord.

Module DisplayWord.
Record t : Type := mk { id : string; text : string; px_words : list PXWord.t }.
End DisplayWord.

(** A text region and a text line of the page layout, with the fields the
    script reads ([globalise_tools.tools]). *)
Module PXTextRegion.
Record t : Type := mk {
  id : string;
  page_id : string;
  coords : Coords.t;
  first_word_id : string;
  last_word_id : string;
  text : string
}.
End PXTextRegion.

Module PXTextLine.
Record t : Type := mk {
  id : string;
  page_id : string;
  coords : Coords.t;
  first_word_id : string;
  last_word_id : string;
  text : string
}.
End PXTextLine.

(** One PageXML file after parsing: its path, the id of the scan, and the
    elements [extract_px_elements] and [to_display_words] hand over. *)
Module PageLayout.
Record t : Type := mk {
  path : string;
  scan_id : string;
  text_regions : list PXTextRegion.t;
  text_lines : list PXTextLine.t;
  display_words : list DisplayWord.t
}.
End PageLayout.

(** A token of the external tokenizer: its text, the text with the
    whitespace that follows it, and its character offset in the string
    that was tokenized. *)
Module SpacyToken.
Record t : Type := mk { text : string; text_with_ws : string; idx : Z }.
End SpacyToken.

(** One row of [data/tr-versions.csv]. *)
Module TRVersions.
Record t : Type := mk { txt : string; segmented : string; conll : string }.
End TRVersions.

Module ExtractText.

(** [segment_range]: the body of the [for i, token in enumerate(tokens)]
    loop, with [i] the index of the head of [tokens]. *)
Fixpoint segment_range_loop (i : nat) (tokens : list GTToken.t)
    (char_range_begin char_range_end : Z) (begin_idx end_idx : nat)
    : nat * nat :=
  match tokens with
  | [] => (begin_idx, end_idx)
  | token :: rest =>
      let begin_idx :=
        if (-1 <? GTToken.offset token)
           && (GTToken.offset token <=? char_range_begin)
        then i else begin_idx in
      if (-1 <? GTToken.offset token)
         && (GTToken.offset token <? char_range_end)
      then segment_range_loop (S i) rest char_range_begin char_range_end
             begin_idx i
      else if -1 <? GTToken.offset token
      then (begin_idx, end_idx)
      else segment_range_loop (S i) rest char_range_begin char_range_end
             begin_idx end_idx
  end.

Definition segment_range (tokens : list GTToken.t)
    (char_range_begin char_range_end : Z) : nat * nat :=
  segment_range_loop 0 tokens char_range_begin char_range_end 0%nat 0%nat.

(** *** Word annotations (the first loop of [process_pagexml]) *)

Definition make_word_id (prefix : string) (w : DisplayWord.t) : string :=
  prefix +:+ ":word:"
  +:+ PyStr.join ":" (map PXWord.id (DisplayWord.px_words w)).

(** [w.px_words[0]] raises [IndexError] on a display word without words. *)
Definition word_annotation (id_prefix stripped text : string)
    (w : DisplayWord.t) : option Annotation.t :=
  pxw0 ← head (DisplayWord.px_words w);
  Some {| Annotation.type := "tt:Word";
          Annotation.id := make_word_id id_prefix w;
          Annotation.page_id := PXWord.page_id pxw0;
          Annotation.offset := PyStr.len text;
          Annotation.length := PyStr.len stripped;
          Annotation.segmented_version_id := "";
          Annotation.begin_anchor := 0;
          Annotation.end_anchor := 0;
          Annotation.txt_version_id := "";
          Annotation.char_start := 0;
          Annotation.char_end := 0;
          Annotation.metadata :=
            <["text" := MStr stripped]>
              (<["coords" :=
                   MCoordsList (map PXWord.coords (DisplayWord.px_words w))]> ∅)
       |}.

(** [for w in display_words: ...] of [process_pagexml], threading the
    running [text], the [annotations] list and [display_word_range_idx]. *)
Fixpoint word_loop (id_prefix : string) (display_words : list DisplayWord.t)
    (text : string) (annotations : list Annotation.t)
    (display_word_range_idx : gmap string (Z * Z))
    : option (string * list Annotation.t * gmap string (Z * Z)) :=
  match display_words with
  | [] => Some (text, annotations, display_word_range_idx)
  | w :: rest =>
      let stripped := PyStr.strip (DisplayWord.text w) in
      wa ← word_annotation id_prefix stripped text w;
      word_loop id_prefix rest
        (text +:+ DisplayWord.text w)
        (annotations ++ [wa])
        (<[DisplayWord.id w :=
             (Annotation.offset wa,
              Annotation.offset wa + Annotation.length wa)]>
           display_word_range_idx)
  end.

(** The text, word annotations and range index of one page. *)
Definition process_words (id_prefix : string)
    (display_words : list DisplayWord.t)
    : option (string * list Annotation.t * gmap string (Z * Z)) :=
  word_loop id_prefix display_words "" [] ∅.

(** *** CoNLL export *)

Definition to_conll2002 (token : string) : string :=
  if String.eqb token "" || String.eqb token PyStr.nl
  then PyStr.nl
  else token +:+ " O" +:+ PyStr.nl.

Definition as_conll2002 (tokens : list string) : list string :=
  map to_conll2002 tokens.

(** The lines [export] hands to [f.writelines] for the [.conll] file. *)
Definition export_conll (tokens : list GTToken.t) : list string :=
  let token_texts := map GTToken.text tokens in
  as_conll2002 token_texts.

(** *** Page lookup *)

(** What [ic(range_start, range_end, overlapping_ranges)] reports. *)
Record Diagnostic : Type := ic {
  ic_range_start : Z;
  ic_range_end : Z;
  ic_overlapping_ranges : list (string * (Z * Z))
}.

(** A recorded range contains the offset. *)
Definition contains_offset (offset : Z) (r : Z * Z) : Prop :=
  fst r <= offset < snd r.

(** [sr[1][0] <= range_start < sr[1][1]] *)
Definition in_scan_range (range_start : Z) (sr : string * (Z * Z)) : bool :=
  (fst (snd sr) <=? range_start) && (range_start <? snd (snd sr)).

(** [scan_ranges] is given by its [items()], in insertion order.  The
    result pairs the returned page id with the diagnostics emitted. *)
Definition get_page_id (offset length : Z)
    (scan_ranges : list (string * (Z * Z))) : string * list Diagnostic :=
  let range_start := offset in
  let range_end := offset + length in
  let overlapping_ranges :=
    List.filter (in_scan_range range_start) scan_ranges in
  match overlapping_ranges with
  | [sr] => (fst sr, [])
  | _ => (":placeholder:", [ic range_start range_end overlapping_ranges])
  end.

(** *** Targets *)

Definition get_iiif_base_url (iiif_base_url_idx : gmap string string)
    (page_id : string) : option string :=
  iiif_base_url_idx !! page_id.

Definition svg_path_def (coords : list (Z * Z)) : string :=
  let path_def :=
    PyStr.join " "
      (map (fun c => "L" +:+ PyStr.str_of_int (fst c) +:+ " "
                     +:+ PyStr.str_of_int (snd c)) coords) +:+ " Z" in
  "M" +:+ PyStr.slice_from path_def 1.

Fixpoint svg_selector_loop (coords_list : list (list (Z * Z)))
    (path_defs : list string) (height width : Z)
    : option (list string * Z * Z) :=
  match coords_list with
  | [] => Some (path_defs, height, width)
  | coords :: rest =>
      my ← PyStr.list_max (map snd coords);
      mx ← PyStr.list_max (map fst coords);
      svg_selector_loop rest (path_defs ++ [svg_path_def coords])
        (Z.max height my) (Z.max width mx)
  end.

Definition svg_selector (coords_list : list (list (Z * Z))) : option json :=
  '(path_defs, height, width) ← svg_selector_loop coords_list [] 0 0;
  let path :=
    "<path d=" +:+ PyStr.dquote +:+ PyStr.join " " path_defs +:+ PyStr.dquote
    +:+ "/>" in
  Some (JObj [("type", JStr "SvgSelector");
              ("value",
               JStr ("<svg height=" +:+ PyStr.dquote +:+ PyStr.str_of_int height
                     +:+ PyStr.dquote +:+ " width=" +:+ PyStr.dquote
                     +:+ PyStr.str_of_int width +:+ PyStr.dquote +:+ ">"
                     +:+ path +:+ "</svg>"))]).

Definition image_target_wth_svg_selector (iiif_url : string)
    (coords_list : list (list (Z * Z))) : option json :=
  selector ← svg_selector coords_list;
  Some (JObj [("source", JStr iiif_url); ("type", JStr "Image");
              ("selector", selector)]).

Definition box_xywh (c : Coords.t) : string :=
  PyStr.str_of_int (Coords.x c) +:+ "," +:+ PyStr.str_of_int (Coords.y c) +:+ ","
  +:+ PyStr.str_of_int (Coords.w c) +:+ "," +:+ PyStr.str_of_int (Coords.h c).

Definition make_image_targets (iiif_base_url_idx : gmap string string)
    (page_id : string) (coords : list Coords.t) : option (list json) :=
  iiif_base_url ← get_iiif_base_url iiif_base_url_idx page_id;
  let iiif_url := iiif_base_url +:+ "/full/max/0/default.jpg" in
  let selectors :=
    map (fun c =>
           JObj [("type", JStr "FragmentSelector");
                 ("conformsTo", JStr "http://www.w3.org/TR/media-frags/");
                 ("value", JStr ("xywh=" +:+ box_xywh c))]) coords in
  let targets :=
    map (fun c =>
           JObj [("source",
                  JStr (iiif_base_url +:+ "/" +:+ box_xywh c
                        +:+ "/max/0/default.jpg"));
                 ("type", JStr "Image")]) coords in
  svg_target ← image_target_wth_svg_selector iiif_url (map Coords.points coords);
  svg ← jget "selector" svg_target;
  let target :=
    JObj [("source", JStr iiif_url); ("type", JStr "Image");
          ("selector", JList (selectors ++ [svg]))] in
  Some (targets ++ [target]).

Definition REPUBLIC_CONTEXT : string :=
  "https://brambg.github.io/ns/republic.jsonld".

Definition make_text_targets (textrepo_base_url : string)
    (annotation : Annotation.t) : list json :=
  let text_anchor_selector_target :=
    JObj [("source",
           JStr (textrepo_base_url +:+ "/rest/versions/"
                 +:+ Annotation.segmented_version_id annotation +:+ "/contents"));
          ("type", JStr "Text");
          ("selector",
           JObj [("@context", JStr REPUBLIC_CONTEXT);
                 ("type", JStr "urn:republic:TextAnchorSelector");
                 ("start", JInt (Annotation.begin_anchor annotation));
                 ("end", JInt (Annotation.end_anchor annotation))])] in
  let cutout_target :=
    JObj [("source",
           JStr (textrepo_base_url +:+ "/view/versions/"
                 +:+ Annotation.segmented_version_id annotation +:+ "/segments/"
                 +:+ "index/"
                 +:+ PyStr.str_of_int (Annotation.begin_anchor annotation) +:+ "/"
                 +:+ PyStr.str_of_int (Annotation.end_anchor annotation)));
          ("type", JStr "Text")] in
  let fragment_selector_target :=
    JObj [("source",
           JStr (textrepo_base_url +:+ "/rest/versions/"
                 +:+ Annotation.txt_version_id annotation +:+ "/contents"));
          ("type", JStr "Text");
          ("selector",
           JObj [("type", JStr "FragmentSelector");
                 ("conformsTo", JStr "http://tools.ietf.org/rfc/rfc5147");
                 ("value",
                  JStr ("char="
                        +:+ PyStr.str_of_int (Annotation.char_start annotation)
                        +:+ ","
                        +:+ PyStr.str_of_int (Annotation.char_end annotation)))])]
  in
  [text_anchor_selector_target; cutout_target].

Definition canvas_target (canvas_url : string) (xywh_list : list string)
    (coords_list : list (list (Z * Z))) : option json :=
  let region_selectors :=
    map (fun xywh =>
           JObj [("@context",
                  JStr "http://iiif.io/api/annex/openannotation/context.json");
                 ("type", JStr "iiif:ImageApiSelector");
                 ("region", JStr xywh)]) xywh_list in
  svg_selectors ← match coords_list with
                  | [] => Some []
                  | _ => svg ← svg_selector coords_list; Some [svg]
                  end;
  Some (JObj [("@context", JStr "https://brambg.github.io/ns/republic.jsonld");
              ("source", JStr canvas_url);
              ("type", JStr "Canvas");
              ("selector", JList (region_selectors ++ svg_selectors))]).

Definition to_xywh (coords : Coords.t) : string :=
  PyStr.str_of_int (Coords.left coords) +:+ ","
  +:+ PyStr.str_of_int (Coords.top coords) +:+ ","
  +:+ PyStr.str_of_int (Coords.width coords) +:+ ","
  +:+ PyStr.str_of_int (Coords.height coords).

(** The image and canvas targets of an annotation with ["coords"]; a single
    [Coords] is wrapped in a list.  A value that holds no [Coords] is not
    something the scripts store under that key, and fails. *)
Definition coords_targets (iiif_base_url_idx : gmap string string)
    (page_id : string) (v : MetaValue) : option (list json) :=
  coords ← match v with
           | MCoords c => Some [c]
           | MCoordsList cs => Some cs
           | _ => None
           end;
  image_targets ← make_image_targets iiif_base_url_idx page_id coords;
  let canvas_url := "urn:globalise:canvas:" +:+ page_id in
  let xywh_list := map to_xywh coords in
  let points := map Coords.points coords in
  canvas ← canvas_target canvas_url xywh_list points;
  Some (image_targets ++ [canvas]).

Definition annotation_targets (iiif_base_url_idx : gmap string string)
    (annotation : Annotation.t) : option (list json) :=
  let page_id := Annotation.page_id annotation in
  targets_coords ←
    match Annotation.metadata annotation !! "coords" with
    | Some v => coords_targets iiif_base_url_idx page_id v
    | None => Some []
    end;
  targets_page ←
    (if String.eqb (Annotation.type annotation) "px:Page"
     then iiif_base_url ← get_iiif_base_url iiif_base_url_idx page_id;
          let iiif_url := iiif_base_url +:+ "/full/max/0/default.jpg" in
          Some [JObj [("source", JStr iiif_url); ("type", JStr "Image")]]
     else Some []);
  Some (targets_coords ++ targets_page
        ++ make_text_targets "https://globalise.tt.di.huc.knaw.nl/textrepo"
             annotation).

(** *** Ordering *)

(** The key of [all_annotations.sort]:
    [f"{a.page_id} {a.offset:06d} {(1000 - a.length):06d}"]. *)
Definition sort_key (a : Annotation.t) : string :=
  Annotation.page_id a +:+ " " +:+ PyStr.format_06d (Annotation.offset a) +:+ " "
  +:+ PyStr.format_06d (1000 - Annotation.length a).

Definition sort_annotations (all_annotations : list Annotation.t)
    : list Annotation.t :=
  PyStr.sort_by_key sort_key all_annotations.

(** *** Anchors *)

(** [add_anchor_range] on one annotation. *)
Definition with_anchor_range (tokens : list GTToken.t) (a : Annotation.t)
    : Annotation.t :=
  let char_range_begin := Annotation.offset a in
  let char_range_end := Annotation.offset a + Annotation.length a in
  let '(begin_idx, end_idx) :=
    segment_range tokens char_range_begin char_range_end in
  {| Annotation.type := Annotation.type a;
     Annotation.id := Annotation.id a;
     Annotation.page_id := Annotation.page_id a;
     Annotation.offset := Annotation.offset a;
     Annotation.length := Annotation.length a;
     Annotation.segmented_version_id := Annotation.segmented_version_id a;
     Annotation.begin_anchor := Z.of_nat begin_idx;
     Annotation.end_anchor := Z.of_nat end_idx;
     Annotation.txt_version_id := Annotation.txt_version_id a;
     Annotation.char_start := Annotation.char_start a;
     Annotation.char_end := Annotation.char_end a;
     Annotation.metadata := Annotation.metadata a |}.

Definition add_anchor_range (all_annotations : list Annotation.t)
    (tokens : list GTToken.t) : list Annotation.t :=
  map (with_anchor_range tokens) all_annotations.

(** *** Identifiers and names *)

Definition make_id_prefix (scan_doc_id : string) : string :=
  "urn:globalise:" +:+ PyStr.replace ".jpg" "" scan_doc_id.

Definition make_textline_id (prefix line_id : string) : string :=
  prefix +:+ ":textline:" +:+ line_id.

Definition make_page_id (prefix : string) : string := prefix.

Definition make_textregion_id (prefix textregion_id : string) : string :=
  prefix +:+ ":textregion:" +:+ textregion_id.

(** [l[-1]] of a [split], which is never empty. *)
Definition last_piece (pieces : list string) : string :=
  default "" (last pieces).

Definition to_base_name (path : string) : string :=
  PyStr.replace ".xml" "" (last_piece (PyStr.split_char "/" path)).

(** [create_base_name]: [pagexml_files[0]] and [pagexml_files[-1]] raise
    [IndexError] on an empty list, [rindex] raises [ValueError] when the
    first name holds no underscore. *)
Definition create_base_name (pagexml_files : list string) : option string :=
  first_file ← head pagexml_files;
  last_file ← last pagexml_files;
  let first := to_base_name first_file in
  let last := to_base_name last_file in
  i ← PyStr.rindex "_" first;
  let base := PyStr.slice first 0 i in
  let first_page := PyStr.slice_from first (i + 1) in
  let last_page := PyStr.slice_from last (i + 1) in
  Some (base +:+ "_" +:+ first_page +:+ "_" +:+ last_page).

(** *** Layout annotations (the rest of [process_pagexml]) *)

(** [index_word_ranges]: every word of the layout gets the range of the
    display word that holds it; [word_range_index[w.id]] raises [KeyError]
    on a display word without a range. *)
Fixpoint index_word_ranges_loop (words : list DisplayWord.t)
    (word_range_index index : gmap string (Z * Z))
    : option (gmap string (Z * Z)) :=
  match words with
  | [] => Some index
  | w :: rest =>
      range ← word_range_index !! DisplayWord.id w;
      index_word_ranges_loop rest word_range_index
        (fold_left (fun index pw => <[PXWord.id pw := range]> index)
           (DisplayWord.px_words w) index)
  end.

Definition index_word_ranges (words : list DisplayWord.t)
    (word_range_index : gmap string (Z * Z)) : option (gmap string (Z * Z)) :=
  index_word_ranges_loop words word_range_index ∅.

Definition text_line_annotation (text_line : PXTextLine.t)
    (id_prefix : string) (offset length : Z) : Annotation.t :=
  {| Annotation.type := "px:TextLine";
     Annotation.id := make_textline_id id_prefix (PXTextLine.id text_line);
     Annotation.page_id := PXTextLine.page_id text_line;
     Annotation.offset := offset;
     Annotation.length := length;
     Annotation.segmented_version_id := "";
     Annotation.begin_anchor := 0;
     Annotation.end_anchor := 0;
     Annotation.txt_version_id := "";
     Annotation.char_start := 0;
     Annotation.char_end := 0;
     Annotation.metadata :=
       <["text" := MStr (PXTextLine.text text_line)]>
         (<["coords" := MCoords (PXTextLine.coords text_line)]> ∅) |}.

Definition text_region_annotation (text_region : PXTextRegion.t)
    (id_prefix : string) (offset length : Z) : Annotation.t :=
  {| Annotation.type := "px:TextRegion";
     Annotation.id := make_textregion_id id_prefix (PXTextRegion.id text_region);
     Annotation.page_id := PXTextRegion.page_id text_region;
     Annotation.offset := offset;
     Annotation.length := length;
     Annotation.segmented_version_id := "";
     Annotation.begin_anchor := 0;
     Annotation.end_anchor := 0;
     Annotation.txt_version_id := "";
     Annotation.char_start := 0;
     Annotation.char_end := 0;
     Annotation.metadata :=
       <["coords" := MCoords (PXTextRegion.coords text_region)]>
         (<["text" := MStr (PXTextRegion.text text_region)]> ∅) |}.

(** [offset] and [length] of a region or line: from the start of the range
    of its first word to the end of the range of its last word; a word id
    the index does not hold raises [KeyError]. *)
Definition element_range (px_word_range_idx : gmap string (Z * Z))
    (first_word_id last_word_id : string) : option (Z * Z) :=
  first_word_range ← px_word_range_idx !! first_word_id;
  let offset := fst first_word_range in
  last_word_range ← px_word_range_idx !! last_word_id;
  let length := snd last_word_range - offset in
  Some (offset, length).

Fixpoint text_region_annotations (id_prefix : string)
    (px_word_range_idx : gmap string (Z * Z))
    (px_text_regions : list PXTextRegion.t) : option (list Annotation.t) :=
  match px_text_regions with
  | [] => Some []
  | text_region :: rest =>
      '(offset, length) ← element_range px_word_range_idx
                             (PXTextRegion.first_word_id text_region)
                             (PXTextRegion.last_word_id text_region);
      annotations ← text_region_annotations id_prefix px_word_range_idx rest;
      Some (text_region_annotation text_region id_prefix offset length
            :: annotations)
  end.

Fixpoint text_line_annotations (id_prefix : string)
    (px_word_range_idx : gmap string (Z * Z))
    (px_text_lines : list PXTextLine.t) : option (list Annotation.t) :=
  match px_text_lines with
  | [] => Some []
  | text_line :: rest =>
      '(offset, length) ← element_range px_word_range_idx
                             (PXTextLine.first_word_id text_line)
                             (PXTextLine.last_word_id text_line);
      annotations ← text_line_annotations id_prefix px_word_range_idx rest;
      Some (text_line_annotation text_line id_prefix offset length
            :: annotations)
  end.

Section ProcessPagexml.

(** [gt.na_url] and [gt.tr_url], which turn the path of a file into the
    addresses of the scan at the archive and in the transcription tool. *)
Variables (na_url tr_url : string -> string).

Definition page_annotation (id_prefix page_id path : string) (total_size : Z)
    : Annotation.t :=
  {| Annotation.type := "px:Page";
     Annotation.id := make_page_id id_prefix;
     Annotation.page_id := page_id;
     Annotation.offset := 0;
     Annotation.length := total_size;
     Annotation.segmented_version_id := "";
     Annotation.begin_anchor := 0;
     Annotation.end_anchor := 0;
     Annotation.txt_version_id := "";
     Annotation.char_start := 0;
     Annotation.char_end := 0;
     Annotation.metadata :=
       <["n" := MStr (last_piece (PyStr.split_char "_" page_id))]>
         (<["file" := MStr path]>
            (<["na_url" := MStr (na_url path)]>
               (<["tr_url" := MStr (tr_url path)]> ∅))) |}.

(** [process_pagexml], from the parsed layout on. *)
Definition process_pagexml (page : PageLayout.t)
    : option (list string * list Annotation.t * Z) :=
  let id_prefix := make_id_prefix (PageLayout.scan_id page) in
  '(text, annotations, display_word_range_idx) ←
    word_loop id_prefix (PageLayout.display_words page) "" [] ∅;
  px_word_range_idx ←
    index_word_ranges (PageLayout.display_words page) display_word_range_idx;
  let paragraphs :=
    map (fun p => p +:+ PyStr.nl) (PyStr.split_char "010" text) in
  let total_size := PyStr.len (PyStr.concat paragraphs) in
  let page_id := to_base_name (PageLayout.path page) in
  let annotations :=
    annotations
    ++ [page_annotation id_prefix page_id (PageLayout.path page) total_size] in
  region_annotations ←
    text_region_annotations id_prefix px_word_range_idx
      (PageLayout.text_regions page);
  line_annotations ←
    text_line_annotations id_prefix px_word_range_idx
      (PageLayout.text_lines page);
  Some (paragraphs, annotations ++ region_annotations ++ line_annotations,
        total_size).

(** [annotation.offset += start_offset] *)
Definition rebase (start_offset : Z) (annotation : Annotation.t)
    : Annotation.t :=
  {| Annotation.type := Annotation.type annotation;
     Annotation.id := Annotation.id annotation;
     Annotation.page_id := Annotation.page_id annotation;
     Annotation.offset := Annotation.offset annotation + start_offset;
     Annotation.length := Annotation.length annotation;
     Annotation.segmented_version_id :=
       Annotation.segmented_version_id annotation;
     Annotation.begin_anchor := Annotation.begin_anchor annotation;
     Annotation.end_anchor := Annotation.end_anchor annotation;
     Annotation.txt_version_id := Annotation.txt_version_id annotation;
     Annotation.char_start := Annotation.char_start annotation;
     Annotation.char_end := Annotation.char_end annotation;
     Annotation.metadata := Annotation.metadata annotation |}.

(** The loop of [process_pagexml_files] over the parsed files. *)
Fixpoint process_pagexml_files_loop (pagexml_files : list PageLayout.t)
    (all_pars : list string) (all_annotations : list Annotation.t)
    (start_offset : Z) : option (list Annotation.t * list string) :=
  match pagexml_files with
  | [] => Some (all_annotations, all_pars)
  | f :: rest =>
      '(paragraphs, annotations, par_length) ← process_pagexml f;
      process_pagexml_files_loop rest
        (all_pars ++ paragraphs)
        (all_annotations ++ map (rebase start_offset) annotations)
        (start_offset + par_length)
  end.

Definition process_pagexml_files (pagexml_files : list PageLayout.t)
    : option (list Annotation.t * list string) :=
  process_pagexml_files_loop pagexml_files [] [] 0.

End ProcessPagexml.

(** [ranges_per_scan]: the items of the [dict] the comprehension builds. *)
Definition ranges_per_scan (annotations : list Annotation.t)
    : list (string * (Z * Z)) :=
  fold_left
    (fun ranges pa =>
       if String.eqb (Annotation.type pa) "px:Page"
       then PyDict.set (Annotation.page_id pa)
              (Annotation.offset pa,
               Annotation.offset pa + Annotation.length pa) ranges
       else ranges)
    annotations [].

(** *** Tokens *)

Section Tokenize.

(** [nlp(text).sents]: the sentences of a text, each a list of tokens. *)
Variable nlp : string -> list (list SpacyToken.t).

(** The tokens one sentence contributes: all but the newline tokens. *)
Definition sentence_tokens (text_offset : Z) (sentence : list SpacyToken.t)
    : list GTToken.t :=
  map (fun token =>
         let offset := text_offset + SpacyToken.idx token in
         GTToken.mk (SpacyToken.text token) (SpacyToken.text_with_ws token)
           offset)
    (List.filter (fun t => negb (String.eqb (SpacyToken.text t) PyStr.nl))
       sentence).

Fixpoint tokenize_per_paragraph_loop (all_pars : list string)
    (tokens : list GTToken.t) (text_offset : Z) : list GTToken.t :=
  match all_pars with
  | [] => tokens
  | par :: rest =>
      let doc_sents := nlp par in
      let tokens :=
        tokens ++ List.concat (map (sentence_tokens text_offset) doc_sents) in
      tokenize_per_paragraph_loop rest
        (tokens ++ [GTToken.mk "" "" (-1)])
        (text_offset + PyStr.len par)
  end.

Definition tokenize_per_paragraph (all_pars : list string) : list GTToken.t :=
  tokenize_per_paragraph_loop all_pars [] 0.

End Tokenize.

(** The segments [export] writes to the segmented-text file. *)
Definition export_segments (tokens : list GTToken.t) : list string :=
  map (fun t =>
         if String.eqb (GTToken.text_with_ws t) "" then PyStr.nl
         else GTToken.text_with_ws t) tokens.

Definition paragraph_annotation (base_name page_id : string)
    (par_num par_offset par_length : Z) (text : string) : Annotation.t :=
  {| Annotation.type := "tt:Paragraph";
     Annotation.id :=
       "urn:globalise:" +:+ base_name +:+ ":paragraph:"
       +:+ PyStr.str_of_int par_num;
     Annotation.page_id := page_id;
     Annotation.offset := par_offset;
     Annotation.length := par_length;
     Annotation.segmented_version_id := "";
     Annotation.begin_anchor := 0;
     Annotation.end_anchor := 0;
     Annotation.txt_version_id := "";
     Annotation.char_start := 0;
     Annotation.char_end := 0;
     Annotation.metadata := <["text" := MStr text]> ∅ |}.

Definition token_annotation (base_name page_id : string)
    (token_num offset token_length : Z) (token_text : string)
    (sentence_num : Z) : Annotation.t :=
  {| Annotation.type := "tt:Token";
     Annotation.id :=
       "urn:globalise:" +:+ base_name +:+ ":token:"
       +:+ PyStr.str_of_int token_num;
     Annotation.page_id := page_id;
     Annotation.offset := offset;
     Annotation.length := token_length;
     Annotation.segmented_version_id := "";
     Annotation.begin_anchor := 0;
     Annotation.end_anchor := 0;
     Annotation.txt_version_id := "";
     Annotation.char_start := 0;
     Annotation.char_end := 0;
     Annotation.metadata :=
       <["text" := MStr token_text]>
         (<["sentence_num" := MInt sentence_num]>
            (<["token_num" := MInt token_num]> ∅)) |}.

(** The loop of [make_token_annotations], with [i] the index of the head
    of [tokens].  The call of [token_annotation] passes six of its seven
    required parameters, [sentence_num] is missing: it raises [TypeError]
    before an annotation is built. *)
Fixpoint make_token_annotations_loop (base_name : string)
    (scan_ranges : list (string * (Z * Z))) (tokens : list GTToken.t)
    (i : Z) (annotations : list Annotation.t) (log : list Diagnostic)
    (par_offset par_length par_num : Z) (par_text : string)
    : option (list Annotation.t * list Diagnostic) :=
  match tokens with
  | [] => Some (annotations, log)
  | gp_token :: rest =>
      let token := GTToken.text gp_token in
      let par_text := par_text +:+ token +:+ " " in
      let offset := GTToken.offset gp_token in
      let token_is_paragraph_end := offset <? 0 in
      if token_is_paragraph_end then
        let '(page_id, diagnostics) :=
          get_page_id par_offset par_length scan_ranges in
        make_token_annotations_loop base_name scan_ranges rest (i + 1)
          (annotations
           ++ [paragraph_annotation base_name page_id par_num par_offset
                 par_length (PyStr.strip par_text)])
          (log ++ diagnostics)
          (par_offset + par_length) par_length (par_num + 1) ""
      else
        let token_length := PyStr.len token in
        let '(page_id, diagnostics) :=
          get_page_id offset token_length scan_ranges in
        None
  end.

Definition make_token_annotations (base_name : string)
    (tokens : list GTToken.t) (scan_ranges : list (string * (Z * Z)))
    : option (list Annotation.t * list Diagnostic) :=
  make_token_annotations_loop base_name scan_ranges tokens 0 [] [] 0 0 1 "".

(** *** Web annotations *)

(** A metadata value as [AnnotationEncoder] serialises it. *)
Definition coords_json (c : Coords.t) : json :=
  JList (map (fun pt => JList [JInt (fst pt); JInt (snd pt)]) (Coords.points c)).

Definition meta_json (v : MetaValue) : json :=
  match v with
  | MStr s => JStr s
  | MInt z => JInt z
  | MCoords c => coords_json c
  | MCoordsList cs => JList (map coords_json cs)
  end.

Definition annotation_body (annotation : Annotation.t) : json :=
  let body :=
    [("@context",
      JObj [("tt", JStr "https://brambg.github.io/ns/team-text#");
            ("px", JStr "https://brambg.github.io/ns/pagexml#")]);
     ("id", JStr (Annotation.id annotation));
     ("type", JStr (Annotation.type annotation))] in
  match Annotation.metadata annotation !! "text" with
  | Some text => JObj (body ++ [("text", meta_json text)])
  | None => JObj body
  end.

(** [WebAnnotation(body=body, target=targets)] *)
Definition to_web_annotation (iiif_base_url_idx : gmap string string)
    (annotation : Annotation.t) : option (json * list json) :=
  let body := annotation_body annotation in
  targets ← annotation_targets iiif_base_url_idx annotation;
  Some (body, targets).

Fixpoint make_web_annotations (iiif_base_url_idx : gmap string string)
    (annotations : list Annotation.t) : option (list (json * list json)) :=
  match annotations with
  | [] => Some []
  | a :: rest =>
      wa ← to_web_annotation iiif_base_url_idx a;
      was ← make_web_annotations iiif_base_url_idx rest;
      Some (wa :: was)
  end.

End ExtractText.

(** ** scripts/gt-xmi-to-wa.py *)

(** The source coordinates an interval of the plain text maps to. *)
Record IntervalData : Type := mkIntervalData {
  iiif_base_uri : string;
  canvas_id : string;
  coords : list (Z * Z)
}.

(** [intervaltree.Interval(begin, end, data)] *)
Module Interval.
Record t : Type := mk { begin : Z; end_ : Z; data : IntervalData }.
End Interval.

#[global] Instance IntervalData_eq_dec : EqDecision IntervalData.
Proof. solve_decision. Defined.

#[global] Instance Interval_eq_dec : EqDecision Interval.t.
Proof. solve_decision. Defined.

(** The [intervaltree] package, as far as the script uses it.  A tree is
    the set of its intervals, kept here as a list without duplicates. *)
Module IntervalTree.

Definition t : Type := list Interval.t.

(** [IntervalTree()] *)
Definition empty : t := [].

Definition is_null (iv : Interval.t) : bool :=
  Interval.end_ iv <=? Interval.begin iv.

(** [IntervalTree(intervals)]; a null interval raises [ValueError]. *)
Definition from_intervals (intervals : list Interval.t) : option t :=
  if existsb is_null intervals then None else Some (remove_dups intervals).

(** [tree[begin:end]]: the intervals that overlap [[begin, end)]; none
    when the query range is empty. *)
Definition overlap (tree : t) (begin end_ : Z) : list Interval.t :=
  if end_ <=? begin then []
  else List.filter
         (fun iv => (Interval.begin iv <? end_) && (begin <? Interval.end_ iv))
         tree.

(** [iv1 < iv2]: by [begin], then by [end]; the [dict] payloads do not
    order two intervals with the same bounds. *)
Definition lt (iv1 iv2 : Interval.t) : bool :=
  (Interval.begin iv1 <? Interval.begin iv2)
  || ((Interval.begin iv1 =? Interval.begin iv2)
      && (Interval.end_ iv1 <? Interval.end_ iv2)).

Fixpoint insert (iv : Interval.t) (l : list Interval.t) : list Interval.t :=
  match l with
  | [] => [iv]
  | iv' :: rest => if lt iv' iv then iv' :: insert iv rest else iv :: l
  end.

(** [sorted(list(intervals))] *)
Fixpoint sorted (l : list Interval.t) : list Interval.t :=
  match l with
  | [] => []
  | iv :: rest => insert iv (sorted rest)
  end.

End IntervalTree.

(** A [cassis] feature structure, with the features the target assembly
    reads.  [None] is Python's [None]: the feature holds no value. *)
Inductive FeatureStructure : Type :=
  FS (xmiID : Z) (begin end_ : option Z) (target : option FeatureStructure).

Module Feature.
Definition xmiID (fs : FeatureStructure) : Z :=
  match fs with FS i _ _ _ => i end.
Definition begin (fs : FeatureStructure) : option Z :=
  match fs with FS _ b _ _ => b end.
Definition end_ (fs : FeatureStructure) : option Z :=
  match fs with FS _ _ e _ => e end.
Definition target (fs : FeatureStructure) : option FeatureStructure :=
  match fs with FS _ _ _ t => t end.
End Feature.

(** One record of [data/document_data.json]. *)
Record DocumentData : Type := mkDocumentData {
  plain_text_md5 : string;
  plain_text_source : string;
  text_intervals : list (Z * Z * IntervalData)
}.

(** What the script hands to [loguru]. *)
Inductive LogRecord : Type :=
| LogInfo (message : string)
| LogWarning (message : string)
| LogError (message : string).

Module XMIProcessor.

Record t : Type := mk {
  text : string;
  text_len : Z;
  source : string;
  itree : IntervalTree.t
}.

Definition max_fix_len : Z := 20.

Section Init.

(** [hashlib.md5(s.encode()).hexdigest()] *)
Variable md5_hexdigest : string -> string.

(** [__init__], from the sofa string of the CAS loaded from [xmi_path]
    on; [document_data] is given by its items, in file order. *)
Definition init (document_data : list (string * DocumentData))
    (xmi_path : string) (sofa_string : string)
    : option (t * list LogRecord) :=
  let log := [LogInfo ("<= " +:+ xmi_path)] in
  let text := sofa_string in
  let text_len := PyStr.len text in
  let md5 := md5_hexdigest text in
  let data :=
    List.filter (fun d => String.eqb (plain_text_md5 d) md5)
      (map snd document_data) in
  match data with
  | d0 :: _ =>
      itree ← IntervalTree.from_intervals
                (map (fun iv => Interval.mk (fst (fst iv)) (snd (fst iv)) (snd iv))
                   (text_intervals d0));
      Some (mk text text_len (plain_text_source d0) itree, log)
  | [] =>
      Some (mk text text_len "urn:placeholder" IntervalTree.empty,
            log ++ [LogError ("No document data found for " +:+ xmi_path
                              +:+ ", using placeholder target source")])
  end.

End Init.

(** [not x] for a feature that holds an [int] or [None]. *)
Definition falsy (x : option Z) : bool :=
  match x with
  | None => true
  | Some z => z =? 0
  end.

(** [fs.get_covered_text()]: the slice of the sofa string the structure
    spans.  The structures of one file all cover the sofa string the
    processor keeps as [text]. *)
Definition get_covered_text (self : t) (fs : FeatureStructure)
    : option string :=
  b ← Feature.begin fs;
  e ← Feature.end_ fs;
  Some (PyStr.slice (text self) b e).

(** [a['begin'] - ...] raises [TypeError] on [None]. *)
Definition _get_prefix (self : t) (a : FeatureStructure) : option string :=
  a_begin ← Feature.begin a;
  let extended_prefix_begin := Z.max 0 (a_begin - max_fix_len * 2) in
  let extended_prefix :=
    PyStr.replace_char "010" " "
      (PyStr.lstrip (PyStr.slice (text self) extended_prefix_begin a_begin)) in
  let first_space_index := PyStr.rfind " " extended_prefix max_fix_len in
  Some (if first_space_index =? -1 then extended_prefix
        else PyStr.slice_from extended_prefix (first_space_index + 1)).

Definition _get_suffix (self : t) (a : FeatureStructure) : option string :=
  a_end ← Feature.end_ a;
  let extended_suffix_end := Z.min (text_len self) (a_end + max_fix_len * 2) in
  let extended_suffix :=
    PyStr.replace_char "010" " "
      (PyStr.rstrip (PyStr.slice (text self) a_end extended_suffix_end)) in
  let last_space_index := PyStr.rfind " " extended_suffix max_fix_len in
  Some (if last_space_index =? -1 then extended_suffix
        else PyStr.slice_to extended_suffix last_space_index).

Definition _image_target (iiif_base_uri xywh : string) : json :=
  JObj [("type", JStr "Image");
        ("source", JStr (iiif_base_uri +:+ "/" +:+ xywh +:+ "/max/0/default.jpg"))].

Definition _image_selector_target (iiif_base_uri xywh : string) : json :=
  JObj [("type", JStr "Image");
        ("source", JStr (iiif_base_uri +:+ "/full/max/0/default.jpg"));
        ("selector",
         JObj [("type", JStr "FragmentSelector");
               ("conformsTo", JStr "http://www.w3.org/TR/media-frags/");
               ("value", JStr ("xywh=" +:+ xywh))])].

Definition _canvas_target (canvas_source xywh : string) : json :=
  JObj [("@context", JStr "https://knaw-huc.github.io/ns/huc-di-tt.jsonld");
        ("type", JStr "Canvas");
        ("source", JStr canvas_source);
        ("selector",
         JObj [("@context",
                JStr "http://iiif.io/api/annex/openannotation/context.json");
               ("type", JStr "iiif:ImageApiSelector");
               ("region", JStr xywh)])].

(** [min] and [max] raise [ValueError] on an empty polygon. *)
Definition _to_xywh (coords : list (Z * Z)) : option string :=
  min_x ← PyStr.list_min (map fst coords);
  min_y ← PyStr.list_min (map snd coords);
  max_x ← PyStr.list_max (map fst coords);
  max_y ← PyStr.list_max (map snd coords);
  let w := max_x - min_x in
  let h := max_y - min_y in
  Some (PyStr.str_of_int min_x +:+ "," +:+ PyStr.str_of_int min_y +:+ ","
        +:+ PyStr.str_of_int w +:+ "," +:+ PyStr.str_of_int h).

(** [for iv in sorted(list(overlapping_intervals)): ...], appending to
    [targets]. *)
Fixpoint interval_targets (intervals : list Interval.t) (targets : list json)
    : option (list json) :=
  match intervals with
  | [] => Some targets
  | iv :: rest =>
      let iv_data := Interval.data iv in
      xywh ← _to_xywh (coords iv_data);
      interval_targets rest
        (targets ++ [ _image_target (iiif_base_uri iv_data) xywh;
                      _image_selector_target (iiif_base_uri iv_data) xywh;
                      _canvas_target (canvas_id iv_data) xywh ])
  end.

(** [_as_web_annotation] from the [text_quote_selector] on, for the
    structure the selectors are computed from. *)
Definition web_annotation_for (self : t) (generated anno_id : string)
    (feature_structure : FeatureStructure) (body : json)
    : option (json * list LogRecord) :=
  exact ← get_covered_text self feature_structure;
  prefix ← _get_prefix self feature_structure;
  suffix ← _get_suffix self feature_structure;
  let text_quote_selector :=
    JObj ([("type", JStr "TextQuoteSelector"); ("exact", JStr exact)]
          ++ (if String.eqb prefix "" then [] else [("prefix", JStr prefix)])
          ++ (if String.eqb suffix "" then [] else [("suffix", JStr suffix)])) in
  feature_structure_begin ← Feature.begin feature_structure;
  feature_structure_end ← Feature.end_ feature_structure;
  let targets :=
    [ JObj [("source", JStr (source self));
            ("selector",
             JList [ text_quote_selector;
                     JObj [("type", JStr "TextPositionSelector");
                           ("start", JInt feature_structure_begin);
                           ("end", JInt feature_structure_end)] ])] ] in
  let overlapping_intervals :=
    IntervalTree.overlap (itree self) feature_structure_begin
      feature_structure_end in
  let log :=
    if (1 <? length overlapping_intervals)%nat
    then [LogWarning ">1 overlapping intervals!"] else [] in
  targets ← interval_targets (IntervalTree.sorted overlapping_intervals) targets;
  Some (JObj [("@context", JStr "http://www.w3.org/ns/anno.jsonld");
              ("id", JStr anno_id);
              ("type", JStr "Annotation");
              ("generated", JStr generated);
              ("body", body);
              ("target", JList targets)],
        log).

(** [_as_web_annotation]; [generated] is what
    [datetime.today().isoformat()] reads off the clock.  A structure
    replaced by a [target] that is [None] fails at the first attribute
    access. *)
Definition _as_web_annotation (self : t) (generated : string)
    (feature_structure : FeatureStructure) (body : json)
    : option (json * list LogRecord) :=
  let anno_id :=
    "urn:globalise:annotation:"
    +:+ PyStr.str_of_int (Feature.xmiID feature_structure) in
  feature_structure ←
    (if falsy (Feature.begin feature_structure)
     then Feature.target feature_structure
     else Some feature_structure);
  web_annotation_for self generated anno_id feature_structure body.

End XMIProcessor.

(** Reading an emitted Web Annotation back. *)
Module WebAnnotation.

(** [v[i]] on a list. *)
Definition jindex (i : nat) (v : json) : option json :=
  match v with
  | JList l => l !! i
  | _ => None
  end.

(** [wa['target']] *)
Definition targets (wa : json) : option (list json) :=
  match jget "target" wa with
  | Some (JList l) => Some l
  | _ => None
  end.

(** [wa['target'][0]['selector'][1]['start']] and [...['end']] *)
Definition text_position (wa : json) : option (json * json) :=
  tgts ← jget "target" wa;
  tgt0 ← jindex 0 tgts;
  sels ← jget "selector" tgt0;
  sel ← jindex 1 sels;
  start ← jget "start" sel;
  stop ← jget "end" sel;
  Some (start, stop).

(** [wa['target'][0]['selector'][0]['exact']] *)
Definition quote_exact (wa : json) : option json :=
  tgts ← jget "target" wa;
  tgt0 ← jindex 0 tgts;
  sels ← jget "selector" tgt0;
  sel ← jindex 0 sels;
  jget "exact" sel.

(** A target whose ["type"] is ["Image"] or ["Canvas"]. *)
Definition is_image_or_canvas (t : json) : bool :=
  match target_type t with
  | Some (JStr ty) => String.eqb ty "Image" || String.eqb ty "Canvas"
  | _ => false
  end.

End WebAnnotation.

(** ** Vocabulary of the anchor-resolution contract *)

Module AnchorSpec.

(** A real token is one the loop's guards [-1 < token.offset] let
    through; a sentinel has offset -1. *)
Definition is_real (t : GTToken.t) : Prop := -1 < GTToken.offset t.

(** The scan stops at index [n]: no real token before [n] reaches [e],
    and [n] is either a real token that does or the end of the list. *)
Definition scan_stops_at (tokens : list GTToken.t) (e : Z) (n : nat) : Prop :=
  (n <= length tokens)%nat
  /\ (forall j t, (j < n)%nat -> tokens !! j = Some t -> is_real t ->
        GTToken.offset t < e)
  /\ ((n < length tokens)%nat ->
        exists t, tokens !! n = Some t /\ is_real t /\ e <= GTToken.offset t).

(** [idx] is the index of the last real token, among those at indices up
    to [n], whose offset satisfies [P]; it is the initial 0 when there is
    none. *)
Definition last_real_upto (P : Z -> Prop) (tokens : list GTToken.t)
    (n idx : nat) : Prop :=
  ((idx <= n)%nat
   /\ (exists t, tokens !! idx = Some t /\ is_real t /\ P (GTToken.offset t))
   /\ (forall j t, (idx < j <= n)%nat -> tokens !! j = Some t -> is_real t ->
         ~ P (GTToken.offset t)))
  \/ (idx = 0%nat
      /\ forall j t, (j <= n)%nat -> tokens !! j = Some t -> is_real t ->
           ~ P (GTToken.offset t)).

(** The same, for the tokens strictly before [k]: the loop invariant. *)
Definition last_real_before (P : Z -> Prop) (tokens : list GTToken.t)
    (k idx : nat) : Prop :=
  ((idx < k)%nat
   /\ (exists t, tokens !! idx = Some t /\ is_real t /\ P (GTToken.offset t))
   /\ (forall j t, (idx < j < k)%nat -> tokens !! j = Some t -> is_real t ->
         ~ P (GTToken.offset t)))
  \/ (idx = 0%nat
      /\ forall j t, (j < k)%nat -> tokens !! j = Some t -> is_real t ->
           ~ P (GTToken.offset t)).

(** The real tokens come in strictly increasing offset order, as the
    tokenizer emits them; [prev] is the offset of the last real token
    seen. *)
Fixpoint ascending_after (prev : Z) (tokens : list GTToken.t) : bool :=
  match tokens with
  | [] => true
  | t :: rest =>
      if -1 <? GTToken.offset t
      then (prev <? GTToken.offset t) && ascending_after (GTToken.offset t) rest
      else ascending_after prev rest
  end.

Definition ascending (tokens : list GTToken.t) : bool :=
  ascending_after (-1) tokens.

(** [idx] is the index of the last real token of the whole list whose
    offset satisfies [P]: the contract as it is worded, without the scan
    and without a default. *)
Definition is_last_real (P : Z -> Prop) (tokens : list GTToken.t)
    (idx : nat) : Prop :=
  (exists t, tokens !! idx = Some t /\ is_real t /\ P (GTToken.offset t))
  /\ forall j t, (idx < j)%nat -> tokens !! j = Some t -> is_real t ->
        ~ P (GTToken.offset t).

End AnchorSpec.

(** ** Vocabulary of the export contracts *)

Module ExportSpec.

(** A paragraph-boundary sentinel carries offset -1. *)
Definition is_sentinel (t : GTToken.t) : bool := GTToken.offset t =? -1.

(** The CoNLL entry of a token with a tab between text and tag. *)
Definition conll_entry_tab (t : GTToken.t) : string :=
  if is_sentinel t then PyStr.nl
  else GTToken.text t +:+ PyStr.tab +:+ "O" +:+ PyStr.nl.

(** The CoNLL entry of a token with a space between text and tag. *)
Definition conll_entry_space (t : GTToken.t) : string :=
  if is_sentinel t then PyStr.nl
  else GTToken.text t +:+ " " +:+ "O" +:+ PyStr.nl.

(** A token as [tokenize_per_paragraph] builds it: a sentinel has the
    empty text, a real token a text other than the empty string and the
    newline. *)
Definition tokenizer_shaped (t : GTToken.t) : bool :=
  if is_sentinel t then String.eqb (GTToken.text t) ""
  else negb (String.eqb (GTToken.text t) ""
             || String.eqb (GTToken.text t) PyStr.nl).

(** A Text target that selects by character offsets. *)
Definition is_char_fragment_target (t : json) : bool :=
  match target_type t, jget "selector" t with
  | Some (JStr ty), Some sel =>
      match jget "type" sel with
      | Some (JStr sty) =>
          String.eqb ty "Text" && String.eqb sty "FragmentSelector"
      | _ => false
      end
  | _, _ => false
  end.

End ExportSpec.

(** ** Vocabulary of the ordering contract *)

Module OrderSpec.

(** The numbers the six-character fields of the sort key can hold. *)
Definition within_key_width (a : Annotation.t) : Prop :=
  0 <= Annotation.offset a < 1000000 /\ 0 <= Annotation.length a <= 1000.

(** [a1] comes before [a2] in the composite order: same page, and a
    smaller offset or, at the same offset, a greater length. *)
Definition composite_before (a1 a2 : Annotation.t) : Prop :=
  Annotation.page_id a1 = Annotation.page_id a2
  /\ (Annotation.offset a1 < Annotation.offset a2
      \/ (Annotation.offset a1 = Annotation.offset a2
          /\ Annotation.length a2 < Annotation.length a1)).

(** [n] prints in six characters and before [n + 1]. *)
Definition format_step (n : Z) : bool :=
  (String.length (PyStr.format_06d n) =? 6)%nat
  && PyStr.str_lt (PyStr.format_06d n) (PyStr.format_06d (n + 1)).

(** [format_step] on the [k] numbers from [n] on. *)
Fixpoint format_steps (k : nat) (n : Z) : bool :=
  match k with
  | O => true
  | S k' => format_step n && format_steps k' (n + 1)
  end.

(** [x] may stand before [y] in a list sorted by [key]: the key of [y] is
    not smaller. *)
Definition key_le {A : Type} (key : A -> string) (x y : A) : Prop :=
  PyStr.str_lt (key y) (key x) = false.

End OrderSpec.

(** ** Vocabulary of the offset-index contract *)

Module OffsetSpec.

(** The raw texts of the display words, appended in reading order. *)
Fixpoint words_text (words : list DisplayWord.t) : string :=
  match words with
  | [] => ""
  | w :: rest => DisplayWord.text w +:+ words_text rest
  end.

(** Every display word joins at least one word of the layout. *)
Definition has_px_word (w : DisplayWord.t) : bool :=
  match DisplayWord.px_words w with
  | [] => false
  | _ :: _ => true
  end.

End OffsetSpec.

(** ** Vocabulary of the further properties *)

Module PipelineSpec.

(** A character occurs in a string. *)
Fixpoint contains_char (c : ascii) (s : string) : bool :=
  match s with
  | EmptyString => false
  | String d s' => Ascii.eqb d c || contains_char c s'
  end.

(** The text of a page: the raw texts of its display words. *)
Definition page_text (page : PageLayout.t) : string :=
  OffsetSpec.words_text (PageLayout.display_words page).

(** The text of a list of pages: each page text followed by a newline. *)
Fixpoint pages_text (pages : list PageLayout.t) : string :=
  match pages with
  | [] => ""
  | page :: rest => (page_text page +:+ PyStr.nl) +:+ pages_text rest
  end.

(** The offset at which page [k] starts in the text of all pages. *)
Definition page_start (pages : list PageLayout.t) (k : nat) : Z :=
  PyStr.len (pages_text (take k pages)).

(** One step of the comprehension of [ranges_per_scan]. *)
Definition range_step (ranges : list (string * (Z * Z))) (pa : Annotation.t)
    : list (string * (Z * Z)) :=
  if String.eqb (Annotation.type pa) "px:Page"
  then PyDict.set (Annotation.page_id pa)
         (Annotation.offset pa, Annotation.offset pa + Annotation.length pa)
         ranges
  else ranges.

(** The recorded range of every page, when the pages follow one another
    from [start] on. *)
Fixpoint page_ranges (start : Z) (pages : list PageLayout.t)
    : list (string * (Z * Z)) :=
  match pages with
  | [] => []
  | page :: rest =>
      let size := PyStr.len (page_text page) + 1 in
      (ExtractText.to_base_name (PageLayout.path page), (start, start + size))
      :: page_ranges (start + size) rest
  end.

(** The ids of the layout words the display words hold. *)
Definition px_word_ids (words : list DisplayWord.t) : list string :=
  List.concat (map (fun w => map PXWord.id (DisplayWord.px_words w)) words).

(** The word ids a page's regions and lines refer to. *)
Definition referenced_word_ids (page : PageLayout.t) : list string :=
  List.concat
    (map (fun r => [PXTextRegion.first_word_id r; PXTextRegion.last_word_id r])
       (PageLayout.text_regions page))
  ++ List.concat
       (map (fun l => [PXTextLine.first_word_id l; PXTextLine.last_word_id l])
          (PageLayout.text_lines page)).




(** The kinds of the targets an annotation gets for its layout, in the
    order they are emitted: for its coordinates one Image target per
    polygon, one more Image target and a Canvas target; for a page one
    Image target. *)
Definition image_kind : option json := Some (JStr "Image").
Definition canvas_kind : option json := Some (JStr "Canvas").

Definition coords_kinds (v : MetaValue) : list (option json) :=
  match v with
  | MCoords _ => repeat image_kind 2 ++ [canvas_kind]
  | MCoordsList cs => repeat image_kind (S (length cs)) ++ [canvas_kind]
  | _ => []
  end.

Definition layout_kinds (a : Annotation.t) : list (option json) :=
  match Annotation.metadata a !! "coords" with
  | Some v => coords_kinds v
  | None => []
  end
  ++ (if String.eqb (Annotation.type a) "px:Page" then [image_kind] else []).



(** A tokenizer token that is not a newline token. *)
Definition keep (t : SpacyToken.t) : bool :=
  negb (String.eqb (SpacyToken.text t) PyStr.nl).

(** The token a tokenizer token of a paragraph at [text_offset] becomes. *)
Definition to_token (text_offset : Z) (token : SpacyToken.t) : GTToken.t :=
  GTToken.mk (SpacyToken.text token) (SpacyToken.text_with_ws token)
    (text_offset + SpacyToken.idx token).

(** The offsets of the tokens a paragraph keeps, in order. *)
Definition kept_idxs (nlp : string -> list (list SpacyToken.t)) (par : string)
    : list Z :=
  map SpacyToken.idx
    (List.filter (fun t => negb (String.eqb (SpacyToken.text t) PyStr.nl))
       (List.concat (nlp par))).

(** [l] is strictly increasing and stays in [[lo, hi)]. *)
Fixpoint increasing_within (lo hi : Z) (l : list Z) : bool :=
  match l with
  | [] => true
  | z :: rest => (lo <=? z) && (z <? hi) && increasing_within (z + 1) hi rest
  end.

(** The tokenizer reports the tokens of a paragraph in reading order, at
    offsets inside the paragraph. *)
Definition tokenizer_in_order (nlp : string -> list (list SpacyToken.t))
    (par : string) : bool :=
  increasing_within 0 (PyStr.len par) (kept_idxs nlp par).

(** The tokenizer loses nothing of a paragraph: the texts of the kept
    tokens, each with the whitespace after it and none of them empty, make
    up the paragraph without its final newline. *)
Definition tokenizer_lossless (nlp : string -> list (list SpacyToken.t))
    (par : string) : Prop :=
  PyStr.concat
    (map SpacyToken.text_with_ws
       (List.filter (fun t => negb (String.eqb (SpacyToken.text t) PyStr.nl))
          (List.concat (nlp par)))) +:+ PyStr.nl = par
  /\ Forall (fun t => SpacyToken.text_with_ws t <> "")
       (List.filter (fun t => negb (String.eqb (SpacyToken.text t) PyStr.nl))
          (List.concat (nlp par))).

End PipelineSpec.

(** ** Sample data *)

Module Samples.

(** The tokens of the paragraph ["Go home.\n"]. *)
Definition go_home : list GTToken.t :=
  [ GTToken.mk "Go" "Go " 0; GTToken.mk "home" "home" 3;
    GTToken.mk "." "." 7; GTToken.mk "" "" (-1) ].

(** Real tokens out of offset order. *)
Definition unordered : list GTToken.t :=
  [ GTToken.mk "a" "a " 0; GTToken.mk "c" "c " 5; GTToken.mk "b" "b " 1 ].

(** Two real tokens at one offset. *)
Definition doubled : list GTToken.t :=
  [ GTToken.mk "a" "a" 3; GTToken.mk "b" "b" 3 ].

(** One real token, which starts after the ranges asked for. *)
Definition late_start : list GTToken.t := [ GTToken.mk "x" "x" 5 ].

(** Two pages that meet at offset 3. *)
Definition two_pages : list (string * (Z * Z)) :=
  [ ("A", (0, 3)); ("B", (3, 7)) ].

(** Two pages whose ranges overlap on [[2, 3)]. *)
Definition overlapping_pages : list (string * (Z * Z)) :=
  [ ("A", (0, 3)); ("B", (2, 7)) ].

Definition annotation (type page_id : string) (offset length : Z)
    (txt_version_id : string) : Annotation.t :=
  {| Annotation.type := type;
     Annotation.id := "urn:globalise:sample";
     Annotation.page_id := page_id;
     Annotation.offset := offset;
     Annotation.length := length;
     Annotation.segmented_version_id := "seg-v1";
     Annotation.begin_anchor := 0;
     Annotation.end_anchor := 2;
     Annotation.txt_version_id := txt_version_id;
     Annotation.char_start := 0;
     Annotation.char_end := 0;
     Annotation.metadata := ∅ |}.

(** A page of 2000 characters and its first paragraph of 1500. *)
Definition long_page : Annotation.t := annotation "px:Page" "p1" 0 2000 "txt-v1".
Definition long_paragraph : Annotation.t :=
  annotation "tt:Paragraph" "p1" 0 1500 "txt-v1".

(** Two one-character spans either side of offset one million. *)
Definition span_999999 : Annotation.t := annotation "tt:Token" "p1" 999999 1 "txt-v1".
Definition span_1000000 : Annotation.t :=
  annotation "tt:Token" "p1" 1000000 1 "txt-v1".

(** A token annotation that carries a plain-text version id. *)
Definition versioned_token : Annotation.t :=
  annotation "tt:Token" "p1" 0 2 "txt-v1".

Definition pxword (id : string) : PXWord.t :=
  PXWord.mk id "p1" (Coords.mk [(0, 0); (10, 0); (10, 5); (0, 5)] 0 0 10 5).

(** Display words with trailing whitespace only, and one that starts with
    a space. *)
Definition plain_words : list DisplayWord.t :=
  [ DisplayWord.mk "w1" "Go " [pxword "x1"];
    DisplayWord.mk "w2" ("home." +:+ PyStr.nl) [pxword "x2"] ].

Definition indented_words : list DisplayWord.t :=
  [ DisplayWord.mk "w1" " ab" [pxword "x1"] ].

(** Source coordinates of two stretches of the text ["Go home now."]. *)
Definition region_go : IntervalData :=
  mkIntervalData "https://iiif.example/p1" "urn:canvas:p1"
    [(0, 0); (10, 0); (10, 5); (0, 5)].

Definition region_home : IntervalData :=
  mkIntervalData "https://iiif.example/p1" "urn:canvas:p1"
    [(20, 0); (40, 0); (40, 8); (20, 8)].

(** A stand-in for the digest: any function of the text will do where only
    equality of digests matters. *)
Definition digest (s : string) : string := "md5:" +:+ s.

Definition document_data : list (string * DocumentData) :=
  [ ("doc1",
     mkDocumentData (digest "Go home now.") "https://textrepo.example/doc1"
       [(0, 2, region_go); (3, 7, region_home)]) ].

(** The processor of a file whose text is ["Go home now."]. *)
Definition processor : XMIProcessor.t :=
  XMIProcessor.mk "Go home now." 12 "https://textrepo.example/doc1"
    [ Interval.mk 0 2 region_go; Interval.mk 3 7 region_home ].

(** A named entity over ["home"], and a structure that begins at offset 0,
    spans ["Go"], and points at it through [target]. *)
Definition entity_home : FeatureStructure := FS 7 (Some 3) (Some 7) None.
Definition at_offset_zero : FeatureStructure :=
  FS 9 (Some 0) (Some 2) (Some entity_home).

End Samples.

(** ** Further sample data *)

Module MoreSamples.

Definition box : Coords.t :=
  Coords.mk [(0, 0); (10, 0); (10, 5); (0, 5)] 0 0 10 5.

(** Two scans: the first reads ["a b"], the second ["cde"]. *)
Definition page_one : PageLayout.t :=
  PageLayout.mk "scans/NL_1_12_0001.xml" "NL_1_12_0001.jpg"
    [PXTextRegion.mk "r1" "NL_1_12_0001" box "x1" "x2" "a b"]
    [PXTextLine.mk "l1" "NL_1_12_0001" box "x1" "x2" "a b"]
    [ DisplayWord.mk "w1" "a " [PXWord.mk "x1" "NL_1_12_0001" box];
      DisplayWord.mk "w2" "b" [PXWord.mk "x2" "NL_1_12_0001" box] ].

Definition page_two : PageLayout.t :=
  PageLayout.mk "scans/NL_1_12_0002.xml" "NL_1_12_0002.jpg" [] []
    [ DisplayWord.mk "w1" "cde" [PXWord.mk "y1" "NL_1_12_0002" box] ].

(** A stand-in for the address builders. *)
Definition url_of (path : string) : string := "https://example.org/" +:+ path.

(** A tokenizer that knows one paragraph. *)
Definition nlp (par : string) : list (list SpacyToken.t) :=
  if String.eqb par ("Go home." +:+ PyStr.nl)
  then [ [ SpacyToken.mk "Go" "Go " 0; SpacyToken.mk "home" "home" 3;
           SpacyToken.mk "." "." 7; SpacyToken.mk PyStr.nl PyStr.nl 8 ] ]
  else [].

Definition go_home_twice : list string :=
  [ "Go home." +:+ PyStr.nl; "Go home." +:+ PyStr.nl ].

(** The processor of a longer text, and an entity over ["Batavia"]. *)
Definition voyage : XMIProcessor.t :=
  XMIProcessor.mk
    "The ship sailed from the roads of Batavia to the Cape in the month of May"
    73 "urn:placeholder" IntervalTree.empty.

Definition entity_batavia : FeatureStructure := FS 11 (Some 34) (Some 41) None.

End MoreSamples.

(** * Properties *)

Import ExtractText AnchorSpec ExportSpec OffsetSpec OrderSpec.

(** ** Anchor resolution *)

Section SegmentRange.

Implicit Types (tokens : list GTToken.t) (t : GTToken.t) (b e : Z).

Lemma last_real_before_skip (P : Z -> Prop) tokens (k idx : nat) t :
  tokens !! k = Some t -> ~ (is_real t /\ P (GTToken.offset t)) ->
  last_real_before P tokens k idx -> last_real_before P tokens (S k) idx.
Proof.
  intros Hk Hn [(Hlt & Hex & Hno) | (-> & Hno)]; [left | right].
  - split; [lia|]. split; [exact Hex|].
    intros j t' Hj Hl Hr HP. destruct (decide (j = k)) as [->|Hne].
    + rewrite Hk in Hl. injection Hl as <-. tauto.
    + apply (Hno j t'); auto. lia.
  - split; [reflexivity|].
    intros j t' Hj Hl Hr HP. destruct (decide (j = k)) as [->|Hne].
    + rewrite Hk in Hl. injection Hl as <-. tauto.
    + apply (Hno j t'); auto. lia.
Qed.

Lemma last_real_before_hit (P : Z -> Prop) tokens (k idx : nat) t :
  tokens !! k = Some t -> is_real t -> P (GTToken.offset t) ->
  last_real_before P tokens (S k) k.
Proof.
  intros Hk Hr HP. left. split; [lia|]. split; [eauto|].
  intros j t' Hj. lia.
Qed.

Lemma last_real_before_upto (P : Z -> Prop) tokens (n idx : nat) :
  last_real_before P tokens (S n) idx -> last_real_upto P tokens n idx.
Proof.
  intros [(Hlt & Hex & Hno) | (-> & Hno)]; [left | right].
  - split; [lia|]. split; [exact Hex|].
    intros j t' Hj. apply Hno. lia.
  - split; [reflexivity|]. intros j t' Hj. apply Hno. lia.
Qed.

Lemma last_real_before_end (P : Z -> Prop) tokens (k idx : nat) :
  (length tokens <= k)%nat ->
  last_real_before P tokens k idx ->
  last_real_upto P tokens (length tokens) idx.
Proof.
  intros Hk [(Hlt & Hex & Hno) | (-> & Hno)]; [left | right].
  - split.
    + destruct Hex as (t & Hl & _). apply lookup_lt_Some in Hl. lia.
    + split; [exact Hex|].
      intros j t' Hj Hl. apply (Hno j t'); [|exact Hl].
      apply lookup_lt_Some in Hl. lia.
  - split; [reflexivity|]. intros j t' Hj Hl. apply (Hno j t'); [|exact Hl].
    apply lookup_lt_Some in Hl. lia.
Qed.

(** The loop, started at index [i] on the rest of the list with an
    invariant that holds for the tokens before [i]. *)
Lemma segment_range_loop_scan tokens b e :
  forall rest i bi ei,
    drop i tokens = rest ->
    (forall j t, (j < i)%nat -> tokens !! j = Some t -> is_real t ->
       GTToken.offset t < e) ->
    last_real_before (fun o => o <= b) tokens i bi ->
    last_real_before (fun o => o < e) tokens i ei ->
    exists n,
      scan_stops_at tokens e n
      /\ last_real_upto (fun o => o <= b) tokens n
           (fst (segment_range_loop i rest b e bi ei))
      /\ last_real_upto (fun o => o < e) tokens n
           (snd (segment_range_loop i rest b e bi ei)).
Proof.
  induction rest as [|t rest IH]; intros i bi ei Hdrop Hpre Hb He.
  - assert (Hlen : (length tokens <= i)%nat).
    { destruct (decide (length tokens <= i)%nat) as [|Hn]; [assumption|].
      apply (f_equal length) in Hdrop. rewrite length_drop in Hdrop.
      simpl in Hdrop. lia. }
    exists (length tokens). split.
    + split; [lia|]. split; [|lia].
      intros j t Hj. apply Hpre. lia.
    + simpl. split; eapply last_real_before_end; eauto.
  - assert (Hi : tokens !! i = Some t).
    { pose proof (lookup_drop tokens i 0) as H. rewrite Hdrop in H.
      rewrite Nat.add_0_r in H. symmetry. exact H. }
    assert (Hdrop' : drop (S i) tokens = rest).
    { replace (drop (S i) tokens) with (drop 1 (drop i tokens)).
      - rewrite Hdrop. reflexivity.
      - rewrite drop_drop. f_equal. lia. }
    simpl.
    set (bi' := if (-1 <? GTToken.offset t) && (GTToken.offset t <=? b)
                then i else bi).
    assert (Hb' : last_real_before (fun o => o <= b) tokens (S i) bi').
    { subst bi'.
      destruct (Z.ltb_spec (-1) (GTToken.offset t)) as [H1 | H1];
        destruct (Z.leb_spec (GTToken.offset t) b) as [H2 | H2]; simpl.
      - apply (last_real_before_hit _ _ _ bi t); auto.
      - apply (last_real_before_skip _ _ _ _ t); auto.
        intros [_ ?]. lia.
      - apply (last_real_before_skip _ _ _ _ t); auto.
        unfold is_real. intros [? _]. lia.
      - apply (last_real_before_skip _ _ _ _ t); auto.
        unfold is_real. intros [? _]. lia. }
    clearbody bi'.
    destruct (Z.ltb_spec (-1) (GTToken.offset t)) as [Hreal | Hsent];
      simpl.
    + destruct (Z.ltb_spec (GTToken.offset t) e) as [Hin | Hout].
      * apply IH; auto.
        -- intros j t' Hj Hl Hr. destruct (decide (j = i)) as [->|Hne].
           ++ rewrite Hi in Hl. injection Hl as <-. exact Hin.
           ++ apply (Hpre j t'); auto. lia.
        -- apply (last_real_before_hit _ _ _ ei t); auto.
      * exists i. split.
        -- split; [apply lookup_lt_Some in Hi; lia|].
           split; [exact Hpre|]. intros _. exists t. auto.
        -- simpl. split; apply last_real_before_upto; auto.
           apply (last_real_before_skip _ _ _ _ t); auto.
           intros [_ ?]. lia.
    + apply IH; auto.
      * intros j t' Hj Hl Hr. destruct (decide (j = i)) as [->|Hne].
        -- rewrite Hi in Hl. injection Hl as <-. unfold is_real in Hr. lia.
        -- apply (Hpre j t'); auto. lia.
      * apply (last_real_before_skip _ _ _ _ t); auto.
        unfold is_real. intros [? _]. lia.
Qed.

(** What one call computes: the scan stops at some index [n], and the two
    results are the last qualifying real tokens up to [n]. *)
Lemma segment_range_scan tokens b e :
  exists n,
    scan_stops_at tokens e n
    /\ last_real_upto (fun o => o <= b) tokens n (fst (segment_range tokens b e))
    /\ last_real_upto (fun o => o < e) tokens n (snd (segment_range tokens b e)).
Proof.
  unfold segment_range. apply segment_range_loop_scan.
  - reflexivity.
  - intros j t Hj. lia.
  - right. split; [reflexivity|]. intros j t Hj. lia.
  - right. split; [reflexivity|]. intros j t Hj. lia.
Qed.

End SegmentRange.

Section SegmentRangeOrder.

Implicit Types (tokens : list GTToken.t) (t : GTToken.t).

Lemma ascending_after_bound tokens :
  forall prev j t, ascending_after prev tokens = true ->
    tokens !! j = Some t -> is_real t -> prev < GTToken.offset t.
Proof.
  induction tokens as [|t0 rest IH]; intros prev j t Hasc Hl Hr.
  - destruct j; discriminate.
  - simpl in Hasc.
    destruct (Z.ltb_spec (-1) (GTToken.offset t0)) as [H0 | H0].
    + apply andb_true_iff in Hasc as [Hp Hrest]. apply Z.ltb_lt in Hp.
      destruct j as [|j]; simpl in Hl.
      * injection Hl as <-. exact Hp.
      * specialize (IH _ _ _ Hrest Hl Hr). lia.
    + destruct j as [|j]; simpl in Hl.
      * injection Hl as <-. unfold is_real in Hr. lia.
      * apply (IH _ _ _ Hasc Hl Hr).
Qed.

Lemma ascending_after_lookup tokens :
  forall prev i j ti tj, ascending_after prev tokens = true ->
    (i < j)%nat -> tokens !! i = Some ti -> tokens !! j = Some tj ->
    is_real ti -> is_real tj -> GTToken.offset ti < GTToken.offset tj.
Proof.
  induction tokens as [|t0 rest IH]; intros prev i j ti tj Hasc Hij Hi Hj Hri Hrj.
  - destruct i; discriminate.
  - simpl in Hasc. destruct j as [|j]; [lia|]. simpl in Hj.
    destruct i as [|i]; simpl in Hi.
    + injection Hi as <-. unfold is_real in Hri.
      destruct (Z.ltb_spec (-1) (GTToken.offset t0)) as [H0 | H0]; [|lia].
      apply andb_true_iff in Hasc as [_ Hrest].
      apply (ascending_after_bound _ _ _ _ Hrest Hj Hrj).
    + destruct (Z.ltb_spec (-1) (GTToken.offset t0)) as [H0 | H0].
      * apply andb_true_iff in Hasc as [_ Hrest].
        apply (IH _ i j ti tj Hrest); auto; lia.
      * apply (IH _ i j ti tj Hasc); auto; lia.
Qed.

Lemma ascending_lookup tokens (i j : nat) ti tj :
  ascending tokens = true -> (i < j)%nat ->
  tokens !! i = Some ti -> tokens !! j = Some tj ->
  is_real ti -> is_real tj -> GTToken.offset ti < GTToken.offset tj.
Proof. unfold ascending. apply ascending_after_lookup. Qed.

(** A wider end never stops the scan earlier. *)
Lemma scan_stops_at_mono tokens (e1 e2 : Z) (n1 n2 : nat) :
  e1 <= e2 -> scan_stops_at tokens e1 n1 -> scan_stops_at tokens e2 n2 ->
  (n1 <= n2)%nat.
Proof.
  intros He (Hl1 & Hb1 & Hs1) (Hl2 & Hb2 & Hs2).
  destruct (decide (n1 <= n2)%nat) as [|Hgt]; [assumption|exfalso].
  destruct Hs2 as (t & Ht & Hr & Hge); [lia|].
  specialize (Hb1 n2 t ltac:(lia) Ht Hr). lia.
Qed.

(** The end anchor grows with the range, whatever the token order. *)
Lemma segment_range_end_mono tokens (a1 a2 b1 b2 : Z) :
  a2 <= b2 ->
  (snd (segment_range tokens a1 a2) <= snd (segment_range tokens b1 b2))%nat.
Proof.
  intros He.
  destruct (segment_range_scan tokens a1 a2) as (nA & HsA & _ & HeA).
  destruct (segment_range_scan tokens b1 b2) as (nB & HsB & _ & HeB).
  pose proof (scan_stops_at_mono _ _ _ _ _ He HsA HsB) as Hn.
  destruct HeA as [(HleA & (t & Ht & Hr & HP) & _) | (-> & _)]; [|lia].
  set (iA := snd (segment_range tokens a1 a2)) in *.
  set (iB := snd (segment_range tokens b1 b2)) in *.
  destruct HeB as [(HleB & _ & Hno) | (_ & Hno)].
  - destruct (decide (iA <= iB)%nat) as [|Hgt]; [assumption|exfalso].
    apply (Hno iA t ltac:(lia) Ht Hr). lia.
  - exfalso. apply (Hno iA t ltac:(lia) Ht Hr). lia.
Qed.

(** The begin anchor moves right with the range start, once the real
    tokens are in strictly increasing offset order. *)
Lemma segment_range_begin_mono tokens (a1 a2 b1 b2 : Z) :
  ascending tokens = true -> a1 <= a2 -> b1 <= a1 -> a2 <= b2 ->
  (fst (segment_range tokens b1 b2) <= fst (segment_range tokens a1 a2))%nat.
Proof.
  intros Hasc Ha Hb He.
  destruct (segment_range_scan tokens a1 a2) as (nA & HsA & HbA & _).
  destruct (segment_range_scan tokens b1 b2) as (nB & HsB & HbB & _).
  destruct HbB as [(HleB & (t & Ht & Hr & HP) & _) | (-> & _)]; [|lia].
  set (iA := fst (segment_range tokens a1 a2)) in *.
  set (iB := fst (segment_range tokens b1 b2)) in *.
  assert (HinA : (iB <= nA)%nat).
  { destruct (decide (iB <= nA)%nat) as [|Hgt]; [assumption|exfalso].
    destruct HsA as (HlA & _ & Hstop).
    apply lookup_lt_Some in Ht as Hlt.
    destruct Hstop as (s & Hs & Hrs & Hge); [lia|].
    pose proof (ascending_lookup tokens nA iB s t Hasc ltac:(lia) Hs Ht Hrs Hr).
    lia. }
  destruct HbA as [(HleA & _ & Hno) | (_ & Hno)].
  - destruct (decide (iB <= iA)%nat) as [|Hgt]; [assumption|exfalso].
    apply (Hno iB t ltac:(lia) Ht Hr). lia.
  - exfalso. apply (Hno iB t HinA Ht Hr). lia.
Qed.

(** With the real tokens in strictly increasing offset order nothing the
    scan left unread could qualify: the results are the last qualifying
    real tokens of the whole list. *)
Lemma last_real_upto_whole (P : Z -> Prop) tokens (n idx : nat) :
  last_real_upto P tokens n idx ->
  (forall j t, (n < j)%nat -> tokens !! j = Some t -> is_real t ->
     ~ P (GTToken.offset t)) ->
  last_real_upto P tokens (length tokens) idx.
Proof.
  intros [(Hle & Hex & Hno) | (-> & Hno)] Hrest; [left | right].
  - split.
    + destruct Hex as (t & Hl & _). apply lookup_lt_Some in Hl. lia.
    + split; [exact Hex|]. intros j t Hj Hl Hr.
      destruct (decide (j <= n)%nat) as [Hjn|Hjn].
      * apply (Hno j t); auto. lia.
      * apply (Hrest j t); auto. lia.
  - split; [reflexivity|]. intros j t Hj Hl Hr.
    destruct (decide (j <= n)%nat) as [Hjn|Hjn].
    + apply (Hno j t); auto.
    + apply (Hrest j t); auto. lia.
Qed.

Lemma segment_range_whole_list tokens (b e : Z) :
  ascending tokens = true -> b <= e ->
  last_real_upto (fun o => o <= b) tokens (length tokens)
    (fst (segment_range tokens b e))
  /\ last_real_upto (fun o => o < e) tokens (length tokens)
       (snd (segment_range tokens b e)).
Proof.
  intros Hasc Hbe.
  destruct (segment_range_scan tokens b e) as (n & Hstop & Hb & He).
  assert (Hrest : forall j t, (n < j)%nat -> tokens !! j = Some t ->
                    is_real t -> e < GTToken.offset t).
  { intros j t Hj Hl Hr. destruct Hstop as (_ & _ & Hs).
    apply lookup_lt_Some in Hl as Hlt.
    destruct Hs as (s & Hsl & Hsr & Hge); [lia|].
    pose proof (ascending_lookup tokens n j s t Hasc Hj Hsl Hl Hsr Hr). lia. }
  split.
  - apply (last_real_upto_whole _ _ n); [exact Hb|].
    intros j t Hj Hl Hr. specialize (Hrest j t Hj Hl Hr). lia.
  - apply (last_real_upto_whole _ _ n); [exact He|].
    intros j t Hj Hl Hr. specialize (Hrest j t Hj Hl Hr). lia.
Qed.

End SegmentRangeOrder.

(** C1, as stated: for every token list and range, [begin_idx] is the
    index of the last real token whose offset is [<= b] and [end_idx] that
    of the last real token whose offset is [< e].  It fails where no token
    qualifies: on one token at offset 5 the range [[0, 3)] resolves to
    (0, 0), the index of a token that starts after the range. *)
Lemma segment_range_last_real_tokens_counterexample :
  ~ (forall (tokens : list GTToken.t) (b e : Z),
        is_last_real (fun o => o <= b) tokens
          (fst (segment_range tokens b e))
        /\ is_last_real (fun o => o < e) tokens
             (snd (segment_range tokens b e))).
Proof.
  intros H.
  destruct (H Samples.late_start 0 3) as [[(t & Hl & _ & Hle) _] _].
  vm_compute in Hl. injection Hl as <-. simpl in Hle. lia.
Qed.

(** It also fails where the real tokens are out of offset order: the scan
    of [[1, 3)] stops at the token at offset 5 and never meets the later
    token at offset 1, the last one that starts at or before 1. *)
Example segment_range_stops_before_later_token :
  segment_range Samples.unordered 1 3 = (0%nat, 0%nat)
  /\ is_last_real (fun o => o <= 1) Samples.unordered 2.
Proof.
  split; [reflexivity|]. split.
  - eexists. split; [reflexivity|]. unfold is_real. simpl. lia.
  - intros j t Hj Hl. apply lookup_lt_Some in Hl. simpl in Hl. lia.
Qed.

(** C1: for every token list and range [[b, e)], [segment_range] scans the
    tokens once in order and skips sentinels; the scan stops at the first
    real token whose offset reaches or exceeds [e] (or at the end of the
    list); [begin_idx] is the index of the last real token scanned whose
    offset is [<= b], [end_idx] that of the last real token scanned whose
    offset is [< e], each left at its initial 0 when the scan met no such
    token.  When the real tokens come in strictly increasing offset order
    and [b <= e], these are the last such tokens of the whole list.  On the
    tokens of ["Go home.\n"] the range [[0, 8)] resolves to the anchors
    (0, 2). *)
Theorem segment_range_last_real_tokens :
  forall (tokens : list GTToken.t) (b e : Z),
    (exists n : nat,
        scan_stops_at tokens e n
        /\ last_real_upto (fun o => o <= b) tokens n
             (fst (segment_range tokens b e))
        /\ last_real_upto (fun o => o < e) tokens n
             (snd (segment_range tokens b e)))
    /\ (ascending tokens = true -> b <= e ->
        last_real_upto (fun o => o <= b) tokens (length tokens)
          (fst (segment_range tokens b e))
        /\ last_real_upto (fun o => o < e) tokens (length tokens)
             (snd (segment_range tokens b e)))
    /\ segment_range Samples.go_home 0 8 = (0%nat, 2%nat).
Proof.
  intros tokens b e. split; [|split].
  - apply segment_range_scan.
  - apply segment_range_whole_list.
  - reflexivity.
Qed.

Lemma segment_range_last_real_tokens_witness :
  ascending Samples.go_home = true
  /\ last_real_upto (fun o => o <= 3) Samples.go_home 4 1
  /\ last_real_upto (fun o => o < 7) Samples.go_home 4 1.
Proof.
  split; [reflexivity|].
  destruct (segment_range_last_real_tokens Samples.go_home 3 7)
    as (_ & Hwhole & _).
  apply Hwhole; [reflexivity | lia].
Defined.

(** C4, as stated: containment of the anchor ranges for every token list.
    It fails on a list whose real tokens are out of offset order: the wider
    range scans past the point where the narrower one stopped and finds a
    later token at or before the range start. *)
Lemma segment_range_monotonic_counterexample :
  ~ (forall (tokens : list GTToken.t) (a1 a2 b1 b2 : Z),
        a1 <= a2 -> b1 <= b2 -> b1 <= a1 -> a2 <= b2 ->
        (fst (segment_range tokens b1 b2) <= fst (segment_range tokens a1 a2))%nat
        /\ (snd (segment_range tokens a1 a2) <= snd (segment_range tokens b1 b2))%nat).
Proof.
  intros H.
  destruct (H Samples.unordered 1 3 1 10) as [Hb _]; try lia.
  vm_compute in Hb. lia.
Qed.

(** Strictness of the order matters for an empty inner range: with two real
    tokens at offset 3, [[3, 3)] stops on the first and [[3, 5)] reaches the
    second. *)
Example segment_range_doubled_offsets :
  segment_range Samples.doubled 3 3 = (0%nat, 0%nat)
  /\ segment_range Samples.doubled 3 5 = (1%nat, 1%nat).
Proof. split; reflexivity. Qed.

(** So does [a1 <= a2]: an inverted inner range stops early while its begin
    is still far to the right. *)
Example segment_range_inverted_range :
  segment_range Samples.go_home 8 1 = (1%nat, 0%nat)
  /\ segment_range Samples.go_home 8 10 = (2%nat, 2%nat).
Proof. split; reflexivity. Qed.

(** C4, amended: when the real tokens have strictly increasing offsets and
    [A = [a1, a2)] is a range ([a1 <= a2]) contained in [B = [b1, b2)], the
    anchors of [A] lie within the anchors of [B]. *)
Theorem segment_range_monotonic :
  forall (tokens : list GTToken.t) (a1 a2 b1 b2 : Z),
    ascending tokens = true ->
    a1 <= a2 -> b1 <= a1 -> a2 <= b2 ->
    (fst (segment_range tokens b1 b2) <= fst (segment_range tokens a1 a2))%nat
    /\ (snd (segment_range tokens a1 a2) <= snd (segment_range tokens b1 b2))%nat.
Proof.
  intros tokens a1 a2 b1 b2 Hasc Ha Hb He. split.
  - apply segment_range_begin_mono; assumption.
  - apply segment_range_end_mono; assumption.
Qed.

Lemma segment_range_monotonic_witness :
  ascending Samples.go_home = true
  /\ (fst (segment_range Samples.go_home 0 8)
      <= fst (segment_range Samples.go_home 3 7))%nat
  /\ (snd (segment_range Samples.go_home 3 7)
      <= snd (segment_range Samples.go_home 0 8))%nat.
Proof.
  split; [reflexivity|].
  apply (segment_range_monotonic Samples.go_home 3 7 0 8);
    [reflexivity | lia | lia | lia].
Defined.

(** ** Page lookup *)

Section PageLookup.

Implicit Types (scan_ranges : list (string * (Z * Z))) (offset length : Z).

Lemma in_scan_range_true offset (sr : string * (Z * Z)) :
  in_scan_range offset sr = true <-> contains_offset offset (snd sr).
Proof.
  unfold in_scan_range, contains_offset.
  rewrite andb_true_iff, Z.leb_le, Z.ltb_lt. tauto.
Qed.

(** No entry passes the filter when every passing entry would carry a key
    that the list does not hold. *)
Lemma filter_scan_ranges_absent offset scan_ranges (page_id : string) :
  ~ In page_id (map fst scan_ranges) ->
  (forall sr, In sr scan_ranges -> in_scan_range offset sr = true ->
     fst sr = page_id) ->
  List.filter (in_scan_range offset) scan_ranges = [].
Proof.
  induction scan_ranges as [|sr rest IH]; intros Hnot Hall; [reflexivity|].
  simpl. destruct (in_scan_range offset sr) eqn:Hsr.
  - exfalso. apply Hnot. left. apply Hall; [left; reflexivity | exact Hsr].
  - apply IH.
    + intros Hin. apply Hnot. right. exact Hin.
    + intros sr' Hin. apply Hall. right. exact Hin.
Qed.

(** With unique keys, a matching entry whose key every matching entry
    shares is the whole result of the filter. *)
Lemma filter_scan_ranges_unique offset scan_ranges (page_id : string)
    (r : Z * Z) :
  NoDup (map fst scan_ranges) ->
  In (page_id, r) scan_ranges ->
  contains_offset offset r ->
  (forall page_id' r', In (page_id', r') scan_ranges ->
     contains_offset offset r' -> page_id' = page_id) ->
  List.filter (in_scan_range offset) scan_ranges = [(page_id, r)].
Proof.
  induction scan_ranges as [|sr rest IH]; intros Hnd Hin Hc Huniq;
    [destruct Hin|].
  simpl in Hnd. apply NoDup_cons in Hnd as [Hfresh Hnd].
  assert (Hfresh' : ~ In (fst sr) (map fst rest)).
  { intros Hi. apply Hfresh. apply list_elem_of_In. exact Hi. }
  simpl. destruct Hin as [-> | Hin].
  - assert (Hm : in_scan_range offset (page_id, r) = true)
      by (apply in_scan_range_true; exact Hc).
    rewrite Hm. f_equal.
    apply (filter_scan_ranges_absent offset rest page_id); [exact Hfresh'|].
    intros [p' r'] Hin' Hm'. simpl. apply (Huniq p' r').
    + right. exact Hin'.
    + apply in_scan_range_true in Hm'. exact Hm'.
  - destruct (in_scan_range offset sr) eqn:Hsr.
    + exfalso. destruct sr as [p0 r0].
      assert (p0 = page_id).
      { apply (Huniq p0 r0); [left; reflexivity|].
        apply in_scan_range_true in Hsr. exact Hsr. }
      subst p0. apply Hfresh'. simpl.
      apply (in_map fst) in Hin. exact Hin.
    + apply IH; auto.
      intros p' r' Hin'. apply Huniq. right. exact Hin'.
Qed.

Lemma get_page_id_unique offset length scan_ranges (page_id : string)
    (r : Z * Z) :
  NoDup (map fst scan_ranges) ->
  In (page_id, r) scan_ranges ->
  contains_offset offset r ->
  (forall page_id' r', In (page_id', r') scan_ranges ->
     contains_offset offset r' -> page_id' = page_id) ->
  get_page_id offset length scan_ranges = (page_id, []).
Proof.
  intros Hnd Hin Hc Huniq. unfold get_page_id.
  rewrite (filter_scan_ranges_unique offset scan_ranges page_id r); auto.
Qed.

Lemma get_page_id_none offset length scan_ranges :
  (forall page_id r, In (page_id, r) scan_ranges ->
     ~ contains_offset offset r) ->
  get_page_id offset length scan_ranges
  = (":placeholder:", [ic offset (offset + length) []]).
Proof.
  intros Hnone. unfold get_page_id.
  assert (Hf : List.filter (in_scan_range offset) scan_ranges = []).
  { induction scan_ranges as [|sr rest IH]; [reflexivity|].
    simpl. destruct (in_scan_range offset sr) eqn:Hsr.
    - exfalso. destruct sr as [p r]. apply (Hnone p r); [left; reflexivity|].
      apply in_scan_range_true in Hsr. exact Hsr.
    - apply IH. intros p r Hin. apply (Hnone p r). right. exact Hin. }
  rewrite Hf. reflexivity.
Qed.

Lemma get_page_id_several offset length scan_ranges
    (p1 p2 : string) (r1 r2 : Z * Z) :
  In (p1, r1) scan_ranges -> In (p2, r2) scan_ranges -> p1 <> p2 ->
  contains_offset offset r1 -> contains_offset offset r2 ->
  exists overlapping,
    get_page_id offset length scan_ranges
    = (":placeholder:", [ic offset (offset + length) overlapping])
    /\ In (p1, r1) overlapping /\ In (p2, r2) overlapping.
Proof.
  intros H1 H2 Hne Hc1 Hc2. unfold get_page_id.
  set (overlapping := List.filter (in_scan_range offset) scan_ranges).
  assert (Hi1 : In (p1, r1) overlapping).
  { apply filter_In. split; [exact H1|]. apply in_scan_range_true. exact Hc1. }
  assert (Hi2 : In (p2, r2) overlapping).
  { apply filter_In. split; [exact H2|]. apply in_scan_range_true. exact Hc2. }
  exists overlapping. split; [|split; assumption].
  destruct overlapping as [|x [|y rest]].
  - destruct Hi1.
  - exfalso. destruct Hi1 as [Hx|[]]. destruct Hi2 as [Hy|[]].
    apply Hne. congruence.
  - reflexivity.
Qed.

(** The page id never depends on [length]. *)
Lemma get_page_id_length_irrelevant offset (length1 length2 : Z) scan_ranges :
  fst (get_page_id offset length1 scan_ranges)
  = fst (get_page_id offset length2 scan_ranges).
Proof.
  unfold get_page_id.
  destruct (List.filter (in_scan_range offset) scan_ranges) as [|x [|y rest]];
    reflexivity.
Qed.

End PageLookup.

(** C6: [get_page_id] is total.  Given the items of a [page_id -> (start,
    end)] map (keys unique), it returns the page id of the one range that
    contains the start offset, without a diagnostic, when exactly one range
    does; when none does, or two different pages do, it emits one
    diagnostic and returns the placeholder page id. *)
Theorem get_page_id_unique_or_placeholder :
  forall (offset length : Z) (scan_ranges : list (string * (Z * Z))),
    NoDup (map fst scan_ranges) ->
    (forall page_id r,
        In (page_id, r) scan_ranges -> contains_offset offset r ->
        (forall page_id' r', In (page_id', r') scan_ranges ->
           contains_offset offset r' -> page_id' = page_id) ->
        get_page_id offset length scan_ranges = (page_id, []))
    /\ ((forall page_id r, In (page_id, r) scan_ranges ->
           ~ contains_offset offset r) ->
        get_page_id offset length scan_ranges
        = (":placeholder:", [ic offset (offset + length) []]))
    /\ (forall p1 r1 p2 r2,
          In (p1, r1) scan_ranges -> In (p2, r2) scan_ranges -> p1 <> p2 ->
          contains_offset offset r1 -> contains_offset offset r2 ->
          exists overlapping,
            get_page_id offset length scan_ranges
            = (":placeholder:", [ic offset (offset + length) overlapping])
            /\ In (p1, r1) overlapping /\ In (p2, r2) overlapping).
Proof.
  intros offset length scan_ranges Hnd. split; [|split].
  - intros page_id r. apply get_page_id_unique. exact Hnd.
  - apply get_page_id_none.
  - intros p1 r1 p2 r2. apply get_page_id_several.
Qed.

Lemma two_pages_keys_unique : NoDup (map fst Samples.two_pages).
Proof.
  simpl. apply NoDup_cons. split.
  - intros H. apply list_elem_of_In in H. destruct H as [H|[]]. discriminate H.
  - apply NoDup_cons. split; [|apply NoDup_nil; exact I].
    intros H. apply list_elem_of_In in H. destruct H.
Defined.

Lemma overlapping_pages_keys_unique :
  NoDup (map fst Samples.overlapping_pages).
Proof.
  simpl. apply NoDup_cons. split.
  - intros H. apply list_elem_of_In in H. destruct H as [H|[]]. discriminate H.
  - apply NoDup_cons. split; [|apply NoDup_nil; exact I].
    intros H. apply list_elem_of_In in H. destruct H.
Defined.

Lemma get_page_id_unique_or_placeholder_witness :
  NoDup (map fst Samples.two_pages)
  /\ get_page_id 3 2 Samples.two_pages = ("B", [])
  /\ get_page_id 9 2 Samples.two_pages
     = (":placeholder:", [ic 9 11 []])
  /\ NoDup (map fst Samples.overlapping_pages)
  /\ fst (get_page_id 2 1 Samples.overlapping_pages) = ":placeholder:".
Proof.
  split; [exact two_pages_keys_unique|].
  destruct (get_page_id_unique_or_placeholder 3 2 Samples.two_pages
              two_pages_keys_unique) as (Hone & _ & _).
  destruct (get_page_id_unique_or_placeholder 9 2 Samples.two_pages
              two_pages_keys_unique) as (_ & Hnone & _).
  destruct (get_page_id_unique_or_placeholder 2 1 Samples.overlapping_pages
              overlapping_pages_keys_unique) as (_ & _ & Hmany).
  split; [|split; [|split; [exact overlapping_pages_keys_unique|]]].
  - apply (Hone "B" (3, 7)).
    + right. left. reflexivity.
    + unfold contains_offset. simpl. lia.
    + intros p' r' [Heq | [Heq | []]]; inversion Heq; subst;
        unfold contains_offset; simpl; intros; [lia | reflexivity].
  - apply Hnone.
    intros p r [Heq | [Heq | []]]; inversion Heq; subst;
      unfold contains_offset; simpl; lia.
  - destruct (Hmany "A" (0, 3) "B" (2, 7)) as (ov & Heq & _).
    + left. reflexivity.
    + right. left. reflexivity.
    + discriminate.
    + unfold contains_offset. simpl. lia.
    + unfold contains_offset. simpl. lia.
    + rewrite Heq. reflexivity.
Defined.

(** C9: the page id [get_page_id] returns depends on the start offset and
    the scan-range map only, never on the length; so a range that starts in
    the one page containing its start offset and runs past that page's end
    is still assigned that page. *)
Theorem get_page_id_by_start_offset :
  forall (offset length1 length2 : Z) (scan_ranges : list (string * (Z * Z))),
    fst (get_page_id offset length1 scan_ranges)
    = fst (get_page_id offset length2 scan_ranges)
    /\ (forall page_id page_start page_end,
          NoDup (map fst scan_ranges) ->
          In (page_id, (page_start, page_end)) scan_ranges ->
          page_start <= offset < page_end ->
          page_end < offset + length1 ->
          (forall page_id' r', In (page_id', r') scan_ranges ->
             contains_offset offset r' -> page_id' = page_id) ->
          fst (get_page_id offset length1 scan_ranges) = page_id).
Proof.
  intros offset length1 length2 scan_ranges. split.
  - apply get_page_id_length_irrelevant.
  - intros page_id page_start page_end Hnd Hin Hc _ Huniq.
    rewrite (get_page_id_unique offset length1 scan_ranges page_id
               (page_start, page_end)); auto.
Qed.

Lemma get_page_id_by_start_offset_witness :
  fst (get_page_id 2 1 Samples.two_pages)
  = fst (get_page_id 2 4 Samples.two_pages)
  /\ fst (get_page_id 2 4 Samples.two_pages) = "A".
Proof.
  destruct (get_page_id_by_start_offset 2 4 1 Samples.two_pages)
    as [Hlen Hspan].
  split; [symmetry; exact Hlen|].
  apply (Hspan "A" 0 3).
  - exact two_pages_keys_unique.
  - left. reflexivity.
  - lia.
  - lia.
  - intros p' r' [Heq | [Heq | []]]; inversion Heq; subst;
      unfold contains_offset; simpl; intros; [reflexivity | lia].
Defined.

(** ** CoNLL export *)

Lemma to_conll2002_tokenizer_shaped (t : GTToken.t) :
  tokenizer_shaped t = true ->
  to_conll2002 (GTToken.text t) = conll_entry_space t.
Proof.
  unfold tokenizer_shaped, conll_entry_space, to_conll2002.
  destruct (is_sentinel t).
  - intros H. apply String.eqb_eq in H. rewrite H. reflexivity.
  - intros H. apply negb_true_iff in H. rewrite H. reflexivity.
Qed.

(** C8, as stated: one entry per token, the real ones made of the text, a
    tab and ["O"].  The code separates text and tag with a space. *)
Lemma export_conll_tab_counterexample :
  ~ (forall tokens : list GTToken.t,
       export_conll tokens = map conll_entry_tab tokens).
Proof.
  intros H. specialize (H Samples.go_home). vm_compute in H. discriminate H.
Qed.

(** A real token whose text is empty would be written as a blank line: the
    code tells boundaries from tokens by the text, not by the offset. *)
Example export_conll_empty_text :
  export_conll [GTToken.mk "" "" 5] = [PyStr.nl].
Proof. reflexivity. Qed.

(** C8, amended: the CoNLL export writes one entry per token, in order; on
    a token list as the tokenizer builds it, the entry of a real token is
    its text, one space, ["O"] and a newline, and the entry of a
    paragraph-boundary sentinel is a blank line. *)
Theorem export_conll_space_separated :
  forall tokens : list GTToken.t,
    length (export_conll tokens) = length tokens
    /\ (forallb tokenizer_shaped tokens = true ->
        export_conll tokens = map conll_entry_space tokens).
Proof.
  intros tokens. split.
  - unfold export_conll, as_conll2002. rewrite !length_map. reflexivity.
  - unfold export_conll, as_conll2002.
    induction tokens as [|t rest IH]; intros Hshape; [reflexivity|].
    simpl in Hshape. apply andb_true_iff in Hshape as [Ht Hrest].
    simpl. rewrite (to_conll2002_tokenizer_shaped t Ht).
    f_equal. apply IH. exact Hrest.
Qed.

Lemma export_conll_space_separated_witness :
  forallb tokenizer_shaped Samples.go_home = true
  /\ export_conll Samples.go_home
     = [ "Go O" +:+ PyStr.nl; "home O" +:+ PyStr.nl; ". O" +:+ PyStr.nl;
         PyStr.nl ].
Proof.
  split; [reflexivity|].
  destruct (export_conll_space_separated Samples.go_home) as [_ H].
  rewrite H; reflexivity.
Defined.

(** ** Text targets *)

(** C3, on the code: [make_text_targets] builds the character-offset
    FragmentSelector target and leaves it out of the list it returns.
    Whatever the annotation's plain-text version id, the text targets are
    two, both of type Text and neither selecting by character offsets; an
    annotation with the version id ["txt-v1"] gets the anchor-selector
    target and the cutout target only. *)
Theorem make_text_targets_omits_fragment_target :
  (forall (textrepo_base_url : string) (annotation : Annotation.t),
      length (make_text_targets textrepo_base_url annotation) = 2%nat
      /\ existsb is_char_fragment_target
           (make_text_targets textrepo_base_url annotation) = false
      /\ Forall (fun t => target_type t = Some (JStr "Text"))
           (make_text_targets textrepo_base_url annotation))
  /\ Annotation.txt_version_id Samples.versioned_token = "txt-v1"
  /\ annotation_targets ∅ Samples.versioned_token
     = Some
         [ JObj [("source",
                  JStr "https://globalise.tt.di.huc.knaw.nl/textrepo/rest/versions/seg-v1/contents");
                 ("type", JStr "Text");
                 ("selector",
                  JObj [("@context", JStr REPUBLIC_CONTEXT);
                        ("type", JStr "urn:republic:TextAnchorSelector");
                        ("start", JInt 0); ("end", JInt 2)])];
           JObj [("source",
                  JStr "https://globalise.tt.di.huc.knaw.nl/textrepo/view/versions/seg-v1/segments/index/0/2");
                 ("type", JStr "Text")] ].
Proof.
  split; [|split; reflexivity].
  intros textrepo_base_url annotation. split; [reflexivity|].
  split; [reflexivity|].
  unfold make_text_targets. repeat constructor.
Qed.

(** ** Strings *)

Section Strings.

Implicit Types (s w pre post : string).

Lemma str_app_cons (ch : ascii) (a b : string) :
  String ch a +:+ b = String ch (a +:+ b).
Proof. reflexivity. Qed.

Lemma str_app_nil_l s : "" +:+ s = s.
Proof. reflexivity. Qed.

Lemma str_app_assoc (a b c : string) : (a +:+ b) +:+ c = a +:+ (b +:+ c).
Proof.
  induction a as [|ch a IH]; [reflexivity|].
  rewrite !str_app_cons, IH. reflexivity.
Qed.

Lemma str_app_nil_r s : s +:+ "" = s.
Proof.
  induction s as [|ch s IH]; [reflexivity|].
  rewrite str_app_cons, IH. reflexivity.
Qed.

Lemma str_length_app (a b : string) :
  String.length (a +:+ b) = (String.length a + String.length b)%nat.
Proof.
  induction a as [|ch a IH]; [reflexivity|].
  rewrite str_app_cons. simpl. rewrite IH. reflexivity.
Qed.

Lemma substring_skip pre s (k : nat) :
  substring (String.length pre) k (pre +:+ s) = substring 0 k s.
Proof.
  induction pre as [|ch pre IH]; [reflexivity|].
  rewrite str_app_cons. simpl. exact IH.
Qed.

Lemma substring_take_app w post :
  forall k : nat, (k <= String.length w)%nat ->
    substring 0 k (w +:+ post) = substring 0 k w.
Proof.
  induction w as [|ch w IH]; intros k Hk.
  - simpl in Hk. replace k with 0%nat by lia.
    rewrite str_app_nil_l. destruct post; reflexivity.
  - rewrite str_app_cons. destruct k as [|k]; [reflexivity|].
    simpl in Hk. simpl. rewrite IH by lia. reflexivity.
Qed.

Lemma substring_all w : substring 0 (String.length w) w = w.
Proof.
  induction w as [|ch w IH]; [reflexivity|]. simpl. rewrite IH. reflexivity.
Qed.

(** A slice that starts where [w] starts and stays inside [w]. *)
Lemma slice_inside pre w post (k : Z) :
  0 <= k <= PyStr.len w ->
  PyStr.slice (pre +:+ w +:+ post) (PyStr.len pre) (PyStr.len pre + k)
  = substring 0 (Z.to_nat k) w.
Proof.
  intros Hk. unfold PyStr.slice, PyStr.slice_bound, PyStr.len in *.
  rewrite !str_length_app.
  destruct (Z.ltb_spec (Z.of_nat (String.length pre)) 0) as [Hneg|_]; [lia|].
  destruct (Z.ltb_spec (Z.of_nat (String.length pre) + k) 0) as [Hneg|_]; [lia|].
  rewrite !Z.min_l by lia.
  replace (Z.of_nat (String.length pre) + k - Z.of_nat (String.length pre))
    with k by lia.
  rewrite Nat2Z.id, substring_skip.
  apply substring_take_app. lia.
Qed.

Lemma lstrip_length s : (String.length (PyStr.lstrip s) <= String.length s)%nat.
Proof.
  induction s as [|ch s IH]; simpl; [lia|].
  destruct (PyStr.isspace ch); simpl; lia.
Qed.

(** [rstrip] keeps a prefix of its argument. *)
Lemma rstrip_prefix s :
  substring 0 (String.length (PyStr.rstrip s)) s = PyStr.rstrip s.
Proof.
  induction s as [|ch s IH]; simpl; [reflexivity|].
  destruct (PyStr.rstrip s) as [|d r] eqn:Hr.
  - destruct (PyStr.isspace ch); simpl; [reflexivity|].
    destruct s; reflexivity.
  - simpl. simpl in IH. rewrite IH. reflexivity.
Qed.

Lemma rstrip_length s : (String.length (PyStr.rstrip s) <= String.length s)%nat.
Proof.
  induction s as [|ch s IH]; simpl; [lia|].
  destruct (PyStr.rstrip s) as [|d r].
  - destruct (PyStr.isspace ch); simpl; lia.
  - simpl in *. lia.
Qed.

Lemma rstrip_idempotent s : PyStr.rstrip (PyStr.rstrip s) = PyStr.rstrip s.
Proof.
  induction s as [|ch s IH]; simpl; [reflexivity|].
  destruct (PyStr.rstrip s) as [|d r] eqn:Hr.
  - destruct (PyStr.isspace ch) eqn:Hsp; simpl; [reflexivity|].
    rewrite Hsp. reflexivity.
  - change (PyStr.rstrip (String ch (String d r)))
      with (match PyStr.rstrip (String d r) with
            | EmptyString =>
                if PyStr.isspace ch then EmptyString else String ch EmptyString
            | String a r0 => String ch (String a r0)
            end).
    rewrite IH. reflexivity.
Qed.

(** Without leading whitespace, stripping only removes a tail. *)
Lemma strip_no_leading s : PyStr.lstrip s = s -> PyStr.strip s = PyStr.rstrip s.
Proof.
  unfold PyStr.strip. destruct s as [|ch s]; [reflexivity|].
  simpl. destruct (PyStr.isspace ch) eqn:Hsp.
  - intros H. pose proof (lstrip_length s) as Hl.
    rewrite H in Hl. simpl in Hl. lia.
  - intros _. destruct (PyStr.rstrip s); simpl; rewrite Hsp; reflexivity.
Qed.

Lemma strip_length s : (String.length (PyStr.strip s) <= String.length s)%nat.
Proof.
  unfold PyStr.strip. pose proof (lstrip_length (PyStr.rstrip s)).
  pose proof (rstrip_length s). lia.
Qed.

End Strings.

(** ** Word annotations *)

Section WordAnnotations.

Implicit Types (words : list DisplayWord.t) (w : DisplayWord.t).

Lemma words_text_app words1 words2 :
  words_text (words1 ++ words2) = words_text words1 +:+ words_text words2.
Proof.
  induction words1 as [|w rest IH]; [reflexivity|].
  simpl. rewrite IH, str_app_assoc. reflexivity.
Qed.

(** The text splits around the word at index [i]. *)
Lemma words_text_split words (i : nat) w :
  words !! i = Some w ->
  words_text words
  = words_text (take i words)
    +:+ DisplayWord.text w +:+ words_text (drop (S i) words).
Proof.
  intros Hi. rewrite <- (take_drop_middle words i w Hi) at 1.
  rewrite words_text_app. reflexivity.
Qed.

(** What [word_annotation] records. *)
Lemma word_annotation_fields (id_prefix stripped text : string) w
    (wa : Annotation.t) :
  word_annotation id_prefix stripped text w = Some wa ->
  Annotation.type wa = "tt:Word"
  /\ Annotation.offset wa = PyStr.len text
  /\ Annotation.length wa = PyStr.len stripped
  /\ Annotation.metadata wa !! "text" = Some (MStr stripped).
Proof.
  unfold word_annotation. destruct (head (DisplayWord.px_words w)); [|discriminate].
  simpl. intros H. injection H as <-. simpl.
  split; [reflexivity|]. split; [reflexivity|]. split; [reflexivity|].
  apply lookup_insert_eq.
Qed.

(** The loop appends, for the word at index [i], the annotation
    [word_annotation] builds from the text that runs up to that word. *)
Lemma word_loop_annotations (id_prefix : string) :
  forall words (text0 : string) (anns0 : list Annotation.t)
         (idx0 : gmap string (Z * Z)) text anns idx,
    word_loop id_prefix words text0 anns0 idx0 = Some (text, anns, idx) ->
    text = text0 +:+ words_text words
    /\ exists new : list Annotation.t,
         anns = anns0 ++ new
         /\ length new = length words
         /\ forall (i : nat) w, words !! i = Some w ->
              exists wa, new !! i = Some wa
                /\ word_annotation id_prefix (PyStr.strip (DisplayWord.text w))
                     (text0 +:+ words_text (take i words)) w = Some wa.
Proof.
  induction words as [|w0 rest IH]; intros text0 anns0 idx0 text anns idx H.
  - simpl in H. injection H as <- <- <-. split.
    + simpl. rewrite str_app_nil_r. reflexivity.
    + exists []. rewrite app_nil_r. split; [reflexivity|].
      split; [reflexivity|]. intros i w Hi. destruct i; discriminate.
  - simpl in H.
    destruct (word_annotation id_prefix (PyStr.strip (DisplayWord.text w0))
                text0 w0) as [wa0|] eqn:Hwa0; [|discriminate].
    simpl in H. apply IH in H as (Htext & new & Hanns & Hlen & Hith).
    split.
    + rewrite Htext. simpl. apply str_app_assoc.
    + exists (wa0 :: new). split.
      * rewrite Hanns, <- app_assoc. reflexivity.
      * split; [simpl; rewrite Hlen; reflexivity|].
        intros i w Hi. destruct i as [|i]; simpl in Hi.
        -- injection Hi as <-. exists wa0. split; [reflexivity|].
           simpl. rewrite str_app_nil_r. exact Hwa0.
        -- destruct (Hith i w Hi) as (wa & Hl & Hwa).
           exists wa. split; [exact Hl|].
           simpl. rewrite <- str_app_assoc. exact Hwa.
Qed.

(** The loop runs to its end when no display word is empty of words. *)
Lemma word_loop_total (id_prefix : string) :
  forall words, forallb has_px_word words = true ->
    forall (text0 : string) (anns0 : list Annotation.t)
           (idx0 : gmap string (Z * Z)),
      exists r, word_loop id_prefix words text0 anns0 idx0 = Some r.
Proof.
  induction words as [|w0 rest IH]; intros Hall text0 anns0 idx0.
  - eexists. reflexivity.
  - simpl in Hall. apply andb_true_iff in Hall as [Hw Hrest].
    simpl. unfold word_annotation, has_px_word in *.
    destruct (DisplayWord.px_words w0) as [|pxw0 more]; [discriminate|].
    simpl. apply IH. exact Hrest.
Qed.

(** The slice [text[offset : offset + k]] of the page text, taken at the
    offset of the word at index [i], is the first [k] characters of that
    word's raw text. *)
Lemma words_text_slice words (i : nat) w (k : Z) :
  words !! i = Some w ->
  0 <= k <= PyStr.len (DisplayWord.text w) ->
  PyStr.slice (words_text words)
    (PyStr.len (words_text (take i words)))
    (PyStr.len (words_text (take i words)) + k)
  = substring 0 (Z.to_nat k) (DisplayWord.text w).
Proof.
  intros Hi Hk. rewrite (words_text_split words i w Hi).
  apply slice_inside. exact Hk.
Qed.

End WordAnnotations.

(** C5, as stated: for every word annotation, [metadata.text] is the
    stripped form of [text[offset : offset + length]].  A display word that
    starts with whitespace breaks it: the slice starts at the whitespace
    and is as long as the stripped word, so it loses the word's end. *)
Lemma word_annotation_roundtrip_counterexample :
  ~ (forall (id_prefix : string) (words : list DisplayWord.t)
            (text : string) (anns : list Annotation.t)
            (idx : gmap string (Z * Z)) (i : nat) (wa : Annotation.t)
            (s : string),
        process_words id_prefix words = Some (text, anns, idx) ->
        anns !! i = Some wa ->
        Annotation.metadata wa !! "text" = Some (MStr s) ->
        s = PyStr.strip
              (PyStr.slice text (Annotation.offset wa)
                 (Annotation.offset wa + Annotation.length wa))).
Proof.
  intros H.
  destruct (process_words "urn:globalise:p1" Samples.indented_words)
    as [[[text anns] idx]|] eqn:Hrun; [|vm_compute in Hrun; discriminate Hrun].
  pose proof Hrun as Hloop. unfold process_words in Hloop.
  apply word_loop_annotations in Hloop as (Htext & new & Hanns & _ & Hith).
  destruct (Hith 0%nat _ eq_refl) as (wa & Hl & Hwa).
  apply word_annotation_fields in Hwa as (_ & Hoff & Hlen & Hmeta).
  simpl in Hanns. subst anns.
  specialize (H _ _ _ _ _ 0%nat wa _ Hrun Hl Hmeta).
  rewrite Hoff, Hlen, Htext in H. vm_compute in H. discriminate H.
Qed.

(** C5, amended: when every display word holds at least one layout word
    the loop returns the page text and one word annotation per display
    word; the annotation of the word at index [i] has as offset the length
    the running text had when the word's raw text was appended, as length
    the length of the stripped word text, and as [metadata.text] the
    stripped word text, which is the stripped form of the slice
    [text[offset : offset + len(raw word text)]].  For a word whose raw
    text has no leading whitespace, [metadata.text] is also the slice
    [text[offset : offset + length]] itself, and so its stripped form. *)
Theorem word_annotation_text_roundtrip :
  forall (id_prefix : string) (words : list DisplayWord.t),
    forallb has_px_word words = true ->
    exists text anns idx,
      process_words id_prefix words = Some (text, anns, idx)
      /\ text = words_text words
      /\ length anns = length words
      /\ forall (i : nat) (w : DisplayWord.t), words !! i = Some w ->
           exists wa,
             anns !! i = Some wa
             /\ Annotation.offset wa = PyStr.len (words_text (take i words))
             /\ Annotation.length wa
                = PyStr.len (PyStr.strip (DisplayWord.text w))
             /\ Annotation.metadata wa !! "text"
                = Some (MStr (PyStr.strip (DisplayWord.text w)))
             /\ PyStr.strip
                  (PyStr.slice text (Annotation.offset wa)
                     (Annotation.offset wa + PyStr.len (DisplayWord.text w)))
                = PyStr.strip (DisplayWord.text w)
             /\ (PyStr.lstrip (DisplayWord.text w) = DisplayWord.text w ->
                 PyStr.slice text (Annotation.offset wa)
                   (Annotation.offset wa + Annotation.length wa)
                 = PyStr.strip (DisplayWord.text w)
                 /\ PyStr.strip
                      (PyStr.slice text (Annotation.offset wa)
                         (Annotation.offset wa + Annotation.length wa))
                    = PyStr.strip (DisplayWord.text w)).
Proof.
  intros id_prefix words Hall.
  destruct (word_loop_total id_prefix words Hall "" [] ∅)
    as ([[text anns] idx] & Hrun).
  exists text, anns, idx. split; [exact Hrun|].
  apply word_loop_annotations in Hrun as (Htext & new & Hanns & Hlen & Hith).
  rewrite str_app_nil_l in Htext. simpl in Hanns. subst anns text.
  split; [reflexivity|]. split; [exact Hlen|].
  intros i w Hi. destruct (Hith i w Hi) as (wa & Hl & Hwa).
  rewrite str_app_nil_l in Hwa.
  apply word_annotation_fields in Hwa as (_ & Hoff & Hlength & Hmeta).
  exists wa. split; [exact Hl|]. split; [exact Hoff|].
  split; [exact Hlength|]. split; [exact Hmeta|].
  rewrite Hoff, Hlength. split.
  - rewrite (words_text_slice words i w _ Hi) by (unfold PyStr.len; lia).
    unfold PyStr.len. rewrite Nat2Z.id, substring_all. reflexivity.
  - intros Hlead.
    assert (Hslice :
      PyStr.slice (words_text words)
        (PyStr.len (words_text (take i words)))
        (PyStr.len (words_text (take i words))
         + PyStr.len (PyStr.strip (DisplayWord.text w)))
      = PyStr.strip (DisplayWord.text w)).
    { rewrite (words_text_slice words i w _ Hi).
      - rewrite (strip_no_leading _ Hlead). unfold PyStr.len.
        rewrite Nat2Z.id. apply rstrip_prefix.
      - pose proof (strip_length (DisplayWord.text w)).
        unfold PyStr.len. lia. }
    split; [exact Hslice|]. rewrite Hslice.
    rewrite (strip_no_leading _ Hlead). unfold PyStr.strip.
    rewrite rstrip_idempotent.
    change (PyStr.lstrip (PyStr.rstrip (DisplayWord.text w)))
      with (PyStr.strip (DisplayWord.text w)).
    apply strip_no_leading. exact Hlead.
Qed.

Lemma word_annotation_text_roundtrip_witness :
  forallb has_px_word Samples.plain_words = true
  /\ exists text anns idx,
       process_words "urn:globalise:p1" Samples.plain_words
       = Some (text, anns, idx)
       /\ text = "Go home." +:+ PyStr.nl
       /\ length anns = 2%nat.
Proof.
  split; [reflexivity|].
  destruct (word_annotation_text_roundtrip "urn:globalise:p1"
              Samples.plain_words eq_refl)
    as (text & anns & idx & Hrun & Htext & Hlen & _).
  exists text, anns, idx. split; [exact Hrun|].
  split; [exact Htext | exact Hlen].
Defined.

(** ** Web annotations from XMI *)

Section XmiTargets.

Implicit Types (self : XMIProcessor.t) (fs : FeatureStructure) (body : json).

Lemma overlap_empty (b e : Z) : IntervalTree.overlap IntervalTree.empty b e = [].
Proof. unfold IntervalTree.overlap. destruct (e <=? b); reflexivity. Qed.

(** The loop over the intervals only appends to [targets]. *)
Lemma interval_targets_app (intervals : list Interval.t) :
  forall targets : list json,
    XMIProcessor.interval_targets intervals targets
    = (fun provenance => targets ++ provenance)
        <$> XMIProcessor.interval_targets intervals [].
Proof.
  induction intervals as [|iv rest IH]; intros targets.
  - simpl. rewrite app_nil_r. reflexivity.
  - simpl.
    destruct (XMIProcessor._to_xywh (coords (Interval.data iv))) as [xywh|];
      [|reflexivity]. simpl.
    rewrite (IH (targets ++ _)), (IH [_; _; _]).
    destruct (XMIProcessor.interval_targets rest []) as [r|]; [|reflexivity].
    simpl. rewrite <- app_assoc. reflexivity.
Qed.

Lemma interval_targets_acc (intervals : list Interval.t)
    (targets result : list json) :
  XMIProcessor.interval_targets intervals targets = Some result ->
  exists provenance,
    XMIProcessor.interval_targets intervals [] = Some provenance
    /\ result = targets ++ provenance.
Proof.
  rewrite interval_targets_app.
  destruct (XMIProcessor.interval_targets intervals []) as [prov|];
    [|discriminate].
  simpl. intros H. injection H as <-. exists prov. split; reflexivity.
Qed.

(** What [web_annotation_for] returns, read back from its result. *)
Lemma web_annotation_for_result self (generated anno_id : string) fs body
    (wa : json) (log : list LogRecord) :
  XMIProcessor.web_annotation_for self generated anno_id fs body
  = Some (wa, log) ->
  exists (b e : Z) (quote : json) (provenance : list json),
    Feature.begin fs = Some b
    /\ Feature.end_ fs = Some e
    /\ jget "exact" quote = Some (JStr (PyStr.slice (XMIProcessor.text self) b e))
    /\ XMIProcessor.interval_targets
         (IntervalTree.sorted
            (IntervalTree.overlap (XMIProcessor.itree self) b e)) []
       = Some provenance
    /\ log = (if (1 <? length
                     (IntervalTree.overlap (XMIProcessor.itree self) b e))%nat
              then [LogWarning ">1 overlapping intervals!"] else [])
    /\ wa = JObj [("@context", JStr "http://www.w3.org/ns/anno.jsonld");
                  ("id", JStr anno_id);
                  ("type", JStr "Annotation");
                  ("generated", JStr generated);
                  ("body", body);
                  ("target",
                   JList
                     (JObj [("source", JStr (XMIProcessor.source self));
                            ("selector",
                             JList [ quote;
                                     JObj [("type", JStr "TextPositionSelector");
                                           ("start", JInt b);
                                           ("end", JInt e)] ])]
                      :: provenance))].
Proof.
  unfold XMIProcessor.web_annotation_for, XMIProcessor.get_covered_text,
    XMIProcessor._get_prefix, XMIProcessor._get_suffix.
  intros H.
  destruct (Feature.begin fs) as [b|]; [|discriminate].
  destruct (Feature.end_ fs) as [e|]; [|discriminate].
  simpl in H.
  match type of H with
  | context [XMIProcessor.interval_targets ?ivs ?acc] =>
      destruct (XMIProcessor.interval_targets ivs acc) as [targets|] eqn:Hloop;
        [|discriminate]
  end.
  simpl in H. injection H as <- <-.
  apply interval_targets_acc in Hloop as (prov & Hprov & ->).
  eexists b, e, _, prov.
  split; [reflexivity|]. split; [reflexivity|].
  split; [|split; [exact Hprov|split; reflexivity]].
  reflexivity.
Qed.

End XmiTargets.

Lemma no_checksum_match (md5 : string)
    (document_data : list (string * DocumentData)) :
  (forall key d, In (key, d) document_data -> plain_text_md5 d <> md5) ->
  List.filter (fun d => String.eqb (plain_text_md5 d) md5)
    (map snd document_data) = [].
Proof.
  induction document_data as [|[key d] rest IH]; intros Hno; [reflexivity|].
  simpl. destruct (String.eqb_spec (plain_text_md5 d) md5) as [Heq|_].
  - exfalso. apply (Hno key d); [left; reflexivity | exact Heq].
  - apply IH. intros key' d' Hin. apply (Hno key' d'). right. exact Hin.
Qed.

(** C7: when no document-data record carries the MD5 of the document's
    text, the processor is built with the source ["urn:placeholder"] and an
    empty interval index, and says so in an error record; every Web
    Annotation it then produces has exactly one target, the text target on
    the placeholder source, and so no Image or Canvas target; and it does
    produce one for every structure with a non-zero [begin] and an [end]. *)
Theorem placeholder_fallback_text_targets_only :
  forall (md5_hexdigest : string -> string)
         (document_data : list (string * DocumentData))
         (xmi_path sofa_string : string),
    (forall key d, In (key, d) document_data ->
       plain_text_md5 d <> md5_hexdigest sofa_string) ->
    exists self log,
      XMIProcessor.init md5_hexdigest document_data xmi_path sofa_string
      = Some (self, log)
      /\ XMIProcessor.source self = "urn:placeholder"
      /\ XMIProcessor.itree self = IntervalTree.empty
      /\ (exists message, In (LogError message) log)
      /\ (forall (generated : string) (fs : FeatureStructure) (body wa : json)
                 (log' : list LogRecord),
            XMIProcessor._as_web_annotation self generated fs body
            = Some (wa, log') ->
            exists text_target,
              WebAnnotation.targets wa = Some [text_target]
              /\ jget "source" text_target = Some (JStr "urn:placeholder")
              /\ WebAnnotation.is_image_or_canvas text_target = false)
      /\ (forall (generated : string) (fs : FeatureStructure) (body : json)
                 (b e : Z),
            Feature.begin fs = Some b -> b <> 0 -> Feature.end_ fs = Some e ->
            exists wa,
              XMIProcessor._as_web_annotation self generated fs body
              = Some (wa, [])).
Proof.
  intros md5_hexdigest document_data xmi_path sofa_string Hno.
  unfold XMIProcessor.init.
  rewrite (no_checksum_match _ _ Hno).
  eexists _, _. split; [reflexivity|].
  split; [reflexivity|]. split; [reflexivity|]. split.
  - eexists. apply in_or_app. right. left. reflexivity.
  - split.
    + intros generated fs body wa log' H.
      unfold XMIProcessor._as_web_annotation in H.
      destruct (if XMIProcessor.falsy (Feature.begin fs)
                then Feature.target fs else Some fs) as [fs'|];
        [|discriminate].
      simpl in H.
      apply web_annotation_for_result in H
        as (b & e & quote & prov & _ & _ & _ & Hprov & _ & ->).
      simpl in Hprov. rewrite overlap_empty in Hprov. simpl in Hprov.
      injection Hprov as <-.
      eexists. split; [reflexivity|]. split; reflexivity.
    + intros generated fs body b e Hb Hnz He.
      unfold XMIProcessor._as_web_annotation. rewrite Hb. simpl.
      destruct (Z.eqb_spec b 0) as [|_]; [contradiction|]. simpl.
      unfold XMIProcessor.web_annotation_for, XMIProcessor.get_covered_text,
        XMIProcessor._get_prefix, XMIProcessor._get_suffix.
      rewrite Hb, He. simpl. rewrite overlap_empty. simpl.
      eexists. reflexivity.
Qed.

Lemma placeholder_fallback_text_targets_only_witness :
  (forall key d, In (key, d) Samples.document_data ->
     plain_text_md5 d <> Samples.digest "Other text")
  /\ exists self log,
       XMIProcessor.init Samples.digest Samples.document_data "a.xmi"
         "Other text" = Some (self, log)
       /\ XMIProcessor.source self = "urn:placeholder"
       /\ XMIProcessor.itree self = IntervalTree.empty.
Proof.
  assert (Hno : forall key d, In (key, d) Samples.document_data ->
                  plain_text_md5 d <> Samples.digest "Other text").
  { intros key d [Heq | []]. inversion Heq; subst. simpl. discriminate. }
  split; [exact Hno|].
  destruct (placeholder_fallback_text_targets_only Samples.digest
              Samples.document_data "a.xmi" "Other text" Hno)
    as (self & log & Hinit & Hsource & Htree & _).
  exists self, log. split; [exact Hinit|]. split; [exact Hsource | exact Htree].
Defined.

(** C10: a feature structure whose [begin] is falsy, [None] or the
    offset 0, is replaced by its [target] before anything else is read
    from it.  Without a target the call fails; with a target [t] the
    result is the Web Annotation of [t] under the id of the original
    structure: the TextPositionSelector carries [t]'s [begin] and [end],
    the TextQuoteSelector quotes the text between them, and the image and
    canvas targets are those of the intervals that overlap [t]'s range. *)
Theorem falsy_begin_annotates_target :
  forall (self : XMIProcessor.t) (generated : string)
         (fs : FeatureStructure) (body : json),
    XMIProcessor.falsy (Feature.begin fs) = true ->
    (Feature.begin fs = None \/ Feature.begin fs = Some 0)
    /\ (Feature.target fs = None ->
        XMIProcessor._as_web_annotation self generated fs body = None)
    /\ (forall t, Feature.target fs = Some t ->
          XMIProcessor._as_web_annotation self generated fs body
          = XMIProcessor.web_annotation_for self generated
              ("urn:globalise:annotation:"
               +:+ PyStr.str_of_int (Feature.xmiID fs)) t body)
    /\ (forall wa log,
          XMIProcessor._as_web_annotation self generated fs body
          = Some (wa, log) ->
          exists (t : FeatureStructure) (tb te : Z)
                 (text_target : json) (provenance : list json),
            Feature.target fs = Some t
            /\ Feature.begin t = Some tb
            /\ Feature.end_ t = Some te
            /\ WebAnnotation.text_position wa = Some (JInt tb, JInt te)
            /\ WebAnnotation.quote_exact wa
               = Some (JStr (PyStr.slice (XMIProcessor.text self) tb te))
            /\ XMIProcessor.interval_targets
                 (IntervalTree.sorted
                    (IntervalTree.overlap (XMIProcessor.itree self) tb te)) []
               = Some provenance
            /\ WebAnnotation.targets wa = Some (text_target :: provenance)).
Proof.
  intros self generated fs body Hfalsy.
  unfold XMIProcessor._as_web_annotation. rewrite Hfalsy.
  split; [|split; [|split]].
  - unfold XMIProcessor.falsy in Hfalsy.
    destruct (Feature.begin fs) as [z|]; [|left; reflexivity].
    right. apply Z.eqb_eq in Hfalsy. rewrite Hfalsy. reflexivity.
  - intros ->. reflexivity.
  - intros t ->. reflexivity.
  - intros wa log H.
    destruct (Feature.target fs) as [t|]; [|discriminate].
    simpl in H.
    apply web_annotation_for_result in H
      as (tb & te & quote & prov & Hb & He & Hquote & Hprov & _ & ->).
    exists t, tb, te. eexists _, prov.
    split; [reflexivity|]. split; [exact Hb|]. split; [exact He|].
    split; [reflexivity|]. split; [exact Hquote|].
    split; [exact Hprov | reflexivity].
Qed.

Lemma falsy_begin_annotates_target_witness :
  XMIProcessor.falsy (Feature.begin Samples.at_offset_zero) = true
  /\ exists wa log,
       XMIProcessor._as_web_annotation Samples.processor "2024-01-01T00:00:00"
         Samples.at_offset_zero (JList []) = Some (wa, log)
       /\ WebAnnotation.text_position wa = Some (JInt 3, JInt 7)
       /\ WebAnnotation.quote_exact wa = Some (JStr "home").
Proof.
  split; [reflexivity|].
  destruct (falsy_begin_annotates_target Samples.processor
              "2024-01-01T00:00:00" Samples.at_offset_zero (JList []) eq_refl)
    as (_ & _ & Htarget & _).
  eexists _, _. split.
  - rewrite (Htarget Samples.entity_home eq_refl). vm_compute. reflexivity.
  - split; reflexivity.
Defined.

(** ** Ordering *)

Section StringOrder.

Implicit Types (a b c p x y : string).

Lemma ascii_compare_refl (ch : ascii) : Ascii.compare ch ch = Eq.
Proof. unfold Ascii.compare. apply N.compare_refl. Qed.

Lemma str_lt_leb a b : PyStr.str_lt a b = negb (String.leb b a).
Proof.
  unfold PyStr.str_lt, String.ltb, String.leb.
  rewrite (String.compare_antisym b a).
  destruct (String.compare a b); reflexivity.
Qed.

Lemma str_leb_trans a b c :
  String.leb a b = true -> String.leb b c = true -> String.leb a c = true.
Proof.
  intros Hab Hbc. apply Is_true_true.
  apply Is_true_true in Hab, Hbc.
  exact (transitivity (R := String.le) Hab Hbc).
Qed.

Lemma str_lt_asym a b : PyStr.str_lt a b = true -> PyStr.str_lt b a = false.
Proof.
  rewrite !str_lt_leb. intros H. apply negb_true_iff in H.
  destruct (String.leb_total a b) as [Hab|Hba]; [|congruence].
  rewrite Hab. reflexivity.
Qed.

Lemma str_lt_trans a b c :
  PyStr.str_lt a b = true -> PyStr.str_lt b c = true ->
  PyStr.str_lt a c = true.
Proof.
  intros Hab Hbc. pose proof (str_lt_asym _ _ Hbc) as Hcb.
  rewrite str_lt_leb in Hab, Hcb |- *.
  apply negb_true_iff in Hab. apply negb_false_iff in Hcb.
  apply negb_true_iff. destruct (String.leb c a) eqn:Hca; [|reflexivity].
  rewrite (str_leb_trans b c a Hcb Hca) in Hab. discriminate Hab.
Qed.

(** [x <= y] and [y <= z] give [x <= z], with [<=] read as "not greater". *)
Lemma str_not_lt_trans a b c :
  PyStr.str_lt b a = false -> PyStr.str_lt c b = false ->
  PyStr.str_lt c a = false.
Proof.
  rewrite !str_lt_leb. intros Hab Hbc.
  apply negb_false_iff in Hab, Hbc. apply negb_false_iff.
  exact (str_leb_trans a b c Hab Hbc).
Qed.

Lemma compare_app_prefix p a b :
  String.compare (p +:+ a) (p +:+ b) = String.compare a b.
Proof.
  induction p as [|ch p IH]; [reflexivity|].
  rewrite !str_app_cons. simpl. rewrite ascii_compare_refl. exact IH.
Qed.

Lemma str_lt_app_prefix p a b :
  PyStr.str_lt (p +:+ a) (p +:+ b) = PyStr.str_lt a b.
Proof.
  unfold PyStr.str_lt, String.ltb. rewrite compare_app_prefix. reflexivity.
Qed.

(** Between strings of one length the first difference decides, whatever
    follows them. *)
Lemma compare_app_same_length :
  forall a b x y,
    String.length a = String.length b ->
    String.compare a b = Lt ->
    String.compare (a +:+ x) (b +:+ y) = Lt.
Proof.
  induction a as [|ch a IH]; intros [|ch' b] x y Hlen Hlt;
    try discriminate.
  rewrite !str_app_cons. simpl in *.
  destruct (Ascii.compare ch ch'); try (exact Hlt).
  apply IH; [lia | exact Hlt].
Qed.

Lemma str_lt_app_same_length a b x y :
  String.length a = String.length b ->
  PyStr.str_lt a b = true -> PyStr.str_lt (a +:+ x) (b +:+ y) = true.
Proof.
  unfold PyStr.str_lt, String.ltb. intros Hlen Hlt.
  destruct (String.compare a b) eqn:Hc; try discriminate.
  rewrite (compare_app_same_length a b x y Hlen Hc). reflexivity.
Qed.

End StringOrder.

Section SixDigits.

Lemma format_steps_step :
  forall (k : nat) (n : Z),
    format_steps k n = true ->
    forall i : nat, (i < k)%nat -> format_step (n + Z.of_nat i) = true.
Proof.
  induction k as [|k IH]; intros n Hall i Hi; [lia|].
  simpl in Hall. apply andb_true_iff in Hall as [Hn Hrest].
  destruct i as [|i].
  - replace (n + Z.of_nat 0) with n by lia. exact Hn.
  - replace (n + Z.of_nat (S i)) with (n + 1 + Z.of_nat i) by lia.
    apply IH; [exact Hrest | lia].
Qed.

(** Every number from 0 to 999998 prints in six characters and before its
    successor: checked by running the formatter. *)
Lemma format_steps_below_million :
  format_steps (Z.to_nat 999999) 0 = true.
Proof. vm_cast_no_check (eq_refl true). Qed.

Lemma format_step_below_million (n : Z) :
  0 <= n < 999999 -> format_step n = true.
Proof.
  intros Hn.
  pose proof (format_steps_step (Z.to_nat 999999) 0
                format_steps_below_million (Z.to_nat n)) as H.
  rewrite Z2Nat.id in H by lia. apply H. lia.
Qed.

Lemma format_06d_length (n : Z) :
  0 <= n < 1000000 -> String.length (PyStr.format_06d n) = 6%nat.
Proof.
  intros Hn. destruct (decide (n = 999999)) as [->|Hne]; [reflexivity|].
  pose proof (format_step_below_million n ltac:(lia)) as H.
  unfold format_step in H. apply andb_true_iff in H as [H _].
  apply Nat.eqb_eq in H. exact H.
Qed.

Lemma format_06d_lt_succ (n : Z) :
  0 <= n < 999999 ->
  PyStr.str_lt (PyStr.format_06d n) (PyStr.format_06d (n + 1)) = true.
Proof.
  intros Hn. pose proof (format_step_below_million n Hn) as H.
  unfold format_step in H. apply andb_true_iff in H as [_ H]. exact H.
Qed.

(** Below one million the six-character form orders as the numbers do. *)
Lemma format_06d_lt (a b : Z) :
  0 <= a -> a < b -> b < 1000000 ->
  PyStr.str_lt (PyStr.format_06d a) (PyStr.format_06d b) = true.
Proof.
  intros Ha Hab Hb.
  replace b with (a + 1 + Z.of_nat (Z.to_nat (b - a - 1))) in * by lia.
  induction (Z.to_nat (b - a - 1)) as [|d IH].
  - replace (a + 1 + Z.of_nat 0) with (a + 1) by lia.
    apply format_06d_lt_succ. lia.
  - apply (str_lt_trans _ (PyStr.format_06d (a + 1 + Z.of_nat d))).
    + apply IH; lia.
    + replace (a + 1 + Z.of_nat (S d)) with (a + 1 + Z.of_nat d + 1) by lia.
      apply format_06d_lt_succ. lia.
Qed.

(** Within the width of the key, the composite order is the order of the
    keys. *)
Lemma sort_key_composite (a1 a2 : Annotation.t) :
  within_key_width a1 -> within_key_width a2 -> composite_before a1 a2 ->
  PyStr.str_lt (sort_key a1) (sort_key a2) = true.
Proof.
  intros [Ho1 Hl1] [Ho2 Hl2] [Hpage Hord]. unfold sort_key.
  rewrite Hpage, !str_lt_app_prefix.
  destruct Hord as [Hlt | [Heq Hlen]].
  - apply str_lt_app_same_length.
    + rewrite !format_06d_length by lia. reflexivity.
    + apply format_06d_lt; lia.
  - rewrite Heq, !str_lt_app_prefix. apply format_06d_lt; lia.
Qed.

End SixDigits.

Section StableSort.

Context {A : Type} (key : A -> string).

Lemma insert_by_key_perm (x : A) (l : list A) :
  PyStr.insert_by_key key x l ≡ₚ x :: l.
Proof.
  induction l as [|y rest IH]; [reflexivity|].
  simpl. destruct (PyStr.str_lt (key y) (key x)); [|reflexivity].
  rewrite IH. apply Permutation_swap.
Qed.

Lemma sort_by_key_perm (l : list A) : PyStr.sort_by_key key l ≡ₚ l.
Proof.
  induction l as [|x rest IH]; [reflexivity|].
  simpl. rewrite insert_by_key_perm, IH. reflexivity.
Qed.

Lemma insert_by_key_sorted (x : A) (l : list A) :
  StronglySorted (key_le key) l ->
  StronglySorted (key_le key) (PyStr.insert_by_key key x l).
Proof.
  induction l as [|y rest IH]; intros Hs.
  - simpl. apply SSorted_cons; [apply SSorted_nil | apply Forall_nil; exact I].
  - apply StronglySorted_inv in Hs as [Hrest Hall]. simpl.
    destruct (PyStr.str_lt (key y) (key x)) eqn:Hyx.
    + apply SSorted_cons; [apply IH; exact Hrest|].
      rewrite insert_by_key_perm. apply Forall_cons. split; [|exact Hall].
      unfold key_le. apply str_lt_asym. exact Hyx.
    + apply SSorted_cons.
      * apply SSorted_cons; assumption.
      * apply Forall_cons. split; [exact Hyx|].
        eapply Forall_impl; [exact Hall|].
        intros z Hz. unfold key_le in *.
        apply (str_not_lt_trans _ (key y)); assumption.
Qed.

Lemma sort_by_key_sorted (l : list A) :
  StronglySorted (key_le key) (PyStr.sort_by_key key l).
Proof.
  induction l as [|x rest IH]; [apply SSorted_nil|].
  simpl. apply insert_by_key_sorted. exact IH.
Qed.

Lemma strongly_sorted_lookup (R : A -> A -> Prop) (l : list A) :
  StronglySorted R l ->
  forall (i j : nat) (x y : A),
    (i < j)%nat -> l !! i = Some x -> l !! j = Some y -> R x y.
Proof.
  induction 1 as [|z rest Hs IH Hall]; intros i j x y Hij Hi Hj.
  - destruct i; discriminate.
  - destruct j as [|j]; [lia|]. simpl in Hj. destruct i as [|i]; simpl in Hi.
    + injection Hi as <-. rewrite Forall_forall in Hall. apply Hall.
      apply list_elem_of_lookup. exists j. exact Hj.
    + apply (IH i j); [lia | exact Hi | exact Hj].
Qed.

End StableSort.

(** X15: where every offset has at most six digits and no length exceeds
    1000, the sort does order the annotations of a page by offset and, at
    one offset, by decreasing length. *)
Theorem sort_annotations_within_key_width :
  forall all_annotations : list Annotation.t,
    Forall within_key_width all_annotations ->
    sort_annotations all_annotations ≡ₚ all_annotations
    /\ forall (i j : nat) (x y : Annotation.t),
         (i < j)%nat ->
         sort_annotations all_annotations !! i = Some x ->
         sort_annotations all_annotations !! j = Some y ->
         Annotation.page_id x = Annotation.page_id y ->
         Annotation.offset x <= Annotation.offset y
         /\ (Annotation.offset x = Annotation.offset y ->
             Annotation.length y <= Annotation.length x).
Proof.
  intros all_annotations Hwidth. unfold sort_annotations.
  split; [apply sort_by_key_perm|].
  intros i j x y Hij Hi Hj Hpage.
  pose proof (strongly_sorted_lookup (key_le sort_key) _
                (sort_by_key_sorted sort_key all_annotations)
                i j x y Hij Hi Hj) as Hle.
  assert (Hin : forall k a,
             PyStr.sort_by_key sort_key all_annotations !! k = Some a ->
             within_key_width a).
  { intros k a Hk. rewrite Forall_forall in Hwidth. apply Hwidth.
    rewrite <- (sort_by_key_perm sort_key all_annotations).
    apply list_elem_of_lookup. exists k. exact Hk. }
  pose proof (Hin i x Hi) as Hx. pose proof (Hin j y Hj) as Hy.
  assert (Hnot : ~ composite_before y x).
  { intros Hbefore. unfold key_le in Hle.
    rewrite (sort_key_composite y x Hy Hx Hbefore) in Hle. discriminate Hle. }
  unfold composite_before in Hnot. split.
  - destruct (Z_le_gt_dec (Annotation.offset x) (Annotation.offset y));
      [assumption|]. exfalso. apply Hnot. split; [congruence|]. left. lia.
  - intros Heq.
    destruct (Z_le_gt_dec (Annotation.length y) (Annotation.length x));
      [assumption|]. exfalso. apply Hnot. split; [congruence|]. right.
    split; [congruence | lia].
Qed.

(** C2, on the code: the key is a string, and the negative number that
    [1000 - length] becomes past 1000 characters is padded behind its sign,
    so among spans of one page and one offset that are longer than 1000
    the shorter sorts first; an offset of seven digits sorts before any
    offset of six. *)
Theorem sort_annotations_long_spans :
  sort_annotations [Samples.long_page; Samples.long_paragraph]
  = [Samples.long_paragraph; Samples.long_page]
  /\ sort_annotations [Samples.span_999999; Samples.span_1000000]
     = [Samples.span_1000000; Samples.span_999999].
Proof. split; vm_compute; reflexivity. Qed.

(** * Further properties of the scripts *)

Import PipelineSpec.

(** ** Anchors of a range *)

Section Anchors.

Implicit Types (tokens : list GTToken.t) (t : GTToken.t).

(** There is one last qualifying token. *)
Lemma last_real_upto_unique (P : Z -> Prop) tokens (n idx1 idx2 : nat) :
  last_real_upto P tokens n idx1 -> last_real_upto P tokens n idx2 ->
  idx1 = idx2.
Proof.
  intros [(Hle1 & (t1 & Hl1 & Hr1 & HP1) & Hno1) | (-> & Hno1)]
         [(Hle2 & (t2 & Hl2 & Hr2 & HP2) & Hno2) | (-> & Hno2)].
  - destruct (lt_eq_lt_dec idx1 idx2) as [[Hlt | Heq] | Hgt]; [|exact Heq|].
    + exfalso. apply (Hno1 idx2 t2); [lia | assumption..].
    + exfalso. apply (Hno2 idx1 t1); [lia | assumption..].
  - exfalso. apply (Hno2 idx1 t1); [lia | assumption..].
  - exfalso. apply (Hno1 idx2 t2); [lia | assumption..].
  - reflexivity.
Qed.

Lemma last_real_upto_bound (P : Z -> Prop) tokens (n idx : nat) :
  last_real_upto P tokens n idx -> tokens <> [] -> (idx < length tokens)%nat.
Proof.
  intros [(_ & (t & Hl & _) & _) | (-> & _)] Hne.
  - apply lookup_lt_Some in Hl. exact Hl.
  - destruct tokens; [contradiction | simpl; lia].
Qed.

(** A range that is not empty gets its anchors in order. *)
Lemma segment_range_ordered tokens (b e : Z) :
  b < e ->
  (fst (segment_range tokens b e) <= snd (segment_range tokens b e))%nat.
Proof.
  intros Hbe.
  destruct (segment_range_scan tokens b e) as (n & _ & Hb & He).
  destruct Hb as [(Hle & (t & Hl & Hr & HP) & _) | (-> & _)]; [|lia].
  set (ib := fst (segment_range tokens b e)) in *.
  set (ie := snd (segment_range tokens b e)) in *.
  destruct He as [(_ & _ & Hno) | (_ & Hno)].
  - destruct (decide (ib <= ie)%nat) as [|Hgt]; [assumption | exfalso].
    apply (Hno ib t); [lia | assumption | assumption | simpl; lia].
  - exfalso. apply (Hno ib t); [lia | assumption | assumption | simpl; lia].
Qed.

Lemma segment_range_in_bounds tokens (b e : Z) :
  tokens <> [] ->
  (fst (segment_range tokens b e) < length tokens)%nat
  /\ (snd (segment_range tokens b e) < length tokens)%nat.
Proof.
  intros Hne.
  destruct (segment_range_scan tokens b e) as (n & _ & Hb & He).
  split; eapply last_real_upto_bound; eauto.
Qed.

End Anchors.

(** X1: [add_anchor_range] keeps the annotations in place and touches only
    their anchors: every other field is that of the annotation it was
    given.  The anchors are those [segment_range] resolves for the range
    of the annotation; they are indices into a non-empty token list, and
    those of an annotation of positive length are in order. *)
Theorem add_anchor_range_anchors :
  forall (all_annotations : list Annotation.t) (tokens : list GTToken.t),
    length (add_anchor_range all_annotations tokens) = length all_annotations
    /\ forall (i : nat) (a : Annotation.t),
         add_anchor_range all_annotations tokens !! i = Some a ->
         exists a0,
           all_annotations !! i = Some a0
           /\ Annotation.type a = Annotation.type a0
           /\ Annotation.id a = Annotation.id a0
           /\ Annotation.page_id a = Annotation.page_id a0
           /\ Annotation.offset a = Annotation.offset a0
           /\ Annotation.length a = Annotation.length a0
           /\ Annotation.segmented_version_id a
              = Annotation.segmented_version_id a0
           /\ Annotation.txt_version_id a = Annotation.txt_version_id a0
           /\ Annotation.char_start a = Annotation.char_start a0
           /\ Annotation.char_end a = Annotation.char_end a0
           /\ Annotation.metadata a = Annotation.metadata a0
           /\ (Annotation.begin_anchor a, Annotation.end_anchor a)
              = (Z.of_nat
                   (fst (segment_range tokens (Annotation.offset a0)
                           (Annotation.offset a0 + Annotation.length a0))),
                 Z.of_nat
                   (snd (segment_range tokens (Annotation.offset a0)
                           (Annotation.offset a0 + Annotation.length a0))))
           /\ 0 <= Annotation.begin_anchor a
           /\ 0 <= Annotation.end_anchor a
           /\ (tokens <> [] ->
               Annotation.begin_anchor a < Z.of_nat (length tokens)
               /\ Annotation.end_anchor a < Z.of_nat (length tokens))
           /\ (0 < Annotation.length a ->
               Annotation.begin_anchor a <= Annotation.end_anchor a).
Proof.
  intros all_annotations tokens.
  split; [unfold add_anchor_range; apply length_map|].
  intros i a Hi.
  unfold add_anchor_range in Hi. rewrite list_lookup_fmap in Hi.
  destruct (all_annotations !! i) as [a0|]; [|discriminate].
  simpl in Hi. injection Hi as <-. exists a0. split; [reflexivity|].
  unfold with_anchor_range.
  destruct (segment_range tokens (Annotation.offset a0)
              (Annotation.offset a0 + Annotation.length a0))
    as [begin_idx end_idx] eqn:Hsr.
  simpl. repeat (split; [reflexivity|]).
  split; [lia|]. split; [lia|]. split.
  - intros Hne.
    pose proof (segment_range_in_bounds tokens (Annotation.offset a0)
                  (Annotation.offset a0 + Annotation.length a0) Hne) as [H1 H2].
    rewrite Hsr in H1, H2. simpl in H1, H2. lia.
  - intros Hlen.
    pose proof (segment_range_ordered tokens (Annotation.offset a0)
                  (Annotation.offset a0 + Annotation.length a0) ltac:(lia)) as H.
    rewrite Hsr in H. simpl in H. lia.
Qed.

Lemma add_anchor_range_anchors_witness :
  exists a,
    add_anchor_range [Samples.versioned_token] Samples.go_home !! 0%nat
    = Some a
    /\ Annotation.type a = "tt:Token"
    /\ Annotation.txt_version_id a = "txt-v1"
    /\ Annotation.begin_anchor a <= Annotation.end_anchor a
    /\ Annotation.end_anchor a < 4.
Proof.
  destruct (add_anchor_range [Samples.versioned_token] Samples.go_home
              !! 0%nat) as [a|] eqn:Hrun;
    [|vm_compute in Hrun; discriminate Hrun].
  exists a. split; [reflexivity|].
  destruct (add_anchor_range_anchors [Samples.versioned_token]
              Samples.go_home) as [_ Hfields].
  destruct (Hfields 0%nat a Hrun)
    as (a0 & Hl & Htype & _ & _ & _ & Hlen & _ & Htxt & _ & _ & _ & _ & _ & _
        & Hbound & Hord).
  simpl in Hl. injection Hl as <-.
  split; [rewrite Htype; reflexivity|].
  split; [rewrite Htxt; reflexivity|].
  split.
  - apply Hord. rewrite Hlen. reflexivity.
  - apply Hbound. discriminate.
Defined.

(** An annotation of length 0 that sits at the start of a token gets its
    begin anchor after its end anchor. *)
Example segment_range_empty_range :
  segment_range Samples.go_home 3 3 = (1%nat, 0%nat).
Proof. reflexivity. Qed.

(** X2: on tokens in strictly increasing offset order, the range from the
    offset of a real token up to an end that no later real token lies
    before resolves to the index of that token, twice: a token anchors to
    itself. *)
Theorem segment_range_token_anchors_itself :
  forall (tokens : list GTToken.t) (i : nat) (t : GTToken.t) (e : Z),
    ascending tokens = true ->
    tokens !! i = Some t ->
    is_real t ->
    GTToken.offset t < e ->
    (forall (j : nat) (t' : GTToken.t),
        (i < j)%nat -> tokens !! j = Some t' -> is_real t' ->
        e <= GTToken.offset t') ->
    segment_range tokens (GTToken.offset t) e = (i, i).
Proof.
  intros tokens i t e Hasc Hi Hr He Hnext.
  destruct (segment_range_whole_list tokens (GTToken.offset t) e Hasc
              ltac:(lia)) as [Hb Hend].
  assert (Hlast : forall P : Z -> Prop,
             P (GTToken.offset t) ->
             (forall o, P o -> o < e) ->
             (forall o, o <= GTToken.offset t -> P o) ->
             last_real_upto P tokens (length tokens) i).
  { intros P HPt HPe _. left. split.
    - apply lookup_lt_Some in Hi. lia.
    - split; [exists t; auto|].
      intros j t' Hj Hl Hr' HP'. specialize (Hnext j t' ltac:(lia) Hl Hr').
      specialize (HPe _ HP'). lia. }
  destruct (segment_range tokens (GTToken.offset t) e) as [ib ie].
  simpl in Hb, Hend. f_equal.
  - apply (last_real_upto_unique _ _ _ _ _ Hb).
    apply Hlast; intros; lia.
  - apply (last_real_upto_unique _ _ _ _ _ Hend).
    apply Hlast; intros; lia.
Qed.

Lemma segment_range_token_anchors_itself_witness :
  segment_range Samples.go_home 3 7 = (1%nat, 1%nat).
Proof.
  apply (segment_range_token_anchors_itself Samples.go_home 1%nat
           (GTToken.mk "home" "home" 3) 7).
  - reflexivity.
  - reflexivity.
  - unfold is_real. simpl. lia.
  - simpl. lia.
  - intros j t' Hj Hl Hr.
    destruct j as [|[|[|[|j]]]]; simpl in Hl; try lia.
    + injection Hl as <-. simpl. lia.
    + injection Hl as <-. unfold is_real in Hr. simpl in Hr. lia.
    + destruct j; discriminate Hl.
Defined.

(** ** Token annotations *)

Section TokenAnnotations.

Lemma make_token_annotations_loop_spec (base_name : string)
    (scan_ranges : list (string * (Z * Z))) :
  forall (tokens : list GTToken.t) (i : Z) (annotations : list Annotation.t)
         (log : list Diagnostic) (par_offset par_num : Z) (par_text : string),
    (make_token_annotations_loop base_name scan_ranges tokens i annotations
       log par_offset 0 par_num par_text = None
     <-> Exists (fun t => 0 <= GTToken.offset t) tokens)
    /\ (forall annotations' log',
          make_token_annotations_loop base_name scan_ranges tokens i
            annotations log par_offset 0 par_num par_text
          = Some (annotations', log') ->
          exists new,
            annotations' = annotations ++ new
            /\ length new = length tokens
            /\ Forall (fun a => Annotation.type a = "tt:Paragraph"
                                /\ Annotation.offset a = par_offset
                                /\ Annotation.length a = 0) new).
Proof.
  induction tokens as [|t rest IH];
    intros i annotations log par_offset par_num par_text.
  - simpl. split.
    + split; [discriminate|]. intros H. inversion H.
    + intros annotations' log' H. injection H as <- <-.
      exists []. rewrite app_nil_r. split; [reflexivity|].
      split; [reflexivity | apply Forall_nil; exact I].
  - simpl. destruct (Z.ltb_spec (GTToken.offset t) 0) as [Hneg | Hreal].
    + destruct (get_page_id par_offset 0 scan_ranges) as [page_id diags].
      rewrite Z.add_0_r.
      specialize (IH (i + 1)
        (annotations
         ++ [paragraph_annotation base_name page_id par_num par_offset 0
               (PyStr.strip (par_text +:+ GTToken.text t +:+ " "))])
        (log ++ diags) par_offset (par_num + 1) "").
      destruct IH as [IHnone IHsome]. split.
      * rewrite IHnone. split.
        -- intros H. apply Exists_cons. right. exact H.
        -- intros H. apply Exists_cons in H as [H | H]; [lia | exact H].
      * intros annotations' log' H.
        destruct (IHsome _ _ H) as (new & -> & Hlen & Hall).
        eexists (_ :: new). split; [rewrite <- app_assoc; reflexivity|].
        split; [simpl; rewrite Hlen; reflexivity|].
        apply Forall_cons. split; [|exact Hall].
        split; [reflexivity|]. split; reflexivity.
    + destruct (get_page_id (GTToken.offset t)
                  (PyStr.len (GTToken.text t)) scan_ranges) as [page_id diags].
      split.
      * split; [|reflexivity]. intros _. apply Exists_cons. left. exact Hreal.
      * intros annotations' log' H. discriminate H.
Qed.

End TokenAnnotations.

(** X3: [make_token_annotations] calls [token_annotation] without its
    [sentence_num] parameter, so it raises on the first real token: it
    returns exactly when every token is a paragraph boundary, and then with
    one paragraph annotation of offset 0 and length 0 per token. *)
Theorem make_token_annotations_fails_on_real_token :
  forall (base_name : string) (tokens : list GTToken.t)
         (scan_ranges : list (string * (Z * Z))),
    (make_token_annotations base_name tokens scan_ranges = None
     <-> Exists (fun t => 0 <= GTToken.offset t) tokens)
    /\ (forall annotations log,
          make_token_annotations base_name tokens scan_ranges
          = Some (annotations, log) ->
          length annotations = length tokens
          /\ Forall (fun a => Annotation.type a = "tt:Paragraph"
                              /\ Annotation.offset a = 0
                              /\ Annotation.length a = 0) annotations).
Proof.
  intros base_name tokens scan_ranges. unfold make_token_annotations.
  destruct (make_token_annotations_loop_spec base_name scan_ranges tokens
              0 [] [] 0 1 "") as [Hnone Hsome].
  split; [exact Hnone|].
  intros annotations log H.
  destruct (Hsome _ _ H) as (new & -> & Hlen & Hall).
  simpl. split; assumption.
Qed.

Lemma make_token_annotations_fails_on_real_token_witness :
  make_token_annotations "NL_1_12" Samples.go_home Samples.two_pages = None.
Proof.
  apply (make_token_annotations_fails_on_real_token "NL_1_12" Samples.go_home
           Samples.two_pages).
  apply Exists_cons. left. simpl. lia.
Defined.

(** ** Polygons *)

Section Polygons.

Lemma fold_left_max_spec (rest : list Z) :
  forall z : Z,
    z <= fold_left Z.max rest z
    /\ (forall y, In y rest -> y <= fold_left Z.max rest z)
    /\ (fold_left Z.max rest z = z \/ In (fold_left Z.max rest z) rest).
Proof.
  induction rest as [|x rest IH]; intros z; simpl.
  - split; [lia|]. split; [intros y []|left; reflexivity].
  - destruct (IH (Z.max z x)) as (Hge & Hall & Hin). split; [lia|]. split.
    + intros y [<- | Hy]; [lia | apply Hall; exact Hy].
    + destruct Hin as [Heq | Hin]; [|right; right; exact Hin].
      rewrite Heq. destruct (Z.max_spec z x) as [[_ ->] | [_ ->]];
        [right; left; reflexivity | left; reflexivity].
Qed.

Lemma fold_left_min_spec (rest : list Z) :
  forall z : Z,
    fold_left Z.min rest z <= z
    /\ (forall y, In y rest -> fold_left Z.min rest z <= y)
    /\ (fold_left Z.min rest z = z \/ In (fold_left Z.min rest z) rest).
Proof.
  induction rest as [|x rest IH]; intros z; simpl.
  - split; [lia|]. split; [intros y []|left; reflexivity].
  - destruct (IH (Z.min z x)) as (Hle & Hall & Hin). split; [lia|]. split.
    + intros y [<- | Hy]; [lia | apply Hall; exact Hy].
    + destruct Hin as [Heq | Hin]; [|right; right; exact Hin].
      rewrite Heq. destruct (Z.min_spec z x) as [[_ ->] | [_ ->]];
        [left; reflexivity | right; left; reflexivity].
Qed.

(** [max] of a list is its greatest element. *)
Lemma list_max_spec (l : list Z) (m : Z) :
  PyStr.list_max l = Some m -> In m l /\ forall y, In y l -> y <= m.
Proof.
  destruct l as [|z rest]; [discriminate|]. simpl. intros H.
  injection H as <-. destruct (fold_left_max_spec rest z) as (Hge & Hall & Hin).
  split.
  - destruct Hin as [-> | Hin]; [left; reflexivity | right; exact Hin].
  - intros y [<- | Hy]; [exact Hge | apply Hall; exact Hy].
Qed.

Lemma list_min_spec (l : list Z) (m : Z) :
  PyStr.list_min l = Some m -> In m l /\ forall y, In y l -> m <= y.
Proof.
  destruct l as [|z rest]; [discriminate|]. simpl. intros H.
  injection H as <-. destruct (fold_left_min_spec rest z) as (Hle & Hall & Hin).
  split.
  - destruct Hin as [-> | Hin]; [left; reflexivity | right; exact Hin].
  - intros y [<- | Hy]; [exact Hle | apply Hall; exact Hy].
Qed.

Lemma list_max_none (l : list Z) : PyStr.list_max l = None <-> l = [].
Proof. destruct l; simpl; split; intros H; congruence. Qed.

Lemma list_min_none (l : list Z) : PyStr.list_min l = None <-> l = [].
Proof. destruct l; simpl; split; intros H; congruence. Qed.

End Polygons.

(** X4: for every polygon, [_to_xywh] fails exactly on the empty one and
    otherwise prints [x,y,w,h] of the smallest box that holds every point:
    [x] and [y] are the least coordinates, [w] and [h] are not negative,
    and both ends of each side are reached by a point. *)
Theorem to_xywh_bounding_box :
  forall polygon : list (Z * Z),
    (XMIProcessor._to_xywh polygon = None <-> polygon = [])
    /\ (forall xywh, XMIProcessor._to_xywh polygon = Some xywh ->
          exists x y w h : Z,
            xywh = PyStr.str_of_int x +:+ "," +:+ PyStr.str_of_int y +:+ ","
                   +:+ PyStr.str_of_int w +:+ "," +:+ PyStr.str_of_int h
            /\ 0 <= w /\ 0 <= h
            /\ (forall pt, In pt polygon ->
                  x <= fst pt <= x + w /\ y <= snd pt <= y + h)
            /\ In x (map fst polygon) /\ In (x + w) (map fst polygon)
            /\ In y (map snd polygon) /\ In (y + h) (map snd polygon)).
Proof.
  intros polygon. unfold XMIProcessor._to_xywh. split.
  - destruct polygon as [|pt rest]; [split; reflexivity|].
    simpl. split; discriminate.
  - intros xywh H.
    destruct (PyStr.list_min (map fst polygon)) as [min_x|] eqn:Hminx;
      [|discriminate].
    destruct (PyStr.list_min (map snd polygon)) as [min_y|] eqn:Hminy;
      [|discriminate].
    destruct (PyStr.list_max (map fst polygon)) as [max_x|] eqn:Hmaxx;
      [|discriminate].
    destruct (PyStr.list_max (map snd polygon)) as [max_y|] eqn:Hmaxy;
      [|discriminate].
    simpl in H. injection H as <-.
    apply list_min_spec in Hminx as [Hix Hlx], Hminy as [Hiy Hly].
    apply list_max_spec in Hmaxx as [Hax Hux], Hmaxy as [Hay Huy].
    exists min_x, min_y, (max_x - min_x), (max_y - min_y).
    split; [reflexivity|].
    split; [specialize (Hlx _ Hax); lia|].
    split; [specialize (Hly _ Hay); lia|].
    split.
    + intros pt Hpt.
      pose proof (Hlx _ (in_map fst _ _ Hpt)).
      pose proof (Hux _ (in_map fst _ _ Hpt)).
      pose proof (Hly _ (in_map snd _ _ Hpt)).
      pose proof (Huy _ (in_map snd _ _ Hpt)). lia.
    + replace (min_x + (max_x - min_x)) with max_x by lia.
      replace (min_y + (max_y - min_y)) with max_y by lia.
      repeat split; assumption.
Qed.

(** ** SVG selectors *)

Section Svg.

Lemma join_cons (sep x : string) (l : list string) :
  PyStr.join sep (x :: l)
  = x +:+ PyStr.concat (map (fun y => sep +:+ y) l).
Proof.
  revert x. induction l as [|y rest IH]; intros x.
  - simpl. rewrite str_app_nil_r. reflexivity.
  - change (PyStr.join sep (x :: y :: rest))
      with (x +:+ sep +:+ PyStr.join sep (y :: rest)).
    rewrite IH. simpl. rewrite str_app_assoc. reflexivity.
Qed.

(** Dropping the first character. *)
Lemma slice_from_1 (c : ascii) (s : string) :
  PyStr.slice_from (String c s) 1 = s.
Proof.
  unfold PyStr.slice_from, PyStr.slice, PyStr.slice_bound, PyStr.len.
  simpl String.length.
  destruct (Z.ltb_spec 1 0) as [|_]; [lia|].
  destruct (Z.ltb_spec (Z.of_nat (S (String.length s))) 0) as [|_]; [lia|].
  rewrite Z.min_l by lia. rewrite Z.min_id.
  replace (Z.to_nat (Z.of_nat (S (String.length s)) - 1))
    with (String.length s) by lia.
  change (Z.to_nat 1) with 1%nat. simpl. apply substring_all.
Qed.

Lemma svg_selector_loop_spec :
  forall (coords_list : list (list (Z * Z))) (path_defs : list string)
         (height width : Z),
    (svg_selector_loop coords_list path_defs height width = None
     <-> In [] coords_list)
    /\ (forall path_defs' height' width',
          svg_selector_loop coords_list path_defs height width
          = Some (path_defs', height', width') ->
          path_defs' = path_defs ++ map svg_path_def coords_list
          /\ height <= height' /\ width <= width'
          /\ (forall coords pt, In coords coords_list -> In pt coords ->
                fst pt <= width' /\ snd pt <= height')
          /\ (height' = height
              \/ exists coords pt,
                   In coords coords_list /\ In pt coords /\ snd pt = height')
          /\ (width' = width
              \/ exists coords pt,
                   In coords coords_list /\ In pt coords /\ fst pt = width')).
Proof.
  induction coords_list as [|coords rest IH]; intros path_defs height width.
  - simpl. split; [split; [discriminate | intros []]|].
    intros path_defs' height' width' H. injection H as <- <- <-.
    rewrite app_nil_r. split; [reflexivity|]. split; [lia|]. split; [lia|].
    split; [intros coords pt []|]. split; left; reflexivity.
  - simpl.
    destruct (PyStr.list_max (map snd coords)) as [my|] eqn:Hmy.
    2:{ apply list_max_none in Hmy. destruct coords; [|discriminate].
        simpl. split; [split; [intros _; left; reflexivity | reflexivity]|].
        discriminate. }
    destruct (PyStr.list_max (map fst coords)) as [mx|] eqn:Hmx.
    2:{ apply list_max_none in Hmx. destruct coords; discriminate. }
    simpl.
    assert (Hne : coords <> []) by (destruct coords; discriminate).
    apply list_max_spec in Hmy as [Hiy Huy], Hmx as [Hix Hux].
    apply in_map_iff in Hiy as (pty & Hpty & Hinpty).
    apply in_map_iff in Hix as (ptx & Hptx & Hinptx).
    destruct (IH (path_defs ++ [svg_path_def coords])
                (Z.max height my) (Z.max width mx)) as [IHnone IHsome].
    split.
    + rewrite IHnone. split.
      * intros H. right. exact H.
      * intros [H | H]; [contradiction | exact H].
    + intros path_defs' height' width' H.
      destruct (IHsome _ _ _ H) as (-> & Hh & Hw & Hall & Hth & Htw).
      split; [rewrite <- app_assoc; reflexivity|].
      split; [lia|]. split; [lia|]. split.
      * intros coords' pt [<- | Hin] Hpt.
        -- pose proof (Hux _ (in_map fst _ _ Hpt)).
           pose proof (Huy _ (in_map snd _ _ Hpt)). lia.
        -- apply (Hall coords' pt Hin Hpt).
      * split.
        -- destruct Hth as [-> | (c' & pt & Hc & Hp & Hs)].
           ++ destruct (Z.max_spec height my) as [[_ ->] | [_ ->]].
              ** right. exists coords, pty. split; [left; reflexivity|].
                 split; assumption.
              ** left. reflexivity.
           ++ right. exists c', pt. split; [right; exact Hc|].
              split; assumption.
        -- destruct Htw as [-> | (c' & pt & Hc & Hp & Hs)].
           ++ destruct (Z.max_spec width mx) as [[_ ->] | [_ ->]].
              ** right. exists coords, ptx. split; [left; reflexivity|].
                 split; assumption.
              ** left. reflexivity.
           ++ right. exists c', pt. split; [right; exact Hc|].
              split; assumption.
Qed.

Lemma fold_left_max_init (l : list Z) :
  forall a b : Z,
    fold_left Z.max l (Z.max a b) = Z.max a (fold_left Z.max l b).
Proof.
  induction l as [|x rest IH]; intros a b; [reflexivity|].
  simpl. rewrite <- Z.max_assoc. apply IH.
Qed.

(** The dimensions the loop ends with: the greatest of the coordinates
    met and of the value the loop starts with. *)
Lemma svg_selector_loop_closed :
  forall (coords_list : list (list (Z * Z))) (path_defs : list string)
         (height width : Z) path_defs' height' width',
    svg_selector_loop coords_list path_defs height width
    = Some (path_defs', height', width') ->
    height' = fold_left Z.max (map snd (List.concat coords_list)) height
    /\ width' = fold_left Z.max (map fst (List.concat coords_list)) width.
Proof.
  induction coords_list as [|coords rest IH];
    intros path_defs height width path_defs' height' width' H.
  - simpl in H. injection H as _ <- <-. split; reflexivity.
  - simpl in H. destruct coords as [|pt more]; [discriminate|].
    simpl in H. apply IH in H as [-> ->].
    simpl. rewrite !map_app, !fold_left_app.
    rewrite !fold_left_max_init. split; reflexivity.
Qed.

End Svg.

(** X5: the path [svg_selector] draws for a polygon of at least one point
    moves to the first point, draws a line to each further point in order
    and closes: ["M x1 y1 L x2 y2 ... Z"]. *)
Theorem svg_path_def_shape :
  forall (first : Z * Z) (rest : list (Z * Z)),
    svg_path_def (first :: rest)
    = "M" +:+ PyStr.str_of_int (fst first) +:+ " "
      +:+ PyStr.str_of_int (snd first)
      +:+ PyStr.concat
            (map (fun c => " L" +:+ PyStr.str_of_int (fst c) +:+ " "
                           +:+ PyStr.str_of_int (snd c)) rest)
      +:+ " Z".
Proof.
  intros first rest. unfold svg_path_def.
  rewrite map_cons, join_cons.
  rewrite (str_app_cons "L"), str_app_nil_l.
  rewrite 2!(str_app_cons "L"), slice_from_1.
  rewrite !str_app_assoc, map_map. reflexivity.
Qed.

(** X6: [svg_selector] fails exactly when one of the polygons is empty.
    Otherwise the selector holds the paths of the polygons in order, and
    its height and width are the greatest of 0 and the [y], respectively
    the [x], of every point: never negative, at least every coordinate,
    and either 0 or the coordinate of some point. *)
Theorem svg_selector_dimensions :
  forall coords_list : list (list (Z * Z)),
    (svg_selector coords_list = None <-> In [] coords_list)
    /\ (forall selector, svg_selector coords_list = Some selector ->
          exists height width : Z,
            selector
            = JObj [("type", JStr "SvgSelector");
                    ("value",
                     JStr ("<svg height=" +:+ PyStr.dquote
                           +:+ PyStr.str_of_int height +:+ PyStr.dquote
                           +:+ " width=" +:+ PyStr.dquote
                           +:+ PyStr.str_of_int width +:+ PyStr.dquote +:+ ">"
                           +:+ ("<path d=" +:+ PyStr.dquote
                                +:+ PyStr.join " "
                                      (map svg_path_def coords_list)
                                +:+ PyStr.dquote +:+ "/>")
                           +:+ "</svg>"))]
            /\ height
               = fold_left Z.max (map snd (List.concat coords_list)) 0
            /\ width
               = fold_left Z.max (map fst (List.concat coords_list)) 0
            /\ 0 <= height /\ 0 <= width
            /\ (forall coords pt, In coords coords_list -> In pt coords ->
                  fst pt <= width /\ snd pt <= height)
            /\ (height = 0
                \/ exists coords pt,
                     In coords coords_list /\ In pt coords /\ snd pt = height)
            /\ (width = 0
                \/ exists coords pt,
                     In coords coords_list /\ In pt coords /\ fst pt = width)).
Proof.
  intros coords_list. unfold svg_selector.
  destruct (svg_selector_loop_spec coords_list [] 0 0) as [Hnone Hsome].
  destruct (svg_selector_loop coords_list [] 0 0) as [[[pd h] w]|] eqn:Hloop.
  - split; [split; [discriminate | intros H; apply Hnone in H; discriminate]|].
    intros selector H. simpl in H. injection H as <-.
    destruct (svg_selector_loop_closed _ _ _ _ _ _ _ Hloop) as [Hch Hcw].
    destruct (Hsome _ _ _ eq_refl) as (-> & Hh & Hw & Hall & Hth & Htw).
    exists h, w. simpl. split; [reflexivity|].
    split; [exact Hch|]. split; [exact Hcw|].
    split; [exact Hh|]. split; [exact Hw|]. split; [exact Hall|].
    split; assumption.
  - split; [split; [intros _; apply Hnone; reflexivity | reflexivity]|].
    discriminate.
Qed.

(** ** Targets of a layout annotation *)

Section LayoutTargets.

Implicit Types (idx : gmap string string) (a : Annotation.t).

Lemma make_image_targets_spec idx (page_id : string) (cs : list Coords.t)
    (targets : list json) :
  make_image_targets idx page_id cs = Some targets ->
  length targets = S (length cs)
  /\ Forall (fun t => WebAnnotation.is_image_or_canvas t = true) targets
  /\ is_Some (idx !! page_id).
Proof.
  unfold make_image_targets, get_iiif_base_url.
  destruct (idx !! page_id) as [url|]; [|discriminate]. simpl.
  destruct (image_target_wth_svg_selector _ _) as [svg_target|];
    [|discriminate]. simpl.
  destruct (jget "selector" svg_target) as [svg|]; [|discriminate]. simpl.
  intros H. injection H as <-. split.
  - rewrite length_app, length_map. simpl. lia.
  - split; [|eexists; reflexivity].
    apply Forall_app. split.
    + apply Forall_forall. intros t Ht. apply list_elem_of_In in Ht.
      apply in_map_iff in Ht as (c & <- & _). reflexivity.
    + apply Forall_cons. split; [reflexivity | apply Forall_nil; exact I].
Qed.

Lemma canvas_target_spec (canvas_url : string) (xywh_list : list string)
    (coords_list : list (list (Z * Z))) (canvas : json) :
  canvas_target canvas_url xywh_list coords_list = Some canvas ->
  WebAnnotation.is_image_or_canvas canvas = true.
Proof.
  unfold canvas_target.
  destruct (match coords_list with
            | [] => Some []
            | _ :: _ => svg ← svg_selector coords_list; Some [svg]
            end) as [svgs|]; [|discriminate].
  simpl. intros H. injection H as <-. reflexivity.
Qed.

Lemma coords_targets_spec idx (page_id : string) (v : MetaValue)
    (targets : list json) :
  coords_targets idx page_id v = Some targets ->
  Forall (fun t => WebAnnotation.is_image_or_canvas t = true) targets
  /\ is_Some (idx !! page_id)
  /\ length targets
     = match v with
       | MCoords _ => 3%nat
       | MCoordsList cs => (length cs + 2)%nat
       | _ => 0%nat
       end.
Proof.
  unfold coords_targets.
  destruct v as [s | z | c | cs]; try discriminate; simpl;
    (destruct (make_image_targets idx page_id _) as [imgs|] eqn:Himgs;
       [|discriminate]; simpl;
     destruct (canvas_target _ _ _) as [canvas|] eqn:Hcanvas;
       [|discriminate]; simpl;
     intros H; injection H as <-;
     apply make_image_targets_spec in Himgs as (Hlen & Hall & Hidx);
     apply canvas_target_spec in Hcanvas;
     split; [apply Forall_app; split;
               [exact Hall
               | apply Forall_cons; split;
                   [exact Hcanvas | apply Forall_nil; exact I]]|];
     split; [exact Hidx|];
     rewrite length_app, Hlen; simpl; lia).
Qed.

Lemma map_constant {A B : Type} (f : A -> B) (y : B) (l : list A) :
  (forall x, f x = y) -> map f l = repeat y (length l).
Proof.
  intros Hf. induction l as [|x rest IH]; [reflexivity|].
  simpl. rewrite Hf, IH. reflexivity.
Qed.

Lemma make_image_targets_kinds idx (page_id : string) (cs : list Coords.t)
    (targets : list json) :
  make_image_targets idx page_id cs = Some targets ->
  map target_type targets = repeat image_kind (S (length cs)).
Proof.
  unfold make_image_targets, get_iiif_base_url.
  destruct (idx !! page_id) as [url|]; [|discriminate]. simpl.
  destruct (image_target_wth_svg_selector _ _) as [svg_target|];
    [|discriminate]. simpl.
  destruct (jget "selector" svg_target) as [svg|]; [|discriminate]. simpl.
  intros H. injection H as <-.
  rewrite map_app, map_map.
  rewrite (map_constant _ image_kind) by (intros c; reflexivity).
  change (repeat image_kind (S (length cs)))
    with (image_kind :: repeat image_kind (length cs)).
  rewrite repeat_cons. reflexivity.
Qed.

Lemma canvas_target_kind (canvas_url : string) (xywh_list : list string)
    (coords_list : list (list (Z * Z))) (canvas : json) :
  canvas_target canvas_url xywh_list coords_list = Some canvas ->
  target_type canvas = canvas_kind.
Proof.
  unfold canvas_target.
  destruct (match coords_list with
            | [] => Some []
            | _ :: _ => svg ← svg_selector coords_list; Some [svg]
            end) as [svgs|]; [|discriminate].
  simpl. intros H. injection H as <-. reflexivity.
Qed.

Lemma coords_targets_kinds idx (page_id : string) (v : MetaValue)
    (targets : list json) :
  coords_targets idx page_id v = Some targets ->
  map target_type targets = coords_kinds v.
Proof.
  unfold coords_targets.
  destruct v as [s | z | c | cs]; try discriminate; simpl;
    (destruct (make_image_targets idx page_id _) as [imgs|] eqn:Himgs;
       [|discriminate]; simpl;
     destruct (canvas_target _ _ _) as [canvas|] eqn:Hcanvas;
       [|discriminate]; simpl;
     intros H; injection H as <-;
     apply make_image_targets_kinds in Himgs;
     apply canvas_target_kind in Hcanvas;
     rewrite map_app, Himgs; simpl; rewrite Hcanvas; reflexivity).
Qed.

End LayoutTargets.

(** X7: the targets of an annotation are, in this order: for an annotation
    with coordinates one Image target per polygon, one more Image target
    and one Canvas target; for a page one more Image target; then its two
    Text targets.  An annotation without coordinates that is not a page
    needs no lookup and gets its text targets whatever the IIIF table
    holds; an annotation with coordinates, or a page, whose page id the
    table does not hold fails. *)
Theorem annotation_targets_shape :
  forall (iiif_base_url_idx : gmap string string) (annotation : Annotation.t),
    (forall targets,
        annotation_targets iiif_base_url_idx annotation = Some targets ->
        exists image_targets,
          targets
          = image_targets
            ++ make_text_targets "https://globalise.tt.di.huc.knaw.nl/textrepo"
                 annotation
          /\ map target_type image_targets = layout_kinds annotation
          /\ map target_type
               (make_text_targets
                  "https://globalise.tt.di.huc.knaw.nl/textrepo" annotation)
             = [Some (JStr "Text"); Some (JStr "Text")]
          /\ Forall (fun t => WebAnnotation.is_image_or_canvas t = true)
               image_targets
          /\ length image_targets
             = (match Annotation.metadata annotation !! "coords" with
                | Some (MCoords _) => 3
                | Some (MCoordsList cs) => length cs + 2
                | _ => 0
                end
                + if String.eqb (Annotation.type annotation) "px:Page"
                  then 1 else 0)%nat)
    /\ (Annotation.metadata annotation !! "coords" = None ->
        Annotation.type annotation <> "px:Page" ->
        annotation_targets iiif_base_url_idx annotation
        = Some (make_text_targets
                  "https://globalise.tt.di.huc.knaw.nl/textrepo" annotation))
    /\ (iiif_base_url_idx !! Annotation.page_id annotation = None ->
        is_Some (Annotation.metadata annotation !! "coords")
        \/ Annotation.type annotation = "px:Page" ->
        annotation_targets iiif_base_url_idx annotation = None).
Proof.
  intros idx a. unfold annotation_targets, layout_kinds. split; [|split].
  - intros targets H.
    destruct (Annotation.metadata a !! "coords") as [v|] eqn:Hcoords.
    + destruct (coords_targets idx (Annotation.page_id a) v) as [tc|] eqn:Htc;
        [|discriminate]. simpl in H.
      pose proof (coords_targets_kinds _ _ _ _ Htc) as Hkinds.
      apply coords_targets_spec in Htc as (Hall & _ & Hlen).
      destruct (String.eqb (Annotation.type a) "px:Page").
      * unfold get_iiif_base_url in H.
        destruct (idx !! Annotation.page_id a) as [url|]; [|discriminate].
        simpl in H. injection H as <-.
        eexists (tc ++ [_]). split; [rewrite <- app_assoc; reflexivity|].
        split; [rewrite map_app, Hkinds; reflexivity|].
        split; [reflexivity|]. split.
        -- apply Forall_app. split; [exact Hall|].
           apply Forall_cons. split; [reflexivity | apply Forall_nil; exact I].
        -- rewrite length_app, Hlen. destruct v; simpl; lia.
      * simpl in H. injection H as <-.
        exists tc. split; [reflexivity|].
        split; [rewrite Hkinds, app_nil_r; reflexivity|].
        split; [reflexivity|]. split; [exact Hall|].
        rewrite Hlen. destruct v; simpl; lia.
    + simpl in H. destruct (String.eqb (Annotation.type a) "px:Page").
      * unfold get_iiif_base_url in H.
        destruct (idx !! Annotation.page_id a) as [url|]; [|discriminate].
        simpl in H. injection H as <-.
        eexists [_]. split; [reflexivity|]. split; [reflexivity|].
        split; [reflexivity|]. split; [|reflexivity].
        apply Forall_cons. split; [reflexivity | apply Forall_nil; exact I].
      * simpl in H. injection H as <-.
        exists []. split; [reflexivity|]. split; [reflexivity|].
        split; [reflexivity|].
        split; [apply Forall_nil; exact I | reflexivity].
  - intros -> Htype. apply String.eqb_neq in Htype. rewrite Htype.
    reflexivity.
  - intros Hidx [[v Hv] | Htype].
    + rewrite Hv.
      destruct (coords_targets idx (Annotation.page_id a) v) as [tc|] eqn:Htc;
        [|reflexivity].
      apply coords_targets_spec in Htc as (_ & [url Hurl] & _). congruence.
    + destruct (match Annotation.metadata a !! "coords" with
                | Some v => coords_targets idx (Annotation.page_id a) v
                | None => Some []
                end) as [tc|]; [|reflexivity].
      simpl. rewrite Htype. simpl. unfold get_iiif_base_url. rewrite Hidx.
      reflexivity.
Qed.

Lemma annotation_targets_shape_witness :
  annotation_targets ∅ Samples.long_page = None
  /\ annotation_targets ∅ Samples.versioned_token
     = Some (make_text_targets "https://globalise.tt.di.huc.knaw.nl/textrepo"
               Samples.versioned_token)
  /\ exists targets image_targets,
       annotation_targets (<["p1" := "https://iiif.example/p1"]> ∅)
         Samples.long_page = Some targets
       /\ targets
          = image_targets
            ++ make_text_targets "https://globalise.tt.di.huc.knaw.nl/textrepo"
                 Samples.long_page
       /\ map target_type image_targets = [Some (JStr "Image")].
Proof.
  destruct (annotation_targets_shape ∅ Samples.long_page) as (_ & _ & Hfail).
  destruct (annotation_targets_shape ∅ Samples.versioned_token)
    as (_ & Htext & _).
  split; [apply Hfail; [reflexivity | right; reflexivity]|].
  split; [apply Htext; [reflexivity | discriminate]|].
  destruct (annotation_targets (<["p1" := "https://iiif.example/p1"]> ∅)
              Samples.long_page) as [targets|] eqn:Hrun;
    [|vm_compute in Hrun; discriminate Hrun].
  destruct (annotation_targets_shape
              (<["p1" := "https://iiif.example/p1"]> ∅) Samples.long_page)
    as (Hshape & _ & _).
  destruct (Hshape targets Hrun) as (image_targets & Htargets & Hkinds & _).
  exists targets, image_targets.
  split; [reflexivity|]. split; [exact Htargets | exact Hkinds].
Defined.

(** ** Targets of an XMI annotation *)

Section XmiCounts.












End XmiCounts.



(** ** Paragraphs and pages *)

Section Paragraphs.

Lemma split_char_nonempty (c : ascii) (s : string) :
  PyStr.split_char c s <> [].
Proof.
  destruct s as [|d s]; simpl; [discriminate|].
  destruct (Ascii.eqb d c); [discriminate|].
  destruct (PyStr.split_char c s); discriminate.
Qed.

(** Putting the separator back after every piece gives the string and one
    more separator. *)
Lemma split_char_concat (c : ascii) (s : string) :
  PyStr.concat (map (fun p => p +:+ String c "") (PyStr.split_char c s))
  = s +:+ String c "".
Proof.
  induction s as [|d s IH]; [reflexivity|].
  simpl PyStr.split_char. destruct (Ascii.eqb_spec d c) as [->|Hne].
  - simpl. rewrite IH. reflexivity.
  - destruct (PyStr.split_char c s) as [|piece pieces] eqn:Hsplit.
    + exfalso. apply (split_char_nonempty c s). exact Hsplit.
    + simpl in IH |- *. rewrite !str_app_cons, IH. reflexivity.
Qed.

Lemma split_char_pieces (c : ascii) (s : string) :
  Forall (fun p => contains_char c p = false) (PyStr.split_char c s).
Proof.
  induction s as [|d s IH]; simpl.
  - apply Forall_cons. split; [reflexivity | apply Forall_nil; exact I].
  - destruct (Ascii.eqb d c) eqn:Hdc.
    + apply Forall_cons. split; [reflexivity | exact IH].
    + destruct (PyStr.split_char c s) as [|piece pieces].
      * apply Forall_cons. split; [simpl; rewrite Hdc; reflexivity|].
        apply Forall_nil. exact I.
      * apply Forall_cons in IH as [Hp Hps]. apply Forall_cons.
        split; [simpl; rewrite Hdc; exact Hp | exact Hps].
Qed.

Lemma str_len_app (a b : string) :
  PyStr.len (a +:+ b) = PyStr.len a + PyStr.len b.
Proof. unfold PyStr.len. rewrite str_length_app. lia. Qed.

Variables (na_url tr_url : string -> string).

(** The parts of the result of [process_pagexml]. *)
Lemma process_pagexml_inv (page : PageLayout.t) (paragraphs : list string)
    (annotations : list Annotation.t) (total_size : Z) :
  process_pagexml na_url tr_url page = Some (paragraphs, annotations, total_size) ->
  exists word_annotations display_idx px_idx region_annotations line_annotations,
    word_loop (make_id_prefix (PageLayout.scan_id page))
      (PageLayout.display_words page) "" [] ∅
    = Some (page_text page, word_annotations, display_idx)
    /\ index_word_ranges (PageLayout.display_words page) display_idx
       = Some px_idx
    /\ paragraphs
       = map (fun p => p +:+ PyStr.nl) (PyStr.split_char "010" (page_text page))
    /\ total_size = PyStr.len (page_text page) + 1
    /\ text_region_annotations (make_id_prefix (PageLayout.scan_id page))
         px_idx (PageLayout.text_regions page) = Some region_annotations
    /\ text_line_annotations (make_id_prefix (PageLayout.scan_id page))
         px_idx (PageLayout.text_lines page) = Some line_annotations
    /\ annotations
       = (word_annotations
          ++ [page_annotation na_url tr_url
                (make_id_prefix (PageLayout.scan_id page))
                (to_base_name (PageLayout.path page)) (PageLayout.path page)
                total_size])
         ++ region_annotations ++ line_annotations.
Proof.
  unfold process_pagexml. intros H.
  destruct (word_loop _ _ "" [] ∅) as [[[text word_anns] didx]|] eqn:Hloop;
    [|discriminate]. simpl in H.
  destruct (index_word_ranges _ didx) as [px_idx|] eqn:Hidx; [|discriminate].
  simpl in H.
  destruct (text_region_annotations _ px_idx _) as [regs|] eqn:Hregs;
    [|discriminate]. simpl in H.
  destruct (text_line_annotations _ px_idx _) as [lines|] eqn:Hlines;
    [|discriminate]. simpl in H.
  injection H as <- <- <-.
  pose proof (word_loop_annotations _ _ _ _ _ _ _ _ Hloop) as [Htext _].
  rewrite str_app_nil_l in Htext. subst text.
  assert (Hsize :
    PyStr.len
      (PyStr.concat
         (map (fun p => p +:+ PyStr.nl)
            (PyStr.split_char "010"
               (words_text (PageLayout.display_words page)))))
    = PyStr.len (page_text page) + 1).
  { unfold PyStr.nl. rewrite split_char_concat, str_len_app. reflexivity. }
  exists word_anns, didx, px_idx, regs, lines. unfold page_text.
  split; [reflexivity|]. split; [exact Hidx|]. split; [reflexivity|].
  split; [exact Hsize|]. split; [exact Hregs|]. split; [exact Hlines|].
  rewrite Hsize. reflexivity.
Qed.

(** The paragraphs of a page make up its text and a newline. *)
Lemma process_pagexml_text (page : PageLayout.t) (paragraphs : list string)
    (annotations : list Annotation.t) (total_size : Z) :
  process_pagexml na_url tr_url page = Some (paragraphs, annotations, total_size) ->
  PyStr.concat paragraphs = page_text page +:+ PyStr.nl
  /\ total_size = PyStr.len (page_text page) + 1.
Proof.
  intros H. apply process_pagexml_inv in H
    as (wa & didx & pidx & regs & lines & _ & _ & -> & -> & _).
  split; [apply split_char_concat | reflexivity].
Qed.

End Paragraphs.

(** X9: the paragraphs [process_pagexml] returns are the lines of the page
    text, each closed by one newline and holding no other; put together
    they are the page text followed by a newline, so the size the page
    reports is the length of its text plus one. *)
Theorem process_pagexml_paragraphs :
  forall (na_url tr_url : string -> string) (page : PageLayout.t)
         (paragraphs : list string) (annotations : list Annotation.t)
         (total_size : Z),
    process_pagexml na_url tr_url page
    = Some (paragraphs, annotations, total_size) ->
    PyStr.concat paragraphs = page_text page +:+ PyStr.nl
    /\ total_size = PyStr.len (page_text page) + 1
    /\ paragraphs <> []
    /\ Forall (fun par => exists line,
                 par = line +:+ PyStr.nl
                 /\ contains_char "010" line = false) paragraphs.
Proof.
  intros na_url tr_url page paragraphs annotations total_size H.
  apply process_pagexml_inv in H
    as (wa & didx & pidx & regs & lines & _ & _ & -> & -> & _).
  split; [apply split_char_concat|]. split; [reflexivity|]. split.
  - pose proof (split_char_nonempty "010" (page_text page)).
    destruct (PyStr.split_char "010" (page_text page)); [contradiction|].
    discriminate.
  - apply Forall_forall. intros par Hpar. apply list_elem_of_In in Hpar.
    apply in_map_iff in Hpar as (line & <- & Hline).
    exists line. split; [reflexivity|].
    pose proof (split_char_pieces "010" (page_text page)) as Hall.
    rewrite Forall_forall in Hall. apply Hall. apply list_elem_of_In.
    exact Hline.
Qed.

Lemma process_pagexml_paragraphs_witness :
  exists paragraphs annotations,
    process_pagexml MoreSamples.url_of MoreSamples.url_of MoreSamples.page_one
    = Some (paragraphs, annotations, 4)
    /\ PyStr.concat paragraphs = "a b" +:+ PyStr.nl.
Proof.
  destruct (process_pagexml MoreSamples.url_of MoreSamples.url_of
              MoreSamples.page_one) as [[[pars anns] size]|] eqn:Hrun;
    [|vm_compute in Hrun; discriminate Hrun].
  destruct (process_pagexml_paragraphs _ _ _ _ _ _ Hrun)
    as (Hconcat & Hsize & _).
  exists pars, anns. split; [|exact Hconcat].
  rewrite Hsize. reflexivity.
Defined.

(** ** The accumulated text *)

Section Accumulator.

Variables (na_url tr_url : string -> string).

Lemma concat_app (l1 l2 : list string) :
  PyStr.concat (l1 ++ l2) = PyStr.concat l1 +:+ PyStr.concat l2.
Proof.
  induction l1 as [|x rest IH]; [reflexivity|].
  simpl. rewrite IH, str_app_assoc. reflexivity.
Qed.

Lemma pages_text_app (pages1 pages2 : list PageLayout.t) :
  pages_text (pages1 ++ pages2) = pages_text pages1 +:+ pages_text pages2.
Proof.
  induction pages1 as [|page rest IH]; [reflexivity|].
  simpl. rewrite IH, !str_app_assoc. reflexivity.
Qed.

Lemma pages_text_split (pages : list PageLayout.t) (k : nat)
    (page : PageLayout.t) :
  pages !! k = Some page ->
  pages_text pages
  = pages_text (take k pages)
    +:+ (page_text page +:+ PyStr.nl) +:+ pages_text (drop (S k) pages).
Proof.
  intros Hk. rewrite <- (take_drop_middle pages k page Hk) at 1.
  rewrite pages_text_app. reflexivity.
Qed.

Lemma page_start_cons (page : PageLayout.t) (rest : list PageLayout.t)
    (k : nat) :
  page_start (page :: rest) (S k)
  = PyStr.len (page_text page) + 1 + page_start rest k.
Proof.
  unfold page_start. simpl. rewrite !str_len_app. reflexivity.
Qed.

Lemma word_annotation_id (id_prefix stripped text : string)
    (w : DisplayWord.t) (wa : Annotation.t) :
  word_annotation id_prefix stripped text w = Some wa ->
  Annotation.id wa = make_word_id id_prefix w.
Proof.
  unfold word_annotation. destruct (head (DisplayWord.px_words w));
    [|discriminate].
  simpl. intros H. injection H as <-. reflexivity.
Qed.

(** The loop only appends to the annotations it was given. *)
Lemma process_pagexml_files_loop_extends :
  forall (pages : list PageLayout.t) (pars0 : list string)
         (anns0 : list Annotation.t) (start0 : Z) anns pars,
    process_pagexml_files_loop na_url tr_url pages pars0 anns0 start0
    = Some (anns, pars) ->
    exists more, anns = anns0 ++ more.
Proof.
  induction pages as [|f rest IH]; intros pars0 anns0 start0 anns pars H.
  - simpl in H. injection H as <- <-. exists []. rewrite app_nil_r.
    reflexivity.
  - simpl in H.
    destruct (process_pagexml na_url tr_url f) as [[[ps as_] size]|];
      [|discriminate]. simpl in H.
    destruct (IH _ _ _ _ _ H) as (more & ->).
    eexists. rewrite <- app_assoc. reflexivity.
Qed.

Lemma process_pagexml_files_loop_text :
  forall (pages : list PageLayout.t) (pars0 : list string)
         (anns0 : list Annotation.t) (start0 : Z) anns pars,
    process_pagexml_files_loop na_url tr_url pages pars0 anns0 start0
    = Some (anns, pars) ->
    PyStr.concat pars = PyStr.concat pars0 +:+ pages_text pages.
Proof.
  induction pages as [|f rest IH]; intros pars0 anns0 start0 anns pars H.
  - simpl in H. injection H as <- <-. simpl. rewrite str_app_nil_r.
    reflexivity.
  - simpl in H.
    destruct (process_pagexml na_url tr_url f) as [[[ps as_] size]|] eqn:Hf;
      [|discriminate]. simpl in H.
    apply IH in H. rewrite H, concat_app.
    apply (process_pagexml_text na_url tr_url) in Hf as (Hps & _).
    rewrite Hps. simpl. rewrite !str_app_assoc. reflexivity.
Qed.

Lemma process_pagexml_files_loop_words :
  forall (pages : list PageLayout.t) (pars0 : list string)
         (anns0 : list Annotation.t) (start0 : Z) anns pars,
    process_pagexml_files_loop na_url tr_url pages pars0 anns0 start0
    = Some (anns, pars) ->
    forall (k : nat) (page : PageLayout.t) (i : nat) (w : DisplayWord.t),
      pages !! k = Some page ->
      PageLayout.display_words page !! i = Some w ->
      exists a,
        In a anns
        /\ Annotation.type a = "tt:Word"
        /\ Annotation.id a
           = make_word_id (make_id_prefix (PageLayout.scan_id page)) w
        /\ Annotation.offset a
           = PyStr.len (words_text (take i (PageLayout.display_words page)))
             + (start0 + page_start pages k)
        /\ Annotation.length a = PyStr.len (PyStr.strip (DisplayWord.text w))
        /\ Annotation.metadata a !! "text"
           = Some (MStr (PyStr.strip (DisplayWord.text w))).
Proof.
  induction pages as [|f rest IH];
    intros pars0 anns0 start0 anns pars H k page i w Hk Hi.
  - destruct k; discriminate.
  - simpl in H.
    destruct (process_pagexml na_url tr_url f) as [[[ps as_] size]|] eqn:Hf;
      [|discriminate]. simpl in H.
    destruct k as [|k]; simpl in Hk.
    + injection Hk as <-.
      apply process_pagexml_files_loop_extends in H as (more & ->).
      apply process_pagexml_inv in Hf
        as (wanns & didx & pidx & regs & lines & Hloop & _ & _ & _ & _ & _ & ->).
      apply word_loop_annotations in Hloop as (_ & new & Hnew & _ & Hith).
      simpl in Hnew. subst wanns.
      destruct (Hith i w Hi) as (wa & Hl & Hwa).
      rewrite str_app_nil_l in Hwa.
      pose proof (word_annotation_id _ _ _ _ _ Hwa) as Hid.
      apply word_annotation_fields in Hwa as (Hty & Hoff & Hlen & Hmeta).
      exists (rebase start0 wa). split.
      * apply in_or_app. left. apply in_or_app. right. apply in_map.
        apply in_or_app. left. apply in_or_app. left.
        apply list_elem_of_In. apply list_elem_of_lookup. exists i. exact Hl.
      * simpl. split; [exact Hty|]. split; [exact Hid|]. split.
        -- rewrite Hoff. unfold page_start. simpl. unfold PyStr.len. simpl.
           lia.
        -- split; assumption.
    + destruct (IH _ _ _ _ _ H k page i w Hk Hi)
        as (a & Hin & Hty & Hid & Hoff & Hlen & Hmeta).
      exists a. split; [exact Hin|]. split; [exact Hty|].
      split; [exact Hid|]. split; [|split; assumption].
      rewrite Hoff, page_start_cons.
      apply (process_pagexml_text na_url tr_url) in Hf as (_ & ->). lia.
Qed.

End Accumulator.

(** X10: the paragraphs [process_pagexml_files] collects make up the texts
    of the pages in order, each followed by a newline; and every display
    word of every page has a word annotation whose offset, rebased by the
    sizes of the pages before it, addresses the word in that accumulated
    text: the slice of the raw word's length at the offset is the raw word
    text. *)
Theorem process_pagexml_files_words_address_text :
  forall (na_url tr_url : string -> string) (pages : list PageLayout.t)
         (all_annotations : list Annotation.t) (all_pars : list string),
    process_pagexml_files na_url tr_url pages
    = Some (all_annotations, all_pars) ->
    PyStr.concat all_pars = pages_text pages
    /\ forall (k : nat) (page : PageLayout.t) (i : nat) (w : DisplayWord.t),
         pages !! k = Some page ->
         PageLayout.display_words page !! i = Some w ->
         exists a,
           In a all_annotations
           /\ Annotation.type a = "tt:Word"
           /\ Annotation.id a
              = make_word_id (make_id_prefix (PageLayout.scan_id page)) w
           /\ Annotation.offset a
              = page_start pages k
                + PyStr.len
                    (words_text (take i (PageLayout.display_words page)))
           /\ Annotation.length a
              = PyStr.len (PyStr.strip (DisplayWord.text w))
           /\ Annotation.metadata a !! "text"
              = Some (MStr (PyStr.strip (DisplayWord.text w)))
           /\ PyStr.slice (PyStr.concat all_pars) (Annotation.offset a)
                (Annotation.offset a + PyStr.len (DisplayWord.text w))
              = DisplayWord.text w.
Proof.
  intros na_url tr_url pages anns pars H. unfold process_pagexml_files in H.
  pose proof (process_pagexml_files_loop_text _ _ _ _ _ _ _ _ H) as Htext.
  simpl in Htext. rewrite str_app_nil_l in Htext.
  split; [exact Htext|].
  intros k page i w Hk Hi.
  destruct (process_pagexml_files_loop_words _ _ _ _ _ _ _ _ H k page i w Hk Hi)
    as (a & Hin & Hty & Hid & Hoff & Hlen & Hmeta).
  exists a. split; [exact Hin|]. split; [exact Hty|]. split; [exact Hid|].
  assert (Hoff' : Annotation.offset a
                  = page_start pages k
                    + PyStr.len
                        (words_text (take i (PageLayout.display_words page))))
    by (rewrite Hoff; lia).
  split; [exact Hoff'|]. split; [exact Hlen|]. split; [exact Hmeta|].
  rewrite Htext, Hoff', (pages_text_split pages k page Hk).
  unfold page_text at 1.
  rewrite (words_text_split (PageLayout.display_words page) i w Hi).
  unfold page_start.
  rewrite <- str_len_app.
  replace (pages_text (take k pages)
           +:+ ((words_text (take i (PageLayout.display_words page))
                 +:+ DisplayWord.text w
                 +:+ words_text (drop (S i) (PageLayout.display_words page)))
                +:+ PyStr.nl)
           +:+ pages_text (drop (S k) pages))
    with ((pages_text (take k pages)
           +:+ words_text (take i (PageLayout.display_words page)))
          +:+ DisplayWord.text w
          +:+ (words_text (drop (S i) (PageLayout.display_words page))
               +:+ PyStr.nl +:+ pages_text (drop (S k) pages)))
    by (rewrite !str_app_assoc; reflexivity).
  rewrite slice_inside by (unfold PyStr.len; lia).
  unfold PyStr.len. rewrite Nat2Z.id. apply substring_all.
Qed.

Lemma process_pagexml_files_words_address_text_witness :
  exists all_annotations all_pars,
    process_pagexml_files MoreSamples.url_of MoreSamples.url_of
      [MoreSamples.page_one; MoreSamples.page_two]
    = Some (all_annotations, all_pars)
    /\ PyStr.concat all_pars = "a b" +:+ PyStr.nl +:+ "cde" +:+ PyStr.nl.
Proof.
  destruct (process_pagexml_files MoreSamples.url_of MoreSamples.url_of
              [MoreSamples.page_one; MoreSamples.page_two])
    as [[anns pars]|] eqn:Hrun; [|vm_compute in Hrun; discriminate Hrun].
  exists anns, pars. split; [reflexivity|].
  destruct (process_pagexml_files_words_address_text _ _ _ _ _ Hrun)
    as [Htext _].
  rewrite Htext. reflexivity.
Defined.

(** ** Page ranges *)

Section PageRanges.

Variables (na_url tr_url : string -> string).

Lemma ranges_per_scan_fold (annotations : list Annotation.t) :
  ranges_per_scan annotations = fold_left range_step annotations [].
Proof. reflexivity. Qed.

Lemma dict_set_fresh {V : Type} (k : string) (v : V)
    (items : list (string * V)) :
  ~ In k (map fst items) -> PyDict.set k v items = items ++ [(k, v)].
Proof.
  induction items as [|[k' v'] rest IH]; intros Hfresh; [reflexivity|].
  simpl. destruct (String.eqb_spec k k') as [->|Hne].
  - exfalso. apply Hfresh. left. reflexivity.
  - rewrite IH; [reflexivity|]. intros Hin. apply Hfresh. right. exact Hin.
Qed.

(** Annotations that are no pages leave the ranges alone. *)
Lemma fold_range_step_other (annotations : list Annotation.t)
    (ranges : list (string * (Z * Z))) :
  Forall (fun a => Annotation.type a <> "px:Page") annotations ->
  fold_left range_step annotations ranges = ranges.
Proof.
  revert ranges. induction annotations as [|a rest IH]; intros ranges Hall;
    [reflexivity|].
  apply Forall_cons in Hall as [Ha Hrest]. simpl.
  unfold range_step at 2. apply String.eqb_neq in Ha. rewrite Ha.
  apply IH. exact Hrest.
Qed.

Lemma text_region_annotations_types (id_prefix : string)
    (px_idx : gmap string (Z * Z)) (regions : list PXTextRegion.t) :
  forall annotations,
    text_region_annotations id_prefix px_idx regions = Some annotations ->
    Forall (fun a => Annotation.type a = "px:TextRegion") annotations.
Proof.
  induction regions as [|r rest IH]; intros annotations H.
  - simpl in H. injection H as <-. apply Forall_nil. exact I.
  - simpl in H. destruct (element_range _ _ _) as [[o l]|]; [|discriminate].
    simpl in H.
    destruct (text_region_annotations id_prefix px_idx rest) as [anns|];
      [|discriminate].
    simpl in H. injection H as <-. apply Forall_cons.
    split; [reflexivity | apply IH; reflexivity].
Qed.

Lemma text_line_annotations_types (id_prefix : string)
    (px_idx : gmap string (Z * Z)) (lines : list PXTextLine.t) :
  forall annotations,
    text_line_annotations id_prefix px_idx lines = Some annotations ->
    Forall (fun a => Annotation.type a = "px:TextLine") annotations.
Proof.
  induction lines as [|r rest IH]; intros annotations H.
  - simpl in H. injection H as <-. apply Forall_nil. exact I.
  - simpl in H. destruct (element_range _ _ _) as [[o l]|]; [|discriminate].
    simpl in H.
    destruct (text_line_annotations id_prefix px_idx rest) as [anns|];
      [|discriminate].
    simpl in H. injection H as <-. apply Forall_cons.
    split; [reflexivity | apply IH; reflexivity].
Qed.

Lemma word_loop_types (id_prefix : string) (words : list DisplayWord.t)
    (text : string) (annotations : list Annotation.t)
    (idx : gmap string (Z * Z)) :
  word_loop id_prefix words "" [] ∅ = Some (text, annotations, idx) ->
  Forall (fun a => Annotation.type a = "tt:Word") annotations.
Proof.
  intros H. apply word_loop_annotations in H as (_ & new & -> & Hlen & Hith).
  simpl. apply Forall_forall. intros a Ha.
  apply list_elem_of_lookup in Ha as (i & Hi).
  assert (Hw : is_Some (words !! i)).
  { apply lookup_lt_is_Some. rewrite <- Hlen. apply lookup_lt_Some in Hi.
    exact Hi. }
  destruct Hw as (w & Hw). destruct (Hith i w Hw) as (wa & Hl & Hwa).
  rewrite Hi in Hl. injection Hl as <-.
  apply word_annotation_fields in Hwa as (Hty & _). exact Hty.
Qed.

(** The annotations of one page add the range of that page. *)
Lemma fold_range_step_page (page : PageLayout.t) (paragraphs : list string)
    (annotations : list Annotation.t) (total_size start : Z)
    (ranges : list (string * (Z * Z))) :
  process_pagexml na_url tr_url page
  = Some (paragraphs, annotations, total_size) ->
  fold_left range_step (map (rebase start) annotations) ranges
  = PyDict.set (to_base_name (PageLayout.path page))
      (start, start + (PyStr.len (page_text page) + 1)) ranges.
Proof.
  intros H. apply process_pagexml_inv in H
    as (wanns & didx & pidx & regs & lines & Hloop & _ & _ & -> & Hregs
        & Hlines & ->).
  apply word_loop_types in Hloop.
  apply text_region_annotations_types in Hregs.
  apply text_line_annotations_types in Hlines.
  rewrite !map_app, !fold_left_app.
  rewrite (fold_range_step_other (map (rebase start) wanns)).
  2:{ apply Forall_forall. intros a Ha. apply list_elem_of_In in Ha.
      apply in_map_iff in Ha as (a0 & <- & Ha0). simpl.
      rewrite Forall_forall in Hloop.
      rewrite (Hloop a0); [discriminate|]. apply list_elem_of_In. exact Ha0. }
  simpl. unfold range_step at 3. simpl.
  rewrite (fold_range_step_other (map (rebase start) regs)).
  2:{ apply Forall_forall. intros a Ha. apply list_elem_of_In in Ha.
      apply in_map_iff in Ha as (a0 & <- & Ha0). simpl.
      rewrite Forall_forall in Hregs.
      rewrite (Hregs a0); [discriminate|]. apply list_elem_of_In. exact Ha0. }
  rewrite (fold_range_step_other (map (rebase start) lines)).
  2:{ apply Forall_forall. intros a Ha. apply list_elem_of_In in Ha.
      apply in_map_iff in Ha as (a0 & <- & Ha0). simpl.
      rewrite Forall_forall in Hlines.
      rewrite (Hlines a0); [discriminate|]. apply list_elem_of_In. exact Ha0. }
  reflexivity.
Qed.

Lemma page_ranges_keys (start : Z) (pages : list PageLayout.t) :
  map fst (page_ranges start pages)
  = map (fun page => to_base_name (PageLayout.path page)) pages.
Proof.
  revert start. induction pages as [|page rest IH]; intros start;
    [reflexivity|].
  simpl. rewrite IH. reflexivity.
Qed.

Lemma process_pagexml_files_loop_ranges :
  forall (pages : list PageLayout.t) (pars0 : list string)
         (anns0 : list Annotation.t) (start0 : Z) anns pars,
    process_pagexml_files_loop na_url tr_url pages pars0 anns0 start0
    = Some (anns, pars) ->
    NoDup (map (fun page => to_base_name (PageLayout.path page)) pages) ->
    (forall page, In page pages ->
       ~ In (to_base_name (PageLayout.path page))
            (map fst (fold_left range_step anns0 []))) ->
    fold_left range_step anns []
    = fold_left range_step anns0 [] ++ page_ranges start0 pages.
Proof.
  induction pages as [|f rest IH];
    intros pars0 anns0 start0 anns pars H Hnd Hfresh.
  - simpl in H. injection H as <- <-. simpl. rewrite app_nil_r. reflexivity.
  - simpl in H.
    destruct (process_pagexml na_url tr_url f) as [[[ps as_] size]|] eqn:Hf;
      [|discriminate]. simpl in H.
    simpl in Hnd. apply NoDup_cons in Hnd as [Hf_fresh Hnd].
    assert (Hstep :
      fold_left range_step (anns0 ++ map (rebase start0) as_) []
      = fold_left range_step anns0 []
        ++ [(to_base_name (PageLayout.path f),
             (start0, start0 + (PyStr.len (page_text f) + 1)))]).
    { rewrite fold_left_app, (fold_range_step_page f ps as_ size start0 _ Hf).
      apply dict_set_fresh. apply Hfresh. left. reflexivity. }
    rewrite (IH _ _ _ _ _ H Hnd).
    + rewrite Hstep, <- app_assoc. simpl.
      apply (process_pagexml_text na_url tr_url) in Hf as (_ & ->). reflexivity.
    + intros page Hpage. rewrite Hstep, map_app. simpl.
      intros Hin. apply in_app_or in Hin as [Hin | [Heq | []]].
      * apply (Hfresh page); [right; exact Hpage | exact Hin].
      * apply Hf_fresh. rewrite Heq. apply list_elem_of_In.
        apply (in_map (fun page => to_base_name (PageLayout.path page))).
        exact Hpage.
Qed.

(** No page that starts after an offset contains it. *)
Lemma filter_page_ranges_before (pages : list PageLayout.t) :
  forall (start offset : Z),
    offset < start ->
    List.filter (in_scan_range offset) (page_ranges start pages) = [].
Proof.
  induction pages as [|page rest IH]; intros start offset Hlt; [reflexivity|].
  simpl. unfold in_scan_range at 1. simpl.
  destruct (Z.leb_spec start offset) as [|_]; [lia|]. simpl.
  apply IH. unfold PyStr.len. lia.
Qed.

(** One page contains an offset inside the text of the pages. *)
Lemma filter_page_ranges_inside (pages : list PageLayout.t) :
  forall (start offset : Z),
    start <= offset < start + PyStr.len (pages_text pages) ->
    exists (k : nat) (page : PageLayout.t),
      pages !! k = Some page
      /\ start + page_start pages k <= offset < start + page_start pages (S k)
      /\ List.filter (in_scan_range offset) (page_ranges start pages)
         = [(to_base_name (PageLayout.path page),
             (start + page_start pages k, start + page_start pages (S k)))].
Proof.
  induction pages as [|page rest IH]; intros start offset Hin.
  - simpl in Hin. unfold PyStr.len in Hin. simpl in Hin. lia.
  - simpl in Hin. rewrite !str_len_app in Hin.
    change (PyStr.len PyStr.nl) with 1 in Hin.
    destruct (Z_lt_ge_dec offset (start + (PyStr.len (page_text page) + 1)))
      as [Hfirst | Hlater].
    + exists 0%nat, page. split; [reflexivity|].
      rewrite page_start_cons.
      change (page_start (page :: rest) 0) with 0.
      change (page_start rest 0) with 0.
      split; [lia|]. simpl. unfold in_scan_range at 1. simpl.
      destruct (Z.leb_spec start offset) as [_|]; [|lia].
      destruct (Z.ltb_spec offset (start + (PyStr.len (page_text page) + 1)))
        as [_|]; [|lia].
      simpl. rewrite filter_page_ranges_before by lia.
      do 3 f_equal; lia.
    + destruct (IH (start + (PyStr.len (page_text page) + 1)) offset
                  ltac:(lia)) as (k & page' & Hk & Hrange & Hfilter).
      exists (S k), page'. split; [exact Hk|].
      rewrite !page_start_cons. split; [lia|].
      simpl. unfold in_scan_range at 1. simpl.
      destruct (Z.ltb_spec offset (start + (PyStr.len (page_text page) + 1)))
        as [|_]; [lia|].
      rewrite andb_false_r, Hfilter. do 3 f_equal; lia.
Qed.

End PageRanges.

(** X11: when the files have different base names, [ranges_per_scan] gives
    the pages [process_pagexml_files] accumulated consecutive ranges that
    tile the accumulated text, and [get_page_id] finds for every offset
    inside that text the one page that holds it, without a diagnostic. *)
Theorem accumulated_pages_tile_text :
  forall (na_url tr_url : string -> string) (pages : list PageLayout.t)
         (all_annotations : list Annotation.t) (all_pars : list string)
         (offset length : Z),
    process_pagexml_files na_url tr_url pages
    = Some (all_annotations, all_pars) ->
    NoDup (map (fun page => to_base_name (PageLayout.path page)) pages) ->
    0 <= offset < PyStr.len (PyStr.concat all_pars) ->
    ranges_per_scan all_annotations = page_ranges 0 pages
    /\ exists (k : nat) (page : PageLayout.t),
         pages !! k = Some page
         /\ page_start pages k <= offset < page_start pages (S k)
         /\ get_page_id offset length (ranges_per_scan all_annotations)
            = (to_base_name (PageLayout.path page), []).
Proof.
  intros na_url tr_url pages anns pars offset length H Hnd Hoff.
  unfold process_pagexml_files in H.
  pose proof (process_pagexml_files_loop_text _ _ _ _ _ _ _ _ H) as Htext.
  simpl in Htext. rewrite str_app_nil_l in Htext. rewrite Htext in Hoff.
  assert (Hranges : ranges_per_scan anns = page_ranges 0 pages).
  { rewrite ranges_per_scan_fold.
    rewrite (process_pagexml_files_loop_ranges _ _ _ _ _ _ _ _ H Hnd);
      [reflexivity|].
    intros page _ []. }
  split; [exact Hranges|].
  destruct (filter_page_ranges_inside pages 0 offset ltac:(lia))
    as (k & page & Hk & Hrange & Hfilter).
  exists k, page. split; [exact Hk|]. split; [lia|].
  unfold get_page_id. rewrite Hranges, Hfilter. reflexivity.
Qed.

Lemma two_sample_pages_names :
  NoDup (map (fun page => to_base_name (PageLayout.path page))
           [MoreSamples.page_one; MoreSamples.page_two]).
Proof.
  apply NoDup_cons. split.
  - intros H. apply list_elem_of_In in H. destruct H as [H|[]].
    vm_compute in H. discriminate H.
  - apply NoDup_cons. split; [|apply NoDup_nil; exact I].
    intros H. apply list_elem_of_In in H. destruct H.
Defined.

Lemma accumulated_pages_tile_text_witness :
  exists all_annotations all_pars,
    process_pagexml_files MoreSamples.url_of MoreSamples.url_of
      [MoreSamples.page_one; MoreSamples.page_two]
    = Some (all_annotations, all_pars)
    /\ ranges_per_scan all_annotations
       = [("NL_1_12_0001", (0, 4)); ("NL_1_12_0002", (4, 8))].
Proof.
  destruct (process_pagexml_files MoreSamples.url_of MoreSamples.url_of
              [MoreSamples.page_one; MoreSamples.page_two])
    as [[anns pars]|] eqn:Hrun; [|vm_compute in Hrun; discriminate Hrun].
  exists anns, pars. split; [reflexivity|].
  destruct (accumulated_pages_tile_text _ _ _ _ _ 5 1 Hrun
              two_sample_pages_names) as [Hranges _].
  - pose proof (process_pagexml_files_loop_text _ _ _ _ _ _ _ _ Hrun)
      as Htext.
    rewrite Htext. vm_compute. split; [discriminate | reflexivity].
  - rewrite Hranges. reflexivity.
Defined.

(** ** Malformed layouts *)

Section MalformedLayout.

Implicit Types (words : list DisplayWord.t) (idx : gmap string (Z * Z)).

Lemma word_loop_some (id_prefix : string) :
  forall words (text0 : string) (anns0 : list Annotation.t) idx0,
    is_Some (word_loop id_prefix words text0 anns0 idx0)
    <-> forallb has_px_word words = true.
Proof.
  induction words as [|w rest IH]; intros text0 anns0 idx0.
  - simpl. split; [reflexivity | intros _; eexists; reflexivity].
  - simpl. unfold word_annotation, has_px_word.
    destruct (DisplayWord.px_words w) as [|pxw more]; simpl.
    + split; [intros [x Hx]; discriminate | discriminate].
    + apply IH.
Qed.

(** The range index holds every display word the loop has seen. *)
Lemma word_loop_index (id_prefix : string) :
  forall words (text0 : string) (anns0 : list Annotation.t) idx0 text anns idx,
    word_loop id_prefix words text0 anns0 idx0 = Some (text, anns, idx) ->
    forall k : string,
      is_Some (idx0 !! k) \/ In k (map DisplayWord.id words) ->
      is_Some (idx !! k).
Proof.
  induction words as [|w rest IH];
    intros text0 anns0 idx0 text anns idx H k Hk.
  - simpl in H. injection H as <- <- <-. destruct Hk as [Hk | []]. exact Hk.
  - simpl in H.
    destruct (word_annotation id_prefix _ text0 w) as [wa|]; [|discriminate].
    simpl in H. apply (IH _ _ _ _ _ _ H).
    destruct Hk as [Hk | [<- | Hk]].
    + left. destruct (decide (DisplayWord.id w = k)) as [->|Hne].
      * rewrite lookup_insert_eq. eexists. reflexivity.
      * rewrite lookup_insert_ne by exact Hne. exact Hk.
    + left. rewrite lookup_insert_eq. eexists. reflexivity.
    + right. exact Hk.
Qed.

Lemma fold_insert_dom (range : Z * Z) (pws : list PXWord.t) :
  forall idx (x : string),
    is_Some (fold_left (fun index pw => <[PXWord.id pw := range]> index)
               pws idx !! x)
    <-> is_Some (idx !! x) \/ In x (map PXWord.id pws).
Proof.
  induction pws as [|pw rest IH]; intros idx x; simpl.
  - split; [intros H; left; exact H | intros [H | []]; exact H].
  - rewrite IH. destruct (decide (PXWord.id pw = x)) as [->|Hne].
    + rewrite lookup_insert_eq. split.
      * intros _. right. left. reflexivity.
      * intros _. left. eexists. reflexivity.
    + rewrite lookup_insert_ne by exact Hne. split.
      * intros [H | H]; [left; exact H | right; right; exact H].
      * intros [H | [H | H]]; [left; exact H | contradiction | right; exact H].
Qed.

(** [index_word_ranges] indexes exactly the ids of the layout words. *)
Lemma index_word_ranges_loop_dom :
  forall words (word_range_index : gmap string (Z * Z)) idx,
    (forall k, In k (map DisplayWord.id words) ->
       is_Some (word_range_index !! k)) ->
    exists result,
      index_word_ranges_loop words word_range_index idx = Some result
      /\ forall x : string,
           is_Some (result !! x)
           <-> is_Some (idx !! x) \/ In x (px_word_ids words).
Proof.
  induction words as [|w rest IH]; intros wri idx Hall.
  - exists idx. split; [reflexivity|]. intros x. unfold px_word_ids. simpl.
    split; [intros H; left; exact H | intros [H | []]; exact H].
  - simpl. destruct (Hall (DisplayWord.id w) ltac:(left; reflexivity))
      as [range Hrange].
    rewrite Hrange. simpl.
    destruct (IH wri
                (fold_left (fun index pw => <[PXWord.id pw := range]> index)
                   (DisplayWord.px_words w) idx))
      as (result & Hres & Hdom).
    { intros k Hk. apply Hall. right. exact Hk. }
    exists result. split; [exact Hres|].
    intros x. rewrite Hdom, fold_insert_dom. unfold px_word_ids. simpl.
    rewrite in_app_iff. tauto.
Qed.

Lemma element_range_some idx (first_word_id last_word_id : string) :
  is_Some (element_range idx first_word_id last_word_id)
  <-> is_Some (idx !! first_word_id) /\ is_Some (idx !! last_word_id).
Proof.
  unfold element_range.
  destruct (idx !! first_word_id) as [r1|]; simpl.
  - destruct (idx !! last_word_id) as [r2|]; simpl.
    + split; [intros _; split; eexists; reflexivity
             | intros _; eexists; reflexivity].
    + split; [intros [x Hx]; discriminate | intros [_ [x Hx]]; discriminate].
  - split; [intros [x Hx]; discriminate | intros [[x Hx] _]; discriminate].
Qed.

Lemma text_region_annotations_some (id_prefix : string) idx
    (regions : list PXTextRegion.t) :
  is_Some (text_region_annotations id_prefix idx regions)
  <-> forall x,
        In x (List.concat
                (map (fun r => [PXTextRegion.first_word_id r;
                                PXTextRegion.last_word_id r]) regions)) ->
        is_Some (idx !! x).
Proof.
  induction regions as [|r rest IH]; simpl.
  - split; [intros _ x [] | intros _; eexists; reflexivity].
  - destruct (element_range idx (PXTextRegion.first_word_id r)
                (PXTextRegion.last_word_id r)) as [[o l]|] eqn:Hr; simpl.
    + assert (Hsome : is_Some (element_range idx (PXTextRegion.first_word_id r)
                                 (PXTextRegion.last_word_id r)))
        by (rewrite Hr; eexists; reflexivity).
      apply element_range_some in Hsome as [H1 H2].
      destruct (text_region_annotations id_prefix idx rest) as [anns|];
        simpl.
      * split; [|intros _; eexists; reflexivity].
        intros _ x [<- | [<- | Hx]]; [exact H1 | exact H2|].
        apply IH; [eexists; reflexivity | exact Hx].
      * split; [intros [x Hx]; discriminate|].
        intros Hall. apply IH. intros x Hx. apply Hall. right. right. exact Hx.
    + split; [intros [x Hx]; discriminate|].
      intros Hall. exfalso.
      assert (Hsome : is_Some (element_range idx (PXTextRegion.first_word_id r)
                                 (PXTextRegion.last_word_id r))).
      { apply element_range_some. split; apply Hall.
        - left. reflexivity.
        - right. left. reflexivity. }
      rewrite Hr in Hsome. destruct Hsome as [x Hx]. discriminate.
Qed.

Lemma text_line_annotations_some (id_prefix : string) idx
    (lines : list PXTextLine.t) :
  is_Some (text_line_annotations id_prefix idx lines)
  <-> forall x,
        In x (List.concat
                (map (fun l => [PXTextLine.first_word_id l;
                                PXTextLine.last_word_id l]) lines)) ->
        is_Some (idx !! x).
Proof.
  induction lines as [|r rest IH]; simpl.
  - split; [intros _ x [] | intros _; eexists; reflexivity].
  - destruct (element_range idx (PXTextLine.first_word_id r)
                (PXTextLine.last_word_id r)) as [[o l]|] eqn:Hr; simpl.
    + assert (Hsome : is_Some (element_range idx (PXTextLine.first_word_id r)
                                 (PXTextLine.last_word_id r)))
        by (rewrite Hr; eexists; reflexivity).
      apply element_range_some in Hsome as [H1 H2].
      destruct (text_line_annotations id_prefix idx rest) as [anns|];
        simpl.
      * split; [|intros _; eexists; reflexivity].
        intros _ x [<- | [<- | Hx]]; [exact H1 | exact H2|].
        apply IH; [eexists; reflexivity | exact Hx].
      * split; [intros [x Hx]; discriminate|].
        intros Hall. apply IH. intros x Hx. apply Hall. right. right. exact Hx.
    + split; [intros [x Hx]; discriminate|].
      intros Hall. exfalso.
      assert (Hsome : is_Some (element_range idx (PXTextLine.first_word_id r)
                                 (PXTextLine.last_word_id r))).
      { apply element_range_some. split; apply Hall.
        - left. reflexivity.
        - right. left. reflexivity. }
      rewrite Hr in Hsome. destruct Hsome as [x Hx]. discriminate.
Qed.

End MalformedLayout.

(** X12: [process_pagexml] returns exactly when the layout is well formed:
    every display word holds at least one layout word, and the first and
    last word of every region and line are layout words held by some
    display word.  Any other layout raises, and nothing is returned for
    the page. *)
Theorem process_pagexml_well_formed :
  forall (na_url tr_url : string -> string) (page : PageLayout.t),
    is_Some (process_pagexml na_url tr_url page)
    <-> forallb has_px_word (PageLayout.display_words page) = true
        /\ forall x, In x (referenced_word_ids page) ->
             In x (px_word_ids (PageLayout.display_words page)).
Proof.
  intros na_url tr_url page. unfold process_pagexml.
  destruct (word_loop (make_id_prefix (PageLayout.scan_id page))
              (PageLayout.display_words page) "" [] ∅)
    as [[[text wanns] didx]|] eqn:Hloop.
  2:{ simpl. split; [intros [x Hx]; discriminate|].
      intros [Hpx _].
      apply (word_loop_some (make_id_prefix (PageLayout.scan_id page))
               (PageLayout.display_words page) "" [] ∅) in Hpx.
      rewrite Hloop in Hpx. destruct Hpx as [x Hx]. discriminate. }
  assert (Hpx : forallb has_px_word (PageLayout.display_words page) = true).
  { apply (word_loop_some (make_id_prefix (PageLayout.scan_id page)) _ "" [] ∅).
    rewrite Hloop. eexists. reflexivity. }
  simpl. unfold index_word_ranges.
  destruct (index_word_ranges_loop_dom (PageLayout.display_words page) didx ∅)
    as (pidx & Hidx & Hdom).
  { intros k Hk. apply (word_loop_index _ _ _ _ _ _ _ _ Hloop). right.
    exact Hk. }
  rewrite Hidx. simpl.
  assert (Hdom' : forall x, is_Some (pidx !! x)
                    <-> In x (px_word_ids (PageLayout.display_words page))).
  { intros x. rewrite Hdom, lookup_empty. split.
    - intros [[y Hy] | H]; [discriminate | exact H].
    - intros H. right. exact H. }
  pose proof (text_region_annotations_some
                (make_id_prefix (PageLayout.scan_id page)) pidx
                (PageLayout.text_regions page)) as Hregs.
  pose proof (text_line_annotations_some
                (make_id_prefix (PageLayout.scan_id page)) pidx
                (PageLayout.text_lines page)) as Hlines.
  unfold referenced_word_ids.
  destruct (text_region_annotations _ pidx _) as [regs|]; simpl.
  - destruct (text_line_annotations _ pidx _) as [lines|]; simpl.
    + split; [|intros _; eexists; reflexivity].
      intros _. split; [exact Hpx|].
      intros x Hx. apply Hdom'. apply in_app_or in Hx as [Hx | Hx].
      * apply Hregs; [eexists; reflexivity | exact Hx].
      * apply Hlines; [eexists; reflexivity | exact Hx].
    + split; [intros [x Hx]; discriminate|].
      intros [_ Hall]. exfalso.
      assert (Hs : is_Some (@None (list Annotation.t))).
      { apply Hlines. intros x Hx. apply Hdom'. apply Hall.
        apply in_or_app. right. exact Hx. }
      destruct Hs as [x Hx]. discriminate.
  - split; [intros [x Hx]; discriminate|].
    intros [_ Hall]. exfalso.
    assert (Hs : is_Some (@None (list Annotation.t))).
    { apply Hregs. intros x Hx. apply Hdom'. apply Hall.
      apply in_or_app. left. exact Hx. }
    destruct Hs as [x Hx]. discriminate.
Qed.

Lemma process_pagexml_well_formed_witness :
  is_Some (process_pagexml MoreSamples.url_of MoreSamples.url_of
             MoreSamples.page_one).
Proof.
  apply (process_pagexml_well_formed MoreSamples.url_of MoreSamples.url_of
           MoreSamples.page_one).
  split; [reflexivity|].
  intros x Hx. vm_compute in Hx. vm_compute. tauto.
Defined.

(** ** Tokens of the paragraphs *)

Section Tokenizer.

Variable nlp : string -> list (list SpacyToken.t).

Implicit Types (tokens : list GTToken.t) (pars : list string).

(** The tokens of a paragraph are the kept tokens of its sentences. *)
Lemma paragraph_tokens (text_offset : Z) (sents : list (list SpacyToken.t)) :
  List.concat (map (sentence_tokens text_offset) sents)
  = map (to_token text_offset) (List.filter keep (List.concat sents)).
Proof.
  induction sents as [|sentence rest IH]; [reflexivity|].
  simpl. rewrite IH, List.filter_app, map_app. reflexivity.
Qed.

Lemma ascending_after_mono tokens :
  forall p p' : Z,
    p' <= p -> ascending_after p tokens = true ->
    ascending_after p' tokens = true.
Proof.
  induction tokens as [|t rest IH]; intros p p' Hle H; [reflexivity|].
  simpl in *. destruct (-1 <? GTToken.offset t).
  - apply andb_true_iff in H as [H1 H2]. apply Z.ltb_lt in H1.
    apply andb_true_iff. split; [apply Z.ltb_lt; lia | exact H2].
  - apply (IH p p' Hle H).
Qed.

Lemma ascending_after_app tokens1 tokens2 (m : Z) :
  forall p : Z,
    ascending_after p tokens1 = true ->
    (forall t, In t tokens1 -> is_real t -> GTToken.offset t <= m) ->
    p <= m ->
    ascending_after m tokens2 = true ->
    ascending_after p (tokens1 ++ tokens2) = true.
Proof.
  induction tokens1 as [|t rest IH]; intros p H1 Hbound Hp H2.
  - simpl. apply (ascending_after_mono tokens2 m p Hp H2).
  - simpl in *. destruct (Z.ltb_spec (-1) (GTToken.offset t)) as [Hr | Hs].
    + apply andb_true_iff in H1 as [Hlt Hrest]. apply andb_true_iff.
      split; [exact Hlt|].
      apply IH;
        [ exact Hrest
        | intros t' Ht' Hr'; apply Hbound; [right; exact Ht' | exact Hr']
        | apply Hbound; [left; reflexivity | exact Hr]
        | exact H2 ].
    + apply IH;
        [ exact H1
        | intros t' Ht' Hr'; apply Hbound; [right; exact Ht' | exact Hr']
        | exact Hp
        | exact H2 ].
Qed.

Lemma ascending_after_kept (text_offset hi : Z) (kept : list SpacyToken.t) :
  forall lo : Z,
    0 <= text_offset -> 0 <= lo ->
    increasing_within lo hi (map SpacyToken.idx kept) = true ->
    ascending_after (text_offset + lo - 1) (map (to_token text_offset) kept)
    = true
    /\ forall t, In t (map (to_token text_offset) kept) ->
         text_offset <= GTToken.offset t < text_offset + hi.
Proof.
  induction kept as [|k rest IH]; intros lo Hoff Hlo H.
  - split; [reflexivity | intros t []].
  - simpl in H. apply andb_true_iff in H as [H Hrest].
    apply andb_true_iff in H as [Hge Hlt].
    apply Z.leb_le in Hge. apply Z.ltb_lt in Hlt.
    destruct (IH (SpacyToken.idx k + 1) Hoff ltac:(lia) Hrest)
      as [Hasc Hbound].
    split.
    + simpl.
      destruct (Z.ltb_spec (-1) (text_offset + SpacyToken.idx k)) as [_|];
        [|lia].
      apply andb_true_iff. split; [apply Z.ltb_lt; lia|].
      replace (text_offset + SpacyToken.idx k)
        with (text_offset + (SpacyToken.idx k + 1) - 1) by lia.
      exact Hasc.
    + intros t [<- | Ht].
      * simpl. lia.
      * specialize (Hbound t Ht). lia.
Qed.

Lemma str_len_nonneg (s : string) : 0 <= PyStr.len s.
Proof. unfold PyStr.len. lia. Qed.

Lemma tokenize_per_paragraph_loop_spec :
  forall pars tokens (text_offset : Z),
    0 <= text_offset ->
    ascending tokens = true ->
    (forall t, In t tokens -> is_real t -> GTToken.offset t < text_offset) ->
    forallb (tokenizer_in_order nlp) pars = true ->
    ascending (tokenize_per_paragraph_loop nlp pars tokens text_offset) = true
    /\ (forall t,
          In t (tokenize_per_paragraph_loop nlp pars tokens text_offset) ->
          is_real t ->
          GTToken.offset t < text_offset + PyStr.len (PyStr.concat pars))
    /\ length (List.filter is_sentinel
                 (tokenize_per_paragraph_loop nlp pars tokens text_offset))
       = (length (List.filter is_sentinel tokens) + length pars)%nat.
Proof.
  induction pars as [|par rest IH]; intros tokens text_offset Hoff Hasc Hb Hin.
  - simpl. split; [exact Hasc|]. split.
    + intros t Ht Hr. specialize (Hb t Ht Hr).
      change (PyStr.len "") with 0. lia.
    + lia.
  - simpl in Hin. apply andb_true_iff in Hin as [Hpar Hrest].
    simpl. rewrite paragraph_tokens.
    unfold tokenizer_in_order, kept_idxs in Hpar.
    fold keep in Hpar.
    set (kept := List.filter keep (List.concat (nlp par))) in *.
    destruct (ascending_after_kept text_offset (PyStr.len par) kept 0 Hoff
                ltac:(lia) Hpar) as [Hnew Hnewb].
    pose proof (str_len_nonneg par) as Hlen.
    destruct (IH ((tokens ++ map (to_token text_offset) kept)
                  ++ [GTToken.mk "" "" (-1)])
                (text_offset + PyStr.len par) ltac:(lia)) as (H1 & H2 & H3).
    + unfold ascending. rewrite <- app_assoc.
      apply (ascending_after_app tokens _ (text_offset - 1)).
      * exact Hasc.
      * intros t Ht Hr. specialize (Hb t Ht Hr). lia.
      * lia.
      * apply (ascending_after_app _ _ (text_offset + PyStr.len par)).
        -- replace (text_offset - 1) with (text_offset + 0 - 1) by lia.
           exact Hnew.
        -- intros t Ht _. specialize (Hnewb t Ht). lia.
        -- lia.
        -- reflexivity.
    + intros t Ht Hr. apply in_app_or in Ht as [Ht | [<- | []]].
      * apply in_app_or in Ht as [Ht | Ht].
        -- specialize (Hb t Ht Hr). lia.
        -- specialize (Hnewb t Ht). lia.
      * unfold is_real in Hr. simpl in Hr. lia.
    + exact Hrest.
    + split; [exact H1|]. split.
      * intros t Ht Hr. specialize (H2 t Ht Hr). rewrite str_len_app. lia.
      * rewrite H3, !List.filter_app, !length_app.
        assert (Hnone : List.filter is_sentinel
                          (map (to_token text_offset) kept) = []).
        { clear -Hnewb Hoff. induction kept as [|k more IHk]; [reflexivity|].
          simpl. unfold is_sentinel at 1. simpl.
          pose proof (Hnewb (to_token text_offset k) ltac:(left; reflexivity))
            as Hk. simpl in Hk.
          destruct (Z.eqb_spec (text_offset + SpacyToken.idx k) (-1)) as [|_];
            [lia|].
          apply IHk. intros t Ht. apply Hnewb. right. exact Ht. }
        rewrite Hnone. simpl. lia.
Qed.

(** The segments of the tokens of one paragraph the tokenizer loses
    nothing of. *)
Lemma export_segments_kept (text_offset : Z) (kept : list SpacyToken.t) :
  Forall (fun t => SpacyToken.text_with_ws t <> "") kept ->
  export_segments (map (to_token text_offset) kept)
  = map SpacyToken.text_with_ws kept.
Proof.
  induction kept as [|k rest IH]; intros Hall; [reflexivity|].
  apply Forall_cons in Hall as [Hk Hrest]. simpl.
  apply String.eqb_neq in Hk. rewrite Hk.
  f_equal. apply IH. exact Hrest.
Qed.

Lemma export_segments_app tokens1 tokens2 :
  export_segments (tokens1 ++ tokens2)
  = export_segments tokens1 ++ export_segments tokens2.
Proof. unfold export_segments. apply map_app. Qed.

Lemma tokenize_per_paragraph_loop_segments :
  forall pars tokens (text_offset : Z),
    (forall par, In par pars -> tokenizer_lossless nlp par) ->
    PyStr.concat
      (export_segments (tokenize_per_paragraph_loop nlp pars tokens text_offset))
    = PyStr.concat (export_segments tokens) +:+ PyStr.concat pars.
Proof.
  induction pars as [|par rest IH]; intros tokens text_offset Hall.
  - simpl. rewrite str_app_nil_r. reflexivity.
  - simpl. rewrite IH by (intros p Hp; apply Hall; right; exact Hp).
    destruct (Hall par ltac:(left; reflexivity)) as [Htext Hws].
    rewrite paragraph_tokens, !export_segments_app, !concat_app.
    fold keep in Htext, Hws.
    rewrite (export_segments_kept text_offset _ Hws).
    rewrite !str_app_assoc. f_equal.
    rewrite <- str_app_assoc. f_equal.
    rewrite <- Htext at 2. simpl. rewrite str_app_nil_r. reflexivity.
Qed.

End Tokenizer.

(** X13: when the tokenizer reports the tokens of every paragraph in
    reading order and inside the paragraph, [tokenize_per_paragraph]
    returns a token list whose real tokens have strictly increasing
    offsets, all inside the concatenated text, with exactly one
    paragraph-boundary sentinel per paragraph. *)
Theorem tokenize_per_paragraph_ascending :
  forall (nlp : string -> list (list SpacyToken.t)) (all_pars : list string),
    forallb (tokenizer_in_order nlp) all_pars = true ->
    ascending (tokenize_per_paragraph nlp all_pars) = true
    /\ (forall t, In t (tokenize_per_paragraph nlp all_pars) -> is_real t ->
          0 <= GTToken.offset t < PyStr.len (PyStr.concat all_pars))
    /\ length (List.filter is_sentinel (tokenize_per_paragraph nlp all_pars))
       = length all_pars.
Proof.
  intros nlp all_pars Hin. unfold tokenize_per_paragraph.
  destruct (tokenize_per_paragraph_loop_spec nlp all_pars [] 0 ltac:(lia)
              eq_refl ltac:(intros t []) Hin) as (Hasc & Hbound & Hcount).
  split; [exact Hasc|]. split.
  - intros t Ht Hr. specialize (Hbound t Ht Hr). unfold is_real in Hr. lia.
  - rewrite Hcount. reflexivity.
Qed.

Lemma tokenize_per_paragraph_ascending_witness :
  forallb (tokenizer_in_order MoreSamples.nlp) MoreSamples.go_home_twice = true
  /\ ascending (tokenize_per_paragraph MoreSamples.nlp
                  MoreSamples.go_home_twice) = true.
Proof.
  split; [reflexivity|].
  apply (tokenize_per_paragraph_ascending MoreSamples.nlp
           MoreSamples.go_home_twice). reflexivity.
Defined.

(** X14: when the tokenizer loses nothing of any paragraph, the segments
    [export] writes for the tokens of [tokenize_per_paragraph], put
    together, are the plain text [export] writes: the paragraphs, put
    together. *)
Theorem export_segments_reassemble_text :
  forall (nlp : string -> list (list SpacyToken.t)) (all_pars : list string),
    (forall par, In par all_pars -> tokenizer_lossless nlp par) ->
    PyStr.concat (export_segments (tokenize_per_paragraph nlp all_pars))
    = PyStr.concat all_pars.
Proof.
  intros nlp all_pars Hall. unfold tokenize_per_paragraph.
  rewrite tokenize_per_paragraph_loop_segments by exact Hall.
  reflexivity.
Qed.

Lemma export_segments_reassemble_text_witness :
  (forall par, In par MoreSamples.go_home_twice ->
     tokenizer_lossless MoreSamples.nlp par)
  /\ PyStr.concat
       (export_segments
          (tokenize_per_paragraph MoreSamples.nlp MoreSamples.go_home_twice))
     = "Go home." +:+ PyStr.nl +:+ "Go home." +:+ PyStr.nl.
Proof.
  assert (Hall : forall par, In par MoreSamples.go_home_twice ->
                   tokenizer_lossless MoreSamples.nlp par).
  { intros par [<- | [<- | []]]; (split; [reflexivity|]);
      vm_compute; repeat (apply Forall_cons; split; [discriminate|]);
      apply Forall_nil; exact I. }
  split; [exact Hall|].
  rewrite (export_segments_reassemble_text MoreSamples.nlp
             MoreSamples.go_home_twice Hall).
  reflexivity.
Defined.

(** ** The context of a quote *)

Section QuoteContext.

Implicit Types (s : string) (c : ascii).

Lemma substring_length_le s :
  forall n m : nat, (String.length (substring n m s) <= m)%nat.
Proof.
  induction s as [|ch s IH]; intros n m.
  - destruct n, m; simpl; lia.
  - destruct n as [|n].
    + destruct m as [|m]; simpl; [lia|]. specialize (IH 0%nat m). lia.
    + simpl. apply IH.
Qed.

Lemma substring_split s :
  forall k : nat, (k <= String.length s)%nat ->
    substring 0 k s +:+ substring k (String.length s - k) s = s.
Proof.
  induction s as [|ch s IH]; intros k Hk.
  - simpl in Hk. replace k with 0%nat by lia. reflexivity.
  - destruct k as [|k].
    + simpl. rewrite str_app_nil_l, substring_all. reflexivity.
    + simpl in Hk. simpl. rewrite str_app_cons, IH by lia. reflexivity.
Qed.

Lemma substring_0_min s :
  forall k : nat,
    substring 0 (Nat.min k (String.length s)) s = substring 0 k s.
Proof.
  induction s as [|ch s IH]; intros k.
  - destruct k; reflexivity.
  - destruct k as [|k]; [reflexivity|]. simpl. rewrite IH. reflexivity.
Qed.

Lemma contains_char_substring c s :
  forall n m : nat,
    contains_char c s = false -> contains_char c (substring n m s) = false.
Proof.
  induction s as [|ch s IH]; intros n m H.
  - destruct n, m; reflexivity.
  - simpl in H. apply orb_false_iff in H as [Hch Hs].
    destruct n as [|n].
    + destruct m as [|m]; [reflexivity|]. simpl. rewrite Hch. simpl.
      apply IH. exact Hs.
    + simpl. apply IH. exact Hs.
Qed.

Lemma replace_char_length (a b : ascii) s :
  String.length (PyStr.replace_char a b s) = String.length s.
Proof. induction s as [|ch s IH]; simpl; [reflexivity | rewrite IH; reflexivity]. Qed.

Lemma replace_char_absent (a b : ascii) s :
  a <> b -> contains_char a (PyStr.replace_char a b s) = false.
Proof.
  intros Hab. induction s as [|ch s IH]; [reflexivity|]. simpl.
  rewrite IH, orb_false_r.
  destruct (Ascii.eqb_spec ch a) as [->|Hne].
  - apply Ascii.eqb_neq. congruence.
  - apply Ascii.eqb_neq. exact Hne.
Qed.

Lemma rfind_from_bounds c s :
  forall (i : Z) (n : nat) (j : Z),
    PyStr.rfind_from c s i n = Some j ->
    i <= j < i + Z.of_nat (Nat.min n (String.length s)).
Proof.
  induction s as [|ch s IH]; intros i n j H.
  - destruct n; discriminate.
  - destruct n as [|n]; [discriminate|]. simpl in H.
    destruct (PyStr.rfind_from c s (i + 1) n) as [j'|] eqn:E.
    + injection H as <-. apply IH in E. simpl. lia.
    + destruct (Ascii.eqb ch c); [|discriminate].
      injection H as <-. simpl. lia.
Qed.

Lemma rfind_from_none c s :
  forall (i : Z) (n : nat),
    PyStr.rfind_from c s i n = None ->
    contains_char c (substring 0 n s) = false.
Proof.
  induction s as [|ch s IH]; intros i n H.
  - destruct n; reflexivity.
  - destruct n as [|n]; [reflexivity|]. simpl in H.
    destruct (PyStr.rfind_from c s (i + 1) n) as [j'|] eqn:E; [discriminate|].
    destruct (Ascii.eqb ch c) eqn:Hch; [discriminate|].
    simpl. rewrite Hch. simpl. apply (IH _ _ E).
Qed.

Lemma rfind_from_some c s :
  forall (i : Z) (n : nat) (j : Z),
    PyStr.rfind_from c s i n = Some j ->
    contains_char c (substring 0 n s) = true.
Proof.
  induction s as [|ch s IH]; intros i n j H.
  - destruct n; discriminate.
  - destruct n as [|n]; [discriminate|]. simpl in H. simpl.
    destruct (PyStr.rfind_from c s (i + 1) n) as [j'|] eqn:E.
    + rewrite (IH _ _ _ E). apply orb_true_r.
    + destruct (Ascii.eqb ch c); [reflexivity | discriminate].
Qed.

Lemma slice_length_le s (lo hi : Z) :
  0 <= lo -> 0 <= hi -> PyStr.len (PyStr.slice s lo hi) <= Z.max 0 (hi - lo).
Proof.
  intros Hlo Hhi. unfold PyStr.slice, PyStr.slice_bound, PyStr.len.
  destruct (Z.ltb_spec lo 0) as [|_]; [lia|].
  destruct (Z.ltb_spec hi 0) as [|_]; [lia|].
  match goal with
  | |- Z.of_nat (String.length (substring ?n ?m s)) <= _ =>
      pose proof (substring_length_le s n m)
  end. lia.
Qed.

(** The first [stop] characters of [s], as [s[:stop]]. *)
Lemma slice_to_substring s (stop : nat) :
  PyStr.slice_to s (Z.of_nat stop) = substring 0 stop s.
Proof.
  unfold PyStr.slice_to, PyStr.slice, PyStr.slice_bound, PyStr.len.
  destruct (Z.ltb_spec 0 0) as [|_]; [lia|].
  destruct (Z.ltb_spec (Z.of_nat stop) 0) as [|_]; [lia|].
  rewrite Z.min_l by lia. simpl (Z.to_nat 0).
  replace (Z.to_nat (Z.min (Z.of_nat stop) (Z.of_nat (String.length s)) - 0))
    with (Nat.min stop (String.length s)) by lia.
  apply substring_0_min.
Qed.

(** What [window.rfind(' ', 0, stop)] and the two slices at its result
    give. *)
Lemma rfind_cut s (stop : nat) :
  match PyStr.rfind_from " " s 0 stop with
  | Some j =>
      0 <= j < Z.of_nat stop
      /\ PyStr.rfind " " s (Z.of_nat stop) = j
      /\ contains_char " " (PyStr.slice_to s (Z.of_nat stop)) = true
      /\ PyStr.slice_to s (j + 1) +:+ PyStr.slice_from s (j + 1) = s
      /\ PyStr.slice_to s j +:+ PyStr.slice_from s j = s
      /\ PyStr.len (PyStr.slice_to s (j + 1)) <= j + 1
      /\ PyStr.len (PyStr.slice_to s j) <= j
  | None =>
      PyStr.rfind " " s (Z.of_nat stop) = -1
      /\ contains_char " " (PyStr.slice_to s (Z.of_nat stop)) = false
  end.
Proof.
  unfold PyStr.rfind. rewrite Nat2Z.id, slice_to_substring.
  destruct (PyStr.rfind_from " " s 0 stop) as [j|] eqn:E.
  - pose proof (rfind_from_bounds _ _ _ _ _ E) as Hj.
    pose proof (rfind_from_some _ _ _ _ _ E) as Hsome.
    assert (Hcut : forall k : Z, 0 <= k <= PyStr.len s ->
              PyStr.slice_to s k +:+ PyStr.slice_from s k = s
              /\ PyStr.len (PyStr.slice_to s k) <= k).
    { intros k Hk. unfold PyStr.len in Hk.
      replace k with (Z.of_nat (Z.to_nat k)) by lia.
      rewrite slice_to_substring. split.
      - unfold PyStr.slice_from, PyStr.slice, PyStr.slice_bound, PyStr.len.
        destruct (Z.ltb_spec (Z.of_nat (Z.to_nat k)) 0) as [|_]; [lia|].
        destruct (Z.ltb_spec (Z.of_nat (String.length s)) 0) as [|_]; [lia|].
        rewrite Z.min_l, Z.min_id by lia. rewrite Nat2Z.id.
        replace (Z.to_nat (Z.of_nat (String.length s) - Z.of_nat (Z.to_nat k)))
          with (String.length s - Z.to_nat k)%nat by lia.
        apply substring_split. lia.
      - unfold PyStr.len.
        pose proof (substring_length_le s 0 (Z.to_nat k)). lia. }
    unfold PyStr.len in Hcut.
    destruct (Hcut (j + 1) ltac:(lia)) as [H1 H2].
    destruct (Hcut j ltac:(lia)) as [H3 H4].
    repeat split; try assumption; try lia.
  - split; [reflexivity|]. apply (rfind_from_none _ _ _ _ E).
Qed.

End QuoteContext.

(** X16: the prefix of a quote is cut from the window of up to twice
    [max_fix_len] characters before the annotation, left-stripped and with
    newlines turned into spaces: at most the first [max_fix_len] characters
    of the window are cut off, up to and including a space, so the prefix
    can be up to twice [max_fix_len] long; it holds no newline, and is the
    whole window when no space stands among the window's first
    [max_fix_len] characters. *)
Theorem get_prefix_window :
  forall (self : XMIProcessor.t) (a : FeatureStructure) (a_begin : Z),
    Feature.begin a = Some a_begin ->
    0 <= a_begin ->
    let window :=
      PyStr.replace_char "010" " "
        (PyStr.lstrip
           (PyStr.slice (XMIProcessor.text self)
              (Z.max 0 (a_begin - XMIProcessor.max_fix_len * 2)) a_begin)) in
    exists prefix cut : string,
      XMIProcessor._get_prefix self a = Some prefix
      /\ cut +:+ prefix = window
      /\ PyStr.len cut <= XMIProcessor.max_fix_len
      /\ PyStr.len prefix <= 2 * XMIProcessor.max_fix_len
      /\ contains_char "010" prefix = false
      /\ (contains_char " " (PyStr.slice_to window XMIProcessor.max_fix_len)
          = false -> prefix = window).
Proof.
  intros self a a_begin Hbegin Hpos window.
  unfold XMIProcessor._get_prefix. rewrite Hbegin. simpl.
  fold window.
  assert (Hlen : PyStr.len window <= 2 * XMIProcessor.max_fix_len).
  { unfold window, PyStr.len. rewrite replace_char_length.
    match goal with
    | |- Z.of_nat (String.length (PyStr.lstrip ?w)) <= _ =>
        pose proof (lstrip_length w) as Hl;
        pose proof (slice_length_le (XMIProcessor.text self)
                      (Z.max 0 (a_begin - XMIProcessor.max_fix_len * 2))
                      a_begin ltac:(lia) Hpos) as Hs
    end.
    unfold PyStr.len, XMIProcessor.max_fix_len in *. lia. }
  assert (Hnl : contains_char "010" window = false).
  { unfold window. apply replace_char_absent. discriminate. }
  pose proof (rfind_cut window 20) as Hcut.
  change (Z.of_nat 20) with XMIProcessor.max_fix_len in Hcut.
  destruct (PyStr.rfind_from " " window 0 20) as [j|].
  - destruct Hcut as (Hj & Hr & Hsp & Happ & _ & Hcutlen & _).
    rewrite Hr. destruct (Z.eqb_spec j (-1)) as [|_]; [lia|].
    exists (PyStr.slice_from window (j + 1)), (PyStr.slice_to window (j + 1)).
    split; [reflexivity|]. split; [exact Happ|].
    split; [unfold XMIProcessor.max_fix_len in *; lia|].
    split.
    + rewrite <- Happ in Hlen at 1. rewrite str_len_app in Hlen.
      pose proof (str_len_nonneg (PyStr.slice_to window (j + 1))). lia.
    + split.
      * apply contains_char_substring. exact Hnl.
      * rewrite Hsp. discriminate.
  - destruct Hcut as [Hr Hsp]. rewrite Hr. simpl.
    exists window, "". split; [reflexivity|].
    split; [apply str_app_nil_l|].
    split; [unfold XMIProcessor.max_fix_len, PyStr.len; simpl; lia|].
    split; [exact Hlen|]. split; [exact Hnl | reflexivity].
Qed.

Lemma get_prefix_window_witness :
  exists prefix cut : string,
    XMIProcessor._get_prefix MoreSamples.voyage MoreSamples.entity_batavia
    = Some prefix
    /\ cut +:+ prefix = "The ship sailed from the roads of "
    /\ PyStr.len cut <= 20.
Proof.
  destruct (get_prefix_window MoreSamples.voyage MoreSamples.entity_batavia 34
              eq_refl ltac:(lia)) as (prefix & cut & H & Happ & Hcut & _).
  exists prefix, cut. split; [exact H|]. split; [exact Happ | exact Hcut].
Defined.

(** X17: the suffix of a quote is cut from the window of up to twice
    [max_fix_len] characters after the annotation, right-stripped and with
    newlines turned into spaces: it is the start of the window, holds no
    newline, is shorter than [max_fix_len] when a space stands among the
    window's first [max_fix_len] characters (it ends before the last such
    space), and is the whole window, of up to twice [max_fix_len]
    characters, when none does. *)
Theorem get_suffix_window :
  forall (self : XMIProcessor.t) (a : FeatureStructure) (a_end : Z),
    Feature.end_ a = Some a_end ->
    0 <= a_end ->
    XMIProcessor.text_len self = PyStr.len (XMIProcessor.text self) ->
    let window :=
      PyStr.replace_char "010" " "
        (PyStr.rstrip
           (PyStr.slice (XMIProcessor.text self) a_end
              (Z.min (XMIProcessor.text_len self)
                 (a_end + XMIProcessor.max_fix_len * 2)))) in
    exists suffix rest : string,
      XMIProcessor._get_suffix self a = Some suffix
      /\ suffix +:+ rest = window
      /\ PyStr.len suffix <= 2 * XMIProcessor.max_fix_len
      /\ contains_char "010" suffix = false
      /\ (contains_char " " (PyStr.slice_to window XMIProcessor.max_fix_len)
          = true -> PyStr.len suffix < XMIProcessor.max_fix_len)
      /\ (contains_char " " (PyStr.slice_to window XMIProcessor.max_fix_len)
          = false -> suffix = window).
Proof.
  intros self a a_end Hend Hpos Htl window.
  unfold XMIProcessor._get_suffix. rewrite Hend. simpl.
  fold window.
  assert (Hlen : PyStr.len window <= 2 * XMIProcessor.max_fix_len).
  { unfold window, PyStr.len. rewrite replace_char_length.
    pose proof (str_len_nonneg (XMIProcessor.text self)) as Hn.
    match goal with
    | |- Z.of_nat (String.length (PyStr.rstrip ?w)) <= _ =>
        pose proof (rstrip_length w) as Hl;
        pose proof (slice_length_le (XMIProcessor.text self) a_end
                      (Z.min (XMIProcessor.text_len self)
                         (a_end + XMIProcessor.max_fix_len * 2))
                      Hpos ltac:(unfold XMIProcessor.max_fix_len; lia)) as Hs
    end.
    unfold PyStr.len, XMIProcessor.max_fix_len in *. lia. }
  assert (Hnl : contains_char "010" window = false).
  { unfold window. apply replace_char_absent. discriminate. }
  pose proof (rfind_cut window 20) as Hcut.
  change (Z.of_nat 20) with XMIProcessor.max_fix_len in Hcut.
  destruct (PyStr.rfind_from " " window 0 20) as [j|].
  - destruct Hcut as (Hj & Hr & Hsp & _ & Happ & _ & Hcutlen).
    rewrite Hr. destruct (Z.eqb_spec j (-1)) as [|_]; [lia|].
    exists (PyStr.slice_to window j), (PyStr.slice_from window j).
    split; [reflexivity|]. split; [exact Happ|].
    split; [unfold XMIProcessor.max_fix_len in *; lia|].
    split; [apply contains_char_substring; exact Hnl|].
    split.
    + intros _. lia.
    + rewrite Hsp. discriminate.
  - destruct Hcut as [Hr Hsp]. rewrite Hr. simpl.
    exists window, "". split; [reflexivity|].
    split; [apply str_app_nil_r|].
    split; [exact Hlen|]. split; [exact Hnl|].
    split; [rewrite Hsp; discriminate | reflexivity].
Qed.

Lemma get_suffix_window_witness :
  exists suffix rest : string,
    XMIProcessor._get_suffix MoreSamples.voyage MoreSamples.entity_batavia
    = Some suffix
    /\ suffix +:+ rest = " to the Cape in the month of May"
    /\ PyStr.len suffix < 20.
Proof.
  destruct (get_suffix_window MoreSamples.voyage MoreSamples.entity_batavia 41
              eq_refl ltac:(lia) eq_refl)
    as (suffix & rest & H & Happ & _ & _ & Hshort & _).
  exists suffix, rest. split; [exact H|]. split; [exact Happ|].
  apply Hshort. reflexivity.
Defined.

(** A page, a paragraph and a token of one page, within the key's width. *)
Lemma sort_annotations_within_key_width_witness :
  let spans :=
    [ Samples.annotation "tt:Token" "p1" 5 1 "txt-v1";
      Samples.annotation "tt:Paragraph" "p1" 0 8 "txt-v1";
      Samples.annotation "px:Page" "p1" 0 20 "txt-v1" ] in
  Forall within_key_width spans /\ sort_annotations spans ≡ₚ spans.
Proof.
  intros spans.
  assert (Hwidth : Forall within_key_width spans).
  { repeat (apply Forall_cons; split;
            [unfold within_key_width; simpl; lia|]).
    apply Forall_nil; exact I. }
  split; [exact Hwidth|].
  apply (sort_annotations_within_key_width spans Hwidth).
Defined.

(** ** The processor of a file *)

Section FirstMatch.

Variable md5_hexdigest : string -> string.

Lemma checksum_first_match (md5 : string)
    (pre post : list (string * DocumentData)) (key : string)
    (d : DocumentData) :
  (forall key' d', In (key', d') pre -> plain_text_md5 d' <> md5) ->
  plain_text_md5 d = md5 ->
  List.filter (fun d => String.eqb (plain_text_md5 d) md5)
    (map snd (pre ++ (key, d) :: post))
  = d :: List.filter (fun d => String.eqb (plain_text_md5 d) md5)
           (map snd post).
Proof.
  intros Hpre Hd. rewrite map_app, List.filter_app.
  rewrite (no_checksum_match md5 pre Hpre). simpl.
  apply String.eqb_eq in Hd. rewrite Hd. reflexivity.
Qed.

End FirstMatch.

(** X18: when several document-data records carry the MD5 of the text, the
    processor is built from the first of them in file order and the others
    are passed over in silence: the source is that record's
    [plain_text_source], the index holds exactly its intervals, once each,
    [text_len] is the length of the text, and nothing but the file name is
    logged.  When one of its intervals is null (its end not after its
    begin) the construction raises instead. *)
Theorem init_first_match :
  forall (md5_hexdigest : string -> string)
         (pre post : list (string * DocumentData)) (key : string)
         (d : DocumentData) (xmi_path sofa_string : string),
    (forall key' d', In (key', d') pre ->
       plain_text_md5 d' <> md5_hexdigest sofa_string) ->
    plain_text_md5 d = md5_hexdigest sofa_string ->
    let intervals :=
      map (fun iv => Interval.mk (fst (fst iv)) (snd (fst iv)) (snd iv))
        (text_intervals d) in
    let result :=
      XMIProcessor.init md5_hexdigest (pre ++ (key, d) :: post) xmi_path
        sofa_string in
    (existsb IntervalTree.is_null intervals = true -> result = None)
    /\ (existsb IntervalTree.is_null intervals = false ->
        exists self,
          result = Some (self, [LogInfo ("<= " +:+ xmi_path)])
          /\ XMIProcessor.text self = sofa_string
          /\ XMIProcessor.text_len self = PyStr.len sofa_string
          /\ XMIProcessor.source self = plain_text_source d
          /\ NoDup (XMIProcessor.itree self)
          /\ forall iv, In iv (XMIProcessor.itree self) <-> In iv intervals).
Proof.
  intros md5_hexdigest pre post key d xmi_path sofa_string Hpre Hd
    intervals result.
  unfold result, XMIProcessor.init.
  rewrite (checksum_first_match _ pre post key d Hpre Hd).
  unfold IntervalTree.from_intervals. fold intervals.
  split; intros Hnull; rewrite Hnull; simpl; [reflexivity|].
  eexists. split; [reflexivity|]. simpl.
  split; [reflexivity|]. split; [reflexivity|]. split; [reflexivity|].
  split.
  - apply NoDup_remove_dups.
  - intros iv. rewrite <- !list_elem_of_In. apply elem_of_remove_dups.
Qed.

Lemma init_first_match_witness :
  exists self,
    XMIProcessor.init Samples.digest
      (Samples.document_data
       ++ [("doc2",
            mkDocumentData (Samples.digest "Go home now.")
              "https://textrepo.example/doc2" [])])
      "doc1.xmi" "Go home now."
    = Some (self, [LogInfo ("<= " +:+ "doc1.xmi")])
    /\ XMIProcessor.source self = "https://textrepo.example/doc1".
Proof.
  destruct (init_first_match Samples.digest [] 
              [("doc2",
                mkDocumentData (Samples.digest "Go home now.")
                  "https://textrepo.example/doc2" [])]
              "doc1"
              (mkDocumentData (Samples.digest "Go home now.")
                 "https://textrepo.example/doc1"
                 [(0, 2, Samples.region_go); (3, 7, Samples.region_home)])
              "doc1.xmi" "Go home now."
              ltac:(intros key' d' [])
              eq_refl) as [_ Hsome].
  destruct (Hsome eq_refl) as (self & Hinit & _ & _ & Hsource & _).
  exists self. split; [exact Hinit | exact Hsource].
Defined.

(** ** The name of a group of files *)

Section BaseName.

Implicit Types (s : string) (c : ascii).

Lemma rfind_from_absent c s :
  forall (i : Z) (n : nat),
    contains_char c s = false -> PyStr.rfind_from c s i n = None.
Proof.
  induction s as [|ch s IH]; intros i n H.
  - destruct n; reflexivity.
  - simpl in H. apply orb_false_iff in H as [Hch Hs].
    destruct n as [|n]; [reflexivity|]. simpl.
    rewrite (IH _ _ Hs), Hch. reflexivity.
Qed.

(** The last [c] of a string is found where it stands. *)
Lemma rindex_last c (a b : string) :
  contains_char c b = false ->
  PyStr.rindex c (a +:+ String c b) = Some (PyStr.len a).
Proof.
  intros Hb. unfold PyStr.rindex, PyStr.len.
  assert (H : forall i : Z,
            PyStr.rfind_from c (a +:+ String c b) i
              (String.length (a +:+ String c b))
            = Some (i + Z.of_nat (String.length a))).
  { induction a as [|ch a IH]; intros i.
    - rewrite str_app_nil_l. simpl.
      rewrite (rfind_from_absent c b _ _ Hb), Ascii.eqb_refl.
      f_equal. lia.
    - rewrite str_app_cons. simpl String.length.
      cbn [PyStr.rfind_from]. rewrite IH. f_equal. lia. }
  rewrite H. f_equal.
Qed.

Lemma rindex_none c s :
  PyStr.rindex c s = None <-> contains_char c s = false.
Proof.
  unfold PyStr.rindex. split.
  - intros H. apply rfind_from_none in H. rewrite substring_all in H.
    exact H.
  - apply rfind_from_absent.
Qed.

(** [(a + b)[:len(a)]] and [(a + b)[len(a):]] *)
Lemma slice_to_app (a b : string) :
  PyStr.slice (a +:+ b) 0 (PyStr.len a) = a.
Proof.
  change (PyStr.slice (a +:+ b) 0 (PyStr.len a))
    with (PyStr.slice_to (a +:+ b) (PyStr.len a)).
  unfold PyStr.len. rewrite slice_to_substring.
  rewrite substring_take_app by lia. apply substring_all.
Qed.

Lemma slice_from_app (a b : string) :
  PyStr.slice_from (a +:+ b) (PyStr.len a) = b.
Proof.
  unfold PyStr.slice_from, PyStr.slice, PyStr.slice_bound, PyStr.len.
  rewrite str_length_app.
  destruct (Z.ltb_spec (Z.of_nat (String.length a)) 0) as [|_]; [lia|].
  destruct (Z.ltb_spec (Z.of_nat (String.length a + String.length b)) 0)
    as [|_]; [lia|].
  rewrite Z.min_l, Z.min_id by lia. rewrite Nat2Z.id.
  replace (Z.to_nat (Z.of_nat (String.length a + String.length b)
                     - Z.of_nat (String.length a)))
    with (String.length b) by lia.
  rewrite substring_skip. apply substring_all.
Qed.

End BaseName.

(** X19: for files whose base names read [base_page], the name of the
    group is the base name of the first file followed by an underscore and
    the page of the last file.  The page of the last file is cut at the
    position of the last underscore of the first name, so it is the page
    proper when the two names have bases of one length. *)
Theorem create_base_name_pages :
  forall (pagexml_files : list string)
         (first_file last_file base base' first_page last_page : string),
    head pagexml_files = Some first_file ->
    last pagexml_files = Some last_file ->
    to_base_name first_file = base +:+ "_" +:+ first_page ->
    contains_char "_" first_page = false ->
    to_base_name last_file = base' +:+ "_" +:+ last_page ->
    String.length base' = String.length base ->
    create_base_name pagexml_files
    = Some (base +:+ "_" +:+ first_page +:+ "_" +:+ last_page).
Proof.
  intros pagexml_files first_file last_file base base' first_page last_page
    Hhead Hlast Hfirst Hpage Hlastname Hlen.
  unfold create_base_name. rewrite Hhead, Hlast. simpl.
  rewrite Hfirst, Hlastname.
  change (base +:+ "_" +:+ first_page)
    with (base +:+ String "_" first_page).
  rewrite (rindex_last "_" base first_page Hpage). simpl.
  rewrite slice_to_app.
  change (base +:+ String "_" first_page)
    with (base +:+ "_" +:+ first_page).
  rewrite <- (str_app_assoc base "_" first_page).
  rewrite <- (str_app_assoc base' "_" last_page).
  assert (Hlen1 : PyStr.len base + 1 = PyStr.len (base +:+ "_")).
  { rewrite str_len_app. reflexivity. }
  assert (Hlen2 : PyStr.len base + 1 = PyStr.len (base' +:+ "_")).
  { rewrite str_len_app. unfold PyStr.len. rewrite Hlen. reflexivity. }
  rewrite Hlen1 at 1. rewrite slice_from_app.
  rewrite Hlen2, slice_from_app.
  reflexivity.
Qed.

Lemma create_base_name_pages_witness :
  create_base_name
    [ "scans/NL_1_12_0001.xml"; "scans/NL_1_12_0002.xml";
      "scans/NL_1_12_0003.xml" ]
  = Some "NL_1_12_0001_0003".
Proof.
  apply (create_base_name_pages _ "scans/NL_1_12_0001.xml"
           "scans/NL_1_12_0003.xml" "NL_1_12" "NL_1_12" "0001" "0003");
    reflexivity.
Defined.

(** X20: [create_base_name] raises exactly when the list of files is empty
    ([IndexError]) or the base name of the first file holds no underscore
    ([ValueError]); the names of the other files are never the cause. *)
Theorem create_base_name_defined :
  forall pagexml_files : list string,
    is_Some (create_base_name pagexml_files)
    <-> exists first_file,
          head pagexml_files = Some first_file
          /\ contains_char "_" (to_base_name first_file) = true.
Proof.
  intros pagexml_files. unfold create_base_name.
  destruct pagexml_files as [|first_file rest].
  - simpl. split; [intros [x Hx]; discriminate|].
    intros (f & Hf & _). discriminate.
  - assert (Hl : exists last_file, last (first_file :: rest) = Some last_file).
    { destruct (last (first_file :: rest)) as [l|] eqn:E;
        [exists l; reflexivity|].
      apply last_None in E. discriminate. }
    destruct Hl as [last_file Hl]. rewrite Hl. simpl.
    destruct (PyStr.rindex "_" (to_base_name first_file)) as [i|] eqn:Hr;
      simpl.
    + split; [|intros _; eexists; reflexivity].
      intros _. exists first_file. split; [reflexivity|].
      destruct (contains_char "_" (to_base_name first_file)) eqn:Hc;
        [reflexivity|].
      apply rindex_none in Hc. congruence.
    + split; [intros [x Hx]; discriminate|].
      intros (f & Hf & Hc). injection Hf as <-.
      apply rindex_none in Hr. congruence.
Qed.

Lemma create_base_name_defined_witness :
  is_Some (create_base_name ["scans/NL_1_12_0001.xml"])
  /\ ~ is_Some (create_base_name ["scans/page.xml"; "scans/NL_1_12_0002.xml"]).
Proof.
  split.
  - apply (create_base_name_defined ["scans/NL_1_12_0001.xml"]).
    exists "scans/NL_1_12_0001.xml". split; reflexivity.
  - intros H.
    apply (create_base_name_defined
             ["scans/page.xml"; "scans/NL_1_12_0002.xml"]) in H
      as (f & Hf & Hc).
    injection Hf as <-. discriminate.
Defined.

(** ** The ranges of regions and lines *)

Section ElementRanges.

Variable id_prefix : string.










End ElementRanges.


